(** * SeiOracleProvider: price cascade, funding-rate fan-out, cache and
      refresh timer of [src/providers/sei-oracle.ts], as a shallow embedding.

    JavaScript numbers are IEEE-754 binary64 values ([spec_float] with
    [prec = 53], [emax = 1024]); on-chain integers ([bigint]) are [Z]; the
    provider's two [Map]s are [gmap string _]; [async] methods are state
    transformers that may throw. *)

From Stdlib Require Import ZArith Bool List String Ascii Lia.
From Stdlib Require Import Floats.SpecFloat.
From stdpp Require Import base option list strings gmap.
Import ListNotations.

Local Open Scope string_scope.
Local Open Scope Z_scope.

(** ** JavaScript numbers *)

Module Num.

Definition number : Type := spec_float.

Definition prec : Z := 53.
Definition emax : Z := 1024.

Definition NaN : number := S754_nan.
Definition Infinity : number := S754_infinity false.

(** [Number(z)] for a [bigint] [z], and integer literals: the nearest
    binary64 value, ties to even. *)
Definition of_Z (z : Z) : number := binary_normalize prec emax z 0 false.

(** The binary64 value nearest to [n / d]. *)
Definition of_ratio (n d : positive) : number :=
  let '(mz, ez, lz) := SFdiv_core_binary prec emax (Zpos n) 0 (Zpos d) 0 in
  binary_round_aux prec emax false mz ez lz.

(** The binary64 value nearest to [m * 10^e]: decimal literals of the
    source and of parsed strings. [szero] is the sign of a zero result. *)
Definition of_decimal (szero : bool) (m : Z) (e : Z) : number :=
  match m with
  | Z0 => S754_zero szero
  | Zpos p =>
      if 0 <=? e then of_Z (m * 10 ^ e)
      else of_ratio p (Z.to_pos (10 ^ (- e)))
  | Zneg p =>
      if 0 <=? e then of_Z (m * 10 ^ e)
      else SFopp (of_ratio p (Z.to_pos (10 ^ (- e))))
  end.

Definition add : number -> number -> number := SFadd prec emax.
Definition sub : number -> number -> number := SFsub prec emax.
Definition mul : number -> number -> number := SFmul prec emax.
Definition div : number -> number -> number := SFdiv prec emax.

(** [x < y], [x <= y], [x > y]: all false when an operand is NaN. *)
Definition ltb (x y : number) : bool := SFltb x y.
Definition leb (x y : number) : bool := SFleb x y.
Definition gtb (x y : number) : bool := SFltb y x.

Definition isNaN (x : number) : bool :=
  match x with S754_nan => true | _ => false end.

Definition isFinite (x : number) : bool :=
  match x with S754_nan | S754_infinity _ => false | _ => true end.

(** [ToBoolean] on a number: [0], [-0] and [NaN] are falsy. *)
Definition truthy (x : number) : bool :=
  match x with S754_nan | S754_zero _ => false | _ => true end.

(** [Math.pow(10, n)] for an integral [n], taken correctly rounded. *)
Definition pow10 (n : Z) : number := of_decimal false 1 n.

End Num.

Import Num.

(** ** Strings: the built-ins the provider calls *)

Module Str.

Definition code (c : ascii) : Z := Z.of_nat (nat_of_ascii c).

(** [String.prototype.toUpperCase] on the ASCII range (tickers are ASCII). *)
Definition upper_ascii (c : ascii) : ascii :=
  if (97 <=? code c) && (code c <=? 122)
  then ascii_of_nat (nat_of_ascii c - 32) else c.

Fixpoint toUpperCase (s : string) : string :=
  match s with
  | EmptyString => EmptyString
  | String c r => String (upper_ascii c) (toUpperCase r)
  end.

(** [Array.prototype.includes] on an array of strings. *)
Definition includes (l : list string) (s : string) : bool :=
  existsb (String.eqb s) l.

(** Own-property read [rec[key]] on an object literal. Members inherited
    from [Object.prototype] (a symbol such as "constructor") are not
    modelled: symbols are tickers. *)
Fixpoint prop {A : Type} (rec : list (string * A)) (key : string) : option A :=
  match rec with
  | [] => None
  | (k, v) :: r => if String.eqb k key then Some v else prop r key
  end.

Definition is_ws (c : ascii) : bool :=
  ((9 <=? code c) && (code c <=? 13)) || (code c =? 32).

Fixpoint trim_start (s : string) : string :=
  match s with
  | String c r => if is_ws c then trim_start r else s
  | EmptyString => s
  end.

(** Value of [c] as a digit in the given radix (10 or 16). *)
Definition digit (radix : Z) (c : ascii) : option Z :=
  let n := code c in
  if (48 <=? n) && (n <=? 57) then Some (n - 48)
  else if (radix =? 16) && (97 <=? n) && (n <=? 102) then Some (n - 87)
  else if (radix =? 16) && (65 <=? n) && (n <=? 70) then Some (n - 55)
  else None.

(** Longest run of leading digits: accumulated value, count, rest. *)
Fixpoint digits (radix : Z) (s : string) (acc cnt : Z) : Z * Z * string :=
  match s with
  | String c r =>
      match digit radix c with
      | Some d => digits radix r (radix * acc + d) (cnt + 1)
      | None => (acc, cnt, s)
      end
  | EmptyString => (acc, cnt, s)
  end.

Definition sign (s : string) : bool * string :=
  match s with
  | String "-" r => (true, r)
  | String "+" r => (false, r)
  | _ => (false, s)
  end.

(** [ExponentPart]: [e] or [E], an optional sign, at least one digit;
    anything else leaves the exponent at 0. *)
Definition exponent (s : string) : Z :=
  match s with
  | String c r =>
      if (code c =? 101) || (code c =? 69) then
        let '(neg, r') := sign r in
        let '(v, n, _) := digits 10 r' 0 0 in
        if 0 <? n then (if neg then - v else v) else 0
      else 0
  | EmptyString => 0
  end.

(** [parseFloat(s)]: leading white space is skipped, the longest prefix
    that is a [StrDecimalLiteral] is converted, [NaN] if there is none. *)
Definition parseFloat_string (s : string) : number :=
  let '(neg, u) := sign (trim_start s) in
  if String.prefix "Infinity" u then S754_infinity neg else
  let '(iv, ni, r1) := digits 10 u 0 0 in
  let '(fv, nf, r2) :=
    match r1 with
    | String "." r => digits 10 r iv 0
    | _ => (iv, 0, r1)
    end in
  if ni + nf =? 0 then NaN
  else of_decimal neg (if neg then - fv else fv) (exponent r2 - nf).

(** [parseInt(s)] with no radix argument. *)
Definition parseInt_string (s : string) : number :=
  let '(neg, u) := sign (trim_start s) in
  let '(radix, u') :=
    match u with
    | String "0" (String x r) =>
        if (code x =? 120) || (code x =? 88) then (16, r) else (10, u)
    | _ => (10, u)
    end in
  let '(v, n, _) := digits radix u' 0 0 in
  if n =? 0 then NaN else of_decimal neg (if neg then - v else v) 0.

(** A property that may be absent reads as [undefined]; both built-ins
    first convert their argument to a string, and ["undefined"] does not
    start with a numeral. *)
Definition parseFloat (v : option string) : number :=
  match v with Some s => parseFloat_string s | None => NaN end.

Definition parseInt (v : option string) : number :=
  match v with Some s => parseInt_string s | None => NaN end.

Definition hex_digit (n : nat) : ascii :=
  match nth_error (list_ascii_of_string "0123456789abcdef") n with
  | Some c => c
  | None => "0"%char
  end.

Fixpoint hex (s : string) : string :=
  match s with
  | EmptyString => EmptyString
  | String c r =>
      String (hex_digit (nat_of_ascii c / 16))
        (String (hex_digit (nat_of_ascii c mod 16)) (hex r))
  end.

Fixpoint zeros (n : nat) : string :=
  match n with O => EmptyString | S k => String "0" (zeros k) end.

(** [s.padEnd(n, '0')]. *)
Definition padEnd0 (s : string) (n : nat) : string :=
  s ++ zeros (n - String.length s).

End Str.

(** ** Data model *)

Module PriceFeed.
Record t : Type := make {
  symbol : string;
  price : number;
  timestamp : number;
  source : string;
  confidence : number
}.
End PriceFeed.

Module FundingRate.
Record t : Type := make {
  symbol : string;
  rate : number;
  timestamp : number;
  exchange : string;
  nextFundingTime : number
}.
End FundingRate.

Record CexApis : Type := {
  binance : string;
  bybit : string;
  okx : string
}.

Module OracleConfig.
Record t : Type := make {
  pythPriceFeeds : list (string * string);
  chainlinkFeeds : list (string * string);
  cexApis : CexApis;
  updateInterval : Z
}.
End OracleConfig.

Record YeiOracleConfig : Type := {
  api3ContractAddress : string;
  pythContractAddress : string;
  redstoneContractAddress : string
}.

(** The fixed part of a provider instance, set by the constructor. *)
Record Provider : Type := {
  config : OracleConfig.t;
  yeiConfig : YeiOracleConfig;
  yeiMultiOracleAddresses : list (string * option string)
}.

(** [a || b] on a setting that may be undefined or empty. *)
Definition or_default (a : option string) (b : string) : string :=
  match a with
  | Some (String c r) => String c r
  | _ => b
  end.

(** The constructor, over [runtime.getSetting]. *)
Definition new_SeiOracleProvider (getSetting : string -> option string) : Provider :=
  {| yeiConfig :=
       {| api3ContractAddress :=
            or_default (getSetting "YEI_API3_CONTRACT") "0x2880aB155794e7179c9eE2e38200202908C17B43";
          pythContractAddress :=
            or_default (getSetting "YEI_PYTH_CONTRACT") "0x2880aB155794e7179c9eE2e38200202908C17B43";
          redstoneContractAddress :=
            or_default (getSetting "YEI_REDSTONE_CONTRACT") "0x1111111111111111111111111111111111111111" |};
     yeiMultiOracleAddresses :=
       [ ("SEI", Some (or_default (getSetting "YEI_SEI_ORACLE") "0xa2aCDc40e5ebCE7f8554E66eCe6734937A48B3f3"));
         ("USDC", Some (or_default (getSetting "YEI_USDC_ORACLE") "0xEAb459AD7611D5223A408A2e73b69173F61bb808"));
         ("USDT", Some (or_default (getSetting "YEI_USDT_ORACLE") "0x284db472a483e115e3422dd30288b24182E36DdB"));
         ("ETH", Some (or_default (getSetting "YEI_ETH_ORACLE") "0x3E45Fb956D2Ba2CB5Fa561c40E5912225E64F7B2"));
         ("BTC", getSetting "YEI_BTC_ORACLE") ];
     config :=
       {| OracleConfig.pythPriceFeeds :=
            [ ("BTC", "0xe62df6c8b4a85fe1a67db44dc12de5db330f7ac66b72dc658afedf0f4a415b43");
              ("ETH", "0xff61491a931112ddf1bd8147cd1b641375f79f5825126d665480874634fd0ace");
              ("SEI", "0x53614f1cb0c031d4af66c04cb9c756234adad0e1cee85303795091499a4084eb");
              ("USDC", "0xeaa020c61cc479712813461ce153894a96a6c00b21ed0cfc2798d1f9a9e9c94a") ];
          OracleConfig.chainlinkFeeds := [];
          OracleConfig.cexApis :=
            {| binance := "https://fapi.binance.com/fapi/v1";
               bybit := "https://api.bybit.com/v5";
               okx := "https://www.okx.com/api/v5" |};
          OracleConfig.updateInterval := 30 |} |}.

(** ** The world outside the provider *)

(** An upstream round trip: a chain read or an HTTP GET. *)
Inductive Request : Type :=
| ReadContract (address functionName : string) (args : list string)
| Fetch (url : string).

(** What a [catch] clause can receive. *)
Inductive Error : Type :=
| RpcFault      (* readContract rejected: transport, revert or decode *)
| FetchFault    (* fetch rejected *)
| JsonFault     (* response.json() rejected *)
| TypeFault     (* property read on undefined *)
| Raised (message : string) (subject : string).   (* throw new Error(...) *)

(** An HTTP response: [ok] and the body that [json()] resolves to, if it
    parses. Bodies are taken at the type of the source's [as] cast, every
    property possibly absent. *)
Record Response (B : Type) : Type := {
  ok : bool;
  body : option B
}.
Arguments ok {B} _.
Arguments body {B} _.

(** A number in a JSON text, carried as its literal: [JSON.parse] gives
    the binary64 value nearest to it, as [parseFloat] does on a numeral. *)
Definition JSON_number (literal : string) : number := Str.parseFloat_string literal.

(** [Record<string, { usd: number }>] *)
Definition CoinGeckoBody : Type := list (string * option string).

(** [{ price: string }] *)
Record TickerBody : Type := { tk_price : option string }.

(** [{ lastFundingRate: string; nextFundingTime: string }] *)
Record PremiumIndexBody : Type := {
  lastFundingRate : option string;
  pi_nextFundingTime : option string
}.

(** [{ result: { list: Array<{ fundingRate; nextFundingTime }> } }] *)
Record BybitTicker : Type := {
  by_fundingRate : option string;
  by_nextFundingTime : option string
}.
Record BybitBody : Type := { result_list : option (list BybitTicker) }.

(** [{ data: Array<{ fundingRate; fundingTime; nextFundingTime }> }] *)
Record OkxRow : Type := {
  ox_fundingRate : option string;
  ox_fundingTime : option string;
  ox_nextFundingTime : option string
}.
Record OkxBody : Type := { ox_data : option (list OkxRow) }.

(** The upstream services during one call. [None] is a rejected promise.
    A chain read resolves to the ABI-decoded tuple, as a list of integers. *)
Record World : Type := {
  chain : string -> string -> list string -> option (list Z);
  coingecko : string -> option (Response CoinGeckoBody);
  binance_ticker : string -> option (Response TickerBody);
  binance_premiumIndex : string -> option (Response PremiumIndexBody);
  bybit_tickers : string -> option (Response BybitBody);
  okx_fundingRate : string -> option (Response OkxBody);
  latency : Request -> N
}.

Inductive Level : Type := LDebug | LInfo | LLog | LWarn | LError.

(** One [elizaLogger] call: level, the fixed text, the symbol, the error. *)
Record LogEntry : Type := {
  level : Level;
  text : string;
  about : string;
  cause : option Error
}.

(** A live [setInterval] timer of the JS runtime. *)
Record Timer : Type := {
  handle : nat;
  period : Z;
  due : Z
}.

(** The provider's mutable fields, and the runtime state its methods act
    on: the clock behind [Date.now()], the live interval timers, the
    requests sent (with the time each was issued) and the log. *)
Record State : Type := {
  priceCache : gmap string PriceFeed.t;
  fundingRateCache : gmap string (list FundingRate.t);
  updateInterval : option nat;
  clock : Z;
  timers : list Timer;
  nextHandle : nat;
  requests : list (Z * Request);
  logs : list LogEntry
}.

Definition initial (now : Z) : State :=
  {| priceCache := ∅; fundingRateCache := ∅; updateInterval := None;
     clock := now; timers := []; nextHandle := O; requests := []; logs := [] |}.

(** ** Computations: state passing with exceptions *)

Inductive Outcome (A : Type) : Type :=
| Return (a : A)
| Throw (e : Error).
Arguments Return {A} _.
Arguments Throw {A} _.

Definition M (A : Type) : Type := State -> Outcome A * State.

#[global] Instance M_ret : MRet M := fun A a s => (Return a, s).

#[global] Instance M_bind : MBind M := fun A B f m s =>
  match m s with
  | (Return a, s') => f a s'
  | (Throw e, s') => (Throw e, s')
  end.

Definition throw {A : Type} (e : Error) : M A := fun s => (Throw e, s).

(** [try { m } catch (error) { h error }] *)
Definition try_catch {A : Type} (m : M A) (h : Error -> M A) : M A := fun s =>
  match m s with
  | (Return a, s') => (Return a, s')
  | (Throw e, s') => h e s'
  end.

Definition gets {A : Type} (f : State -> A) : M A := fun s => (Return (f s), s).

Definition modify (f : State -> State) : M unit := fun s => (Return tt, f s).

(** [Date.now()] *)
Definition Date_now : M number := gets (fun s => of_Z (clock s)).

Definition set_priceCache (k : string) (v : PriceFeed.t) (s : State) : State :=
  {| priceCache := <[k := v]> (priceCache s); fundingRateCache := fundingRateCache s;
     updateInterval := updateInterval s; clock := clock s; timers := timers s;
     nextHandle := nextHandle s; requests := requests s; logs := logs s |}.

Definition set_fundingRateCache (k : string) (v : list FundingRate.t) (s : State) : State :=
  {| priceCache := priceCache s; fundingRateCache := <[k := v]> (fundingRateCache s);
     updateInterval := updateInterval s; clock := clock s; timers := timers s;
     nextHandle := nextHandle s; requests := requests s; logs := logs s |}.

Definition set_clock (t : Z) (s : State) : State :=
  {| priceCache := priceCache s; fundingRateCache := fundingRateCache s;
     updateInterval := updateInterval s; clock := t; timers := timers s;
     nextHandle := nextHandle s; requests := requests s; logs := logs s |}.

Definition add_log (e : LogEntry) (s : State) : State :=
  {| priceCache := priceCache s; fundingRateCache := fundingRateCache s;
     updateInterval := updateInterval s; clock := clock s; timers := timers s;
     nextHandle := nextHandle s; requests := requests s; logs := logs s ++ [e] |}.

(** A request goes out at the current time and its reply arrives one
    latency later. *)
Definition send (W : World) (r : Request) (s : State) : State :=
  {| priceCache := priceCache s; fundingRateCache := fundingRateCache s;
     updateInterval := updateInterval s; clock := clock s + Z.of_N (latency W r);
     timers := timers s; nextHandle := nextHandle s;
     requests := requests s ++ [(clock s, r)]; logs := logs s |}.

Definition elizaLogger (l : Level) (t : string) (sym : string) (c : option Error) : M unit :=
  modify (add_log {| level := l; text := t; about := sym; cause := c |}).

(** [await publicClient.readContract({ address, abi, functionName, args })] *)
Definition readContract (W : World) (address functionName : string) (args : list string)
  : M (list Z) := fun s =>
  let s' := send W (ReadContract address functionName args) s in
  match chain W address functionName args with
  | Some tuple => (Return tuple, s')
  | None => (Throw RpcFault, s')
  end.

(** [await fetch(url)] against one of the HTTP services. *)
Definition fetch {B : Type} (W : World) (service : string -> option (Response B))
  (url : string) : M (Response B) := fun s =>
  let s' := send W (Fetch url) s in
  match service url with
  | Some r => (Return r, s')
  | None => (Throw FetchFault, s')
  end.

(** [await response.json()] *)
Definition json {B : Type} (r : Response B) : M B :=
  match body r with
  | Some b => mret b
  | None => throw JsonFault
  end.

(** [await Promise.all([a, b, c])] for three [async] calls: each starts at
    the same instant, the join completes when the last one has. *)
Definition Promise_all3 {A : Type} (a b c : M A) : M (list A) := fun s =>
  let t0 := clock s in
  let '(ra, sa) := a s in
  let '(rb, sb) := b (set_clock t0 sa) in
  let '(rc, sc) := c (set_clock t0 sb) in
  let s' := set_clock (Z.max (clock sa) (Z.max (clock sb) (clock sc))) sc in
  match ra, rb, rc with
  | Return x, Return y, Return z => (Return [x; y; z], s')
  | Throw e, _, _ => (Throw e, s')
  | _, Throw e, _ => (Throw e, s')
  | _, _, Throw e => (Throw e, s')
  end.

(** ** The provider's methods *)

Definition zero : number := of_Z 0.

(** [Math.floor] *)
Definition Math_floor (x : number) : number :=
  match x with
  | S754_finite sx m e =>
      if 0 <=? e then x
      else
        let z := Z.shiftr (if sx then Zneg m else Zpos m) (- e) in
        binary_normalize prec emax z 0 sx
  | _ => x
  end.

(** [!oracleAddress] is false, with the address. *)
Definition truthy_string (v : option (option string)) : option string :=
  match v with
  | Some (Some (String c r)) => Some (String c r)
  | _ => None
  end.

Definition coinGeckoIds : list (string * string) :=
  [ ("BTC", "bitcoin"); ("ETH", "ethereum"); ("SEI", "sei-network");
    ("USDC", "usd-coin"); ("USDT", "tether"); ("SOL", "solana");
    ("AVAX", "avalanche-2"); ("ATOM", "cosmos"); ("DAI", "dai") ].

Definition dApiIds : list (string * string) :=
  [ ("BTC", "0xe62df6c8b4a85fe1a67db44dc12de5db330f7ac66b72dc658afedf0f4a415b43");
    ("ETH", "0xff61491a931112ddf1bd8147cd1b641375f79f5825126d665480874634fd0ace");
    ("SEI", "0x53614f1cb0c031d4af66c04cb9c756234adad0e1cee85303795091499a4084eb");
    ("USDC", "0xeaa020c61cc479712813461ce153894a96a6c00b21ed0cfc2798d1f9a9e9c94a") ].

Definition pythAddress : string := "0x2880aB155794e7179c9eE2e38200202908C17B43".

Definition yeiSupportedSymbols : list string := ["BTC"; "ETH"; "SEI"; "USDC"; "USDT"].

Definition cexSupportedSymbols : list string := ["BTC"; "ETH"; "SEI"; "USDC"; "SOL"; "AVAX"].

Section Methods.

Variable P : Provider.
Variable W : World.

Definition getPythPrice (symbol : string) : M (option PriceFeed.t) :=
  try_catch
    (match Str.prop (OracleConfig.pythPriceFeeds (config P)) symbol with
     | None => mret None
     | Some feedId =>
         result ← readContract W pythAddress "getPriceUnsafe" [feedId];
         match result with
         | [price; conf; expo; publishTime] =>
             if price =? 0 then mret None
             else
               let priceValue := mul (of_Z price) (pow10 expo) in
               let confidence := mul (of_Z conf) (pow10 expo) in
               let timestamp := mul (of_Z publishTime) (of_Z 1000) in
               if isNaN priceValue || leb priceValue zero then mret None
               else mret (Some (PriceFeed.make symbol priceValue timestamp "pyth" confidence))
         | _ => throw RpcFault
         end
     end)
    (fun error =>
       elizaLogger LError "Pyth price fetch error for" symbol (Some error);;
       mret None).

Definition getCoinGeckoPrice (symbol : string) : M (option PriceFeed.t) :=
  try_catch
    (match Str.prop coinGeckoIds (Str.toUpperCase symbol) with
     | None => mret None
     | Some coinId =>
         response ← fetch W (coingecko W)
           ("https://api.coingecko.com/api/v3/simple/price?ids=" ++ coinId ++ "&vs_currencies=usd");
         if ok response then
           data ← json response;
           match Str.prop data coinId with
           | Some (Some usd) =>
               let price := JSON_number usd in
               if negb (truthy price) || isNaN price || leb price zero then mret None
               else
                 now ← Date_now;
                 mret (Some (PriceFeed.make symbol price now "CoinGecko" (of_decimal false 95 (-2))))
           | _ => mret None
           end
         else mret None
     end)
    (fun error =>
       elizaLogger LError "CoinGecko price fetch error for" symbol (Some error);;
       mret None).

Definition getCexPrice (symbol : string) : M (option PriceFeed.t) :=
  try_catch
    (if negb (Str.includes cexSupportedSymbols symbol) then mret None
     else
       response ← fetch W (binance_ticker W)
         (binance (OracleConfig.cexApis (config P)) ++ "/ticker/price?symbol=" ++ symbol ++ "USDT");
       if ok response then
         data ← json response;
         let price := Str.parseFloat (tk_price data) in
         if isNaN price || leb price zero then mret None
         else
           now ← Date_now;
           mret (Some (PriceFeed.make symbol price now "Binance" (of_decimal false 95 (-2))))
       else mret None)
    (fun error =>
       elizaLogger LError "CEX price fetch error for" symbol (Some error);;
       mret None).

Definition getYeiMultiOraclePrice (symbol : string) : M (option PriceFeed.t) :=
  try_catch
    (match truthy_string (Str.prop (yeiMultiOracleAddresses P) (Str.toUpperCase symbol)) with
     | None =>
         elizaLogger LDebug "No YEI Multi-Oracle address configured for" symbol None;;
         mret None
     | Some oracleAddress =>
         result ← readContract W oracleAddress "getLatestPrice" [];
         match result with
         | [price; timestamp; decimals] =>
             if price =? 0 then
               elizaLogger LWarn "YEI Multi-Oracle returned zero price for" symbol None;;
               mret None
             else
               let formattedPrice := div (of_Z price) (pow10 decimals) in
               let timestampMs := mul (of_Z timestamp) (of_Z 1000) in
               now ← Date_now;
               (if gtb (sub now timestampMs) (of_Z 3600000)
                then elizaLogger LWarn "YEI Multi-Oracle price too old for" symbol None
                else mret tt);;
               elizaLogger LInfo "YEI Multi-Oracle price for" symbol None;;
               mret (Some (PriceFeed.make symbol formattedPrice timestampMs
                             "YEI Multi-Oracle" (of_decimal false 98 (-2))))
         | _ => throw RpcFault
         end
     end)
    (fun error =>
       elizaLogger LError "YEI Multi-Oracle price fetch error for" symbol (Some error);;
       mret None).

Definition getBinanceFundingRate (symbol : string) : M (option FundingRate.t) :=
  try_catch
    (response ← fetch W (binance_premiumIndex W)
       (binance (OracleConfig.cexApis (config P)) ++ "/premiumIndex?symbol=" ++ symbol ++ "USDT");
     if ok response then
       data ← json response;
       now ← Date_now;
       mret (Some (FundingRate.make symbol
                     (mul (Str.parseFloat (lastFundingRate data)) (of_Z 8760))
                     now "Binance"
                     (Str.parseInt (pi_nextFundingTime data))))
     else mret None)
    (fun error =>
       elizaLogger LError "Binance funding rate error for" symbol (Some error);;
       mret None).

Definition getBybitFundingRate (symbol : string) : M (option FundingRate.t) :=
  try_catch
    (response ← fetch W (bybit_tickers W)
       (bybit (OracleConfig.cexApis (config P)) ++ "/market/tickers?category=linear&symbol="
          ++ symbol ++ "USDT");
     if ok response then
       data ← json response;
       match result_list data with
       | Some (ticker :: _) =>
           now ← Date_now;
           mret (Some (FundingRate.make symbol
                         (mul (Str.parseFloat (by_fundingRate ticker)) (of_Z 8760))
                         now "Bybit"
                         (Str.parseInt (by_nextFundingTime ticker))))
       | _ => throw TypeFault
       end
     else mret None)
    (fun error =>
       elizaLogger LError "Bybit funding rate error for" symbol (Some error);;
       mret None).

Definition getOkxFundingRate (symbol : string) : M (option FundingRate.t) :=
  try_catch
    (response ← fetch W (okx_fundingRate W)
       (okx (OracleConfig.cexApis (config P)) ++ "/public/funding-rate?instId="
          ++ symbol ++ "-USDT-SWAP");
     if ok response then
       data ← json response;
       match ox_data data with
       | Some (fundingData :: _) =>
           mret (Some (FundingRate.make symbol
                         (mul (Str.parseFloat (ox_fundingRate fundingData)) (of_Z 8760))
                         (Str.parseInt (ox_fundingTime fundingData))
                         "OKX"
                         (Str.parseInt (ox_nextFundingTime fundingData))))
       | _ => throw TypeFault
       end
     else mret None)
    (fun error =>
       elizaLogger LError "OKX funding rate error for" symbol (Some error);;
       mret None).

Definition getAPI3dApiId (symbol : string) : M string :=
  match Str.prop dApiIds (Str.toUpperCase symbol) with
  | Some dApiId => mret dApiId
  | None => throw (Raised "No API3 dAPI ID configured for" symbol)
  end.

Definition stringToBytes32 (str : string) : string :=
  "0x" ++ Str.padEnd0 (Str.hex str) 64.

Definition getAPI3Price (symbol : string) : M number :=
  dApiId ← getAPI3dApiId symbol;
  result ← readContract W (api3ContractAddress (yeiConfig P)) "readDataFeed" [dApiId];
  match result with
  | [value; stamp] =>
      let price := div (of_Z value) (of_Z (10 ^ 18)) in
      let timestamp := of_Z stamp in
      ms ← Date_now;
      let now := Math_floor (div ms (of_Z 1000)) in
      if gtb (sub now timestamp) (of_Z 3600)
      then throw (Raised "API3 price data too old for" symbol)
      else mret price
  | _ => throw RpcFault
  end.

Definition getRedstonePrice (symbol : string) : M number :=
  if negb (Str.includes ["USDT"; "USDC"] symbol)
  then throw (Raised "Redstone feed not available for" symbol)
  else
    let feedId := stringToBytes32 (symbol ++ "/USD") in
    result ← readContract W (redstoneContractAddress (yeiConfig P)) "getLatestRoundData" [feedId];
    match result with
    | [price; _] => mret (div (of_Z price) (of_Z (10 ^ 8)))
    | _ => throw RpcFault
    end.

(** [x && x > 0] on a number. *)
Definition positive_number (x : number) : bool := truthy x && gtb x zero.

(** Each [try] block of [getYeiPrice] either returns from the method
    ([Some]) or falls through to the next one ([None]). *)
Definition getYeiPrice (symbol : string) : M number :=
  api3 ← try_catch
    (api3Price ← getAPI3Price symbol;
     if positive_number api3Price
     then elizaLogger LLog "YEI API3 price for" symbol None;; mret (Some api3Price)
     else mret None)
    (fun error =>
       elizaLogger LError "YEI API3 price fetch failed for" symbol (Some error);;
       mret None);
  match api3 with
  | Some p => mret p
  | None =>
      pyth ← try_catch
        (pythPrice ← getPythPrice symbol;
         match pythPrice with
         | Some q =>
             if gtb (PriceFeed.price q) zero
             then elizaLogger LLog "YEI Pyth price for" symbol None;;
                  mret (Some (PriceFeed.price q))
             else mret None
         | None => mret None
         end)
        (fun error =>
           elizaLogger LError "YEI Pyth price fetch failed for" symbol (Some error);;
           mret None);
      match pyth with
      | Some p => mret p
      | None =>
          redstone ← try_catch
            (redstonePrice ← getRedstonePrice symbol;
             if positive_number redstonePrice
             then elizaLogger LLog "YEI Redstone price for" symbol None;;
                  mret (Some redstonePrice)
             else mret None)
            (fun error =>
               elizaLogger LError "YEI Redstone price fetch failed for" symbol (Some error);;
               mret None);
          match redstone with
          | Some p => mret p
          | None => throw (Raised "All YEI oracle sources failed for" symbol)
          end
      end
  end.

End Methods.

Section Resolver.

Variable P : Provider.
Variable W : World.

(** [cached && Date.now() - cached.timestamp < updateInterval * 1000] *)
Definition price_fresh (now : number) (cached : option PriceFeed.t) : bool :=
  match cached with
  | Some c =>
      ltb (sub now (PriceFeed.timestamp c))
        (of_Z (OracleConfig.updateInterval (config P) * 1000))
  | None => false
  end.

(** [price && !isNaN(price.price) && price.price > 0] *)
Definition valid_price (q : PriceFeed.t) : bool :=
  negb (isNaN (PriceFeed.price q)) && gtb (PriceFeed.price q) zero.

(** [if (price) elizaLogger.info(`Using ... price for`)] *)
Definition log_using (name : string) (symbol : string) (price : option PriceFeed.t) : M unit :=
  match price with
  | Some _ => elizaLogger LInfo name symbol None
  | None => mret tt
  end.

(** Priority 3, the body of [if (!price)]. *)
Definition legacyPrice (symbol : string) : M (option PriceFeed.t) :=
  if Str.includes yeiSupportedSymbols (Str.toUpperCase symbol) then
    try_catch
      (yeiPrice ← getYeiPrice P W symbol;
       if positive_number yeiPrice then
         now ← Date_now;
         let price := PriceFeed.make symbol yeiPrice now "yei-legacy-oracle"
                        (of_decimal false 95 (-2)) in
         elizaLogger LInfo "Using YEI legacy oracle price for" symbol None;;
         mret (Some price)
       else mret None)
      (fun error =>
         elizaLogger LWarn "YEI legacy oracle failed for" symbol (Some error);;
         mret None)
  else mret None.

(** [getPrice] after the cache check, inside its [try]. *)
Definition resolvePrice (symbol : string) : M (option PriceFeed.t) :=
  price ← getYeiMultiOraclePrice P W symbol;
  log_using "Using YEI Multi-Oracle price for" symbol price;;
  price ← match price with
          | Some _ => mret price
          | None =>
              price ← getCoinGeckoPrice W symbol;
              log_using "Using CoinGecko price for" symbol price;;
              mret price
          end;
  price ← match price with
          | Some _ => mret price
          | None => legacyPrice symbol
          end;
  price ← match price with
          | Some _ => mret price
          | None =>
              price ← getPythPrice P W symbol;
              log_using "Using Pyth price for" symbol price;;
              mret price
          end;
  price ← match price with
          | Some _ => mret price
          | None =>
              price ← getCexPrice P W symbol;
              log_using "Using Binance CEX price for" symbol price;;
              mret price
          end;
  match price with
  | Some q =>
      if valid_price q
      then modify (set_priceCache symbol q);; mret (Some q)
      else mret None
  | None => mret None
  end.

Definition getPrice (symbol : string) : M (option PriceFeed.t) :=
  try_catch
    (cached ← gets (fun s => priceCache s !! symbol);
     now ← Date_now;
     if price_fresh now cached then mret cached
     else resolvePrice symbol)
    (fun error =>
       elizaLogger LError "Failed to get price for" symbol (Some error);;
       mret None).

(** [cached && cached.length > 0 &&
     Date.now() - cached[0]?.timestamp < updateInterval * 1000] *)
Definition rates_fresh (now : number) (cached : option (list FundingRate.t)) : bool :=
  match cached with
  | Some (first :: _) =>
      ltb (sub now (FundingRate.timestamp first))
        (of_Z (OracleConfig.updateInterval (config P) * 1000))
  | _ => false
  end.

(** [rates.filter(r => r !== null)] *)
Definition non_null {A : Type} (rates : list (option A)) : list A :=
  omap (fun r => r) rates.

Definition getFundingRates (symbol : string) : M (list FundingRate.t) :=
  try_catch
    (cached ← gets (fun s => fundingRateCache s !! symbol);
     now ← Date_now;
     if rates_fresh now cached then mret (default [] cached)
     else
       rates ← Promise_all3 (getBinanceFundingRate P W symbol)
                            (getBybitFundingRate P W symbol)
                            (getOkxFundingRate P W symbol);
       let validRates := non_null rates in
       (if (0 <? Z.of_nat (length validRates))
        then modify (set_fundingRateCache symbol validRates)
        else mret tt);;
       mret validRates)
    (fun error =>
       elizaLogger LError "Failed to get funding rates for" symbol (Some error);;
       mret []).

End Resolver.

(** ** The periodic refresh *)

Definition set_timers (h : option nat) (ts : list Timer) (next : nat) (s : State) : State :=
  {| priceCache := priceCache s; fundingRateCache := fundingRateCache s;
     updateInterval := h; clock := clock s; timers := ts;
     nextHandle := next; requests := requests s; logs := logs s |}.

(** [setInterval(callback, ms)]: a fresh handle and a live timer. *)
Definition setInterval (ms : Z) : M nat := fun s =>
  let h := nextHandle s in
  (Return h,
   set_timers (updateInterval s)
     (timers s ++ [{| handle := h; period := ms; due := clock s + ms |}]) (S h) s).

(** [clearInterval(handle)] *)
Definition clearInterval (h : nat) : M unit := fun s =>
  (Return tt,
   set_timers (updateInterval s)
     (List.filter (fun t => negb (Nat.eqb (handle t) h)) (timers s)) (nextHandle s) s).

Section Scheduler.

Variable P : Provider.

Definition startPriceUpdates : M unit :=
  h ← gets updateInterval;
  match h with
  | Some _ => mret tt
  | None =>
      h ← setInterval (OracleConfig.updateInterval (config P) * 1000);
      modify (fun s => set_timers (Some h) (timers s) (nextHandle s) s)
  end.

Definition stopPriceUpdates : M unit :=
  h ← gets updateInterval;
  match h with
  | Some h =>
      clearInterval h;;
      modify (fun s => set_timers None (timers s) (nextHandle s) s)
  | None => mret tt
  end.

(** The interval callback. The three calls of each [Promise.all] start
    together; their cache writes are to different keys. *)
Definition refresh (W : World) : M unit :=
  try_catch
    (Promise_all3 (getPrice P W "BTC") (getPrice P W "ETH") (getPrice P W "SEI");;
     Promise_all3 (getFundingRates P W "BTC") (getFundingRates P W "ETH")
                  (getFundingRates P W "SEI");;
     mret tt)
    (fun error => elizaLogger LError "Price update error" "" (Some error)).

(** How often a timer comes due up to and including [target]. *)
Definition firings (t : Timer) (target : Z) : nat :=
  if due t <=? target
  then Z.to_nat ((target - due t) / Z.max 1 (period t) + 1)
  else O.

(** [n] consecutive ticks of one timer, the first one due at [at_]. *)
Fixpoint fire (W : World) (n : nat) (every at_ : Z) (s : State) : State :=
  match n with
  | O => s
  | S k =>
      let s1 := set_clock (Z.max (clock s) at_) s in
      fire W k every (at_ + every) (snd (refresh W s1))
  end.

Definition reschedule (target : Z) (t : Timer) : Timer :=
  {| handle := handle t; period := period t;
     due := due t + Z.of_nat (firings t target) * Z.max 1 (period t) |}.

(** The event loop while nothing else runs: [dt] milliseconds pass and
    every live timer's callback runs each time it comes due. *)
Definition elapse (W : World) (dt : Z) (s : State) : State :=
  let target := clock s + dt in
  let s1 :=
    fold_left (fun acc t => fire W (firings t target) (Z.max 1 (period t)) (due t) acc)
      (timers s) s in
  set_timers (updateInterval s1) (map (reschedule target) (timers s1)) (nextHandle s1)
    (set_clock (Z.max (clock s1) target) s1).

End Scheduler.

(** ** Running the model on concrete inputs *)

Module Demo.

Definition P0 : Provider := new_SeiOracleProvider (fun _ => None).

(** Every service unreachable. *)
Definition down : World :=
  {| chain := fun _ _ _ => None;
     coingecko := fun _ => None;
     binance_ticker := fun _ => None;
     binance_premiumIndex := fun _ => None;
     bybit_tickers := fun _ => None;
     okx_fundingRate := fun _ => None;
     latency := fun _ => 100%N |}.

Definition t0 : Z := 1700000000000.

End Demo.

(** ** The cascade, as the specification words it

    An ordered list of sources, tried in turn until one yields a quote;
    the winner is stored if it passes the validity check. *)

Section Cascade.

Variable P : Provider.
Variable W : World.

Definition source1 (symbol : string) : M (option PriceFeed.t) :=
  price ← getYeiMultiOraclePrice P W symbol;
  log_using "Using YEI Multi-Oracle price for" symbol price;;
  mret price.

Definition source2 (symbol : string) : M (option PriceFeed.t) :=
  price ← getCoinGeckoPrice W symbol;
  log_using "Using CoinGecko price for" symbol price;;
  mret price.

Definition source3 (symbol : string) : M (option PriceFeed.t) :=
  legacyPrice P W symbol.

Definition source4 (symbol : string) : M (option PriceFeed.t) :=
  price ← getPythPrice P W symbol;
  log_using "Using Pyth price for" symbol price;;
  mret price.

Definition source5 (symbol : string) : M (option PriceFeed.t) :=
  price ← getCexPrice P W symbol;
  log_using "Using Binance CEX price for" symbol price;;
  mret price.

Definition priority (symbol : string) : list (M (option PriceFeed.t)) :=
  [source1 symbol; source2 symbol; source3 symbol; source4 symbol; source5 symbol].

Fixpoint first_quote (sources : list (M (option PriceFeed.t))) : M (option PriceFeed.t) :=
  match sources with
  | [] => mret None
  | a :: rest =>
      price ← a;
      match price with
      | Some _ => mret price
      | None => first_quote rest
      end
  end.

Definition store_valid (symbol : string) (price : option PriceFeed.t)
  : M (option PriceFeed.t) :=
  match price with
  | Some q =>
      if valid_price q
      then modify (set_priceCache symbol q);; mret (Some q)
      else mret None
  | None => mret None
  end.

Definition resolvePrice_spec (symbol : string) : M (option PriceFeed.t) :=
  price ← first_quote (priority symbol);
  store_valid symbol price.

End Cascade.

(** ** Relations between the state before and after a computation *)

Definition stable (R : State -> State -> Prop) {A : Type} (m : M A) : Prop :=
  forall s, R s (snd (m s)).

(** A computation that never throws. *)
Definition total {A : Type} (m : M A) : Prop :=
  forall s, exists a, fst (m s) = Return a.

(** Relations that the runtime's own bookkeeping (log, requests, clock)
    cannot break. *)
Class Ambient (R : State -> State -> Prop) : Prop := {
  amb_refl : forall s, R s s;
  amb_trans : forall s1 s2 s3, R s1 s2 -> R s2 s3 -> R s1 s3;
  amb_log : forall e s, R s (add_log e s);
  amb_send : forall W r s, R s (send W r s);
  amb_clock : forall t s, R s (set_clock t s)
}.

Definition keeps {X : Type} (f : State -> X) : State -> State -> Prop :=
  fun s s' => f s' = f s.

(** The scheduler's part of the state. *)
Definition schedule (s : State) : option nat * list Timer * nat :=
  (updateInterval s, timers s, nextHandle s).

(** Numeric and string built-ins are only ever evaluated on closed inputs. *)
Arguments Num.of_Z : simpl never.
Arguments Num.of_ratio : simpl never.
Arguments Num.of_decimal : simpl never.
Arguments Num.add : simpl never.
Arguments Num.sub : simpl never.
Arguments Num.mul : simpl never.
Arguments Num.div : simpl never.
Arguments Num.ltb : simpl never.
Arguments Num.leb : simpl never.
Arguments Num.gtb : simpl never.
Arguments Num.pow10 : simpl never.
Arguments Math_floor : simpl never.
Arguments Str.parseFloat : simpl never.
Arguments Str.parseFloat_string : simpl never.
Arguments JSON_number : simpl never.
Arguments Str.parseInt : simpl never.
Arguments Str.toUpperCase : simpl never.
Arguments Str.includes : simpl never.
Arguments Str.prop : simpl never.
Arguments zero : simpl never.

(** "BTC" with a configured primary oracle that reports price 0, and
    CoinGecko answering 65000.5. *)
Module DemoBTC.

Definition oracle : string := "0x00000000000000000000000000000000000000b7".

Definition P : Provider :=
  new_SeiOracleProvider
    (fun key => if String.eqb key "YEI_BTC_ORACLE" then Some oracle else None).

Definition url : string :=
  "https://api.coingecko.com/api/v3/simple/price?ids=bitcoin&vs_currencies=usd".

Definition payload : CoinGeckoBody := [("bitcoin", Some "65000.5")].

Definition W : World :=
  {| chain := fun address functionName _ =>
       if String.eqb address oracle && String.eqb functionName "getLatestPrice"
       then Some [0; 1699999990; 8] else None;
     coingecko := fun u =>
       if String.eqb u url then Some {| ok := true; body := Some payload |} else None;
     binance_ticker := fun _ => None;
     binance_premiumIndex := fun _ => None;
     bybit_tickers := fun _ => None;
     okx_fundingRate := fun _ => None;
     latency := fun _ => 100%N |}.

Definition s0 : State := initial Demo.t0.

End DemoBTC.

(** ** Histories of a provider instance *)

(** What can happen to an instance: its public methods are called, and
    time passes with the event loop running the live timers. The upstream
    services may answer differently each time. *)
Inductive Call : Type :=
| CallGetPrice (symbol : string)
| CallGetFundingRates (symbol : string)
| CallStartPriceUpdates
| CallStopPriceUpdates
| Wait (dt : Z).

Definition step (P : Provider) (W : World) (c : Call) (s : State) : State :=
  match c with
  | CallGetPrice symbol => snd (getPrice P W symbol s)
  | CallGetFundingRates symbol => snd (getFundingRates P W symbol s)
  | CallStartPriceUpdates => snd (startPriceUpdates P s)
  | CallStopPriceUpdates => snd (stopPriceUpdates s)
  | Wait dt => elapse P W dt s
  end.

Inductive reachable (P : Provider) : State -> Prop :=
| reach_initial (now : Z) : reachable P (initial now)
| reach_step (s : State) (W : World) (c : Call) :
    reachable P s -> reachable P (step P W c s).

(** Every cached quote passes the guard of [getPrice]. *)
Definition cache_guarded (s : State) : Prop :=
  forall k q, priceCache s !! k = Some q -> valid_price q = true.

(** The specification's validity: finite and strictly positive. *)
Definition finite_positive (p : number) : bool := isFinite p && gtb p zero.

(** C2 as the specification states it: whatever the history and the
    upstream answers, a quote that [getPrice] returns or leaves in the cache
    has a finite, strictly positive price. *)
Definition only_finite_positive_quotes : Prop :=
  forall P W symbol s, reachable P s ->
    forall q,
      (fst (getPrice P W symbol s) = Return (Some q)
       \/ exists k, priceCache (snd (getPrice P W symbol s)) !! k = Some q) ->
      finite_positive (PriceFeed.price q) = true.

(** CoinGecko answering [{"sei-network":{"usd":1e999}}], a number that
    overflows to [Infinity]; the primary oracle unreachable. *)
Module DemoOverflow.

Definition payload : CoinGeckoBody := [("sei-network", Some "1e999")].

Definition W : World :=
  {| chain := fun _ _ _ => None;
     coingecko := fun _ => Some {| ok := true; body := Some payload |};
     binance_ticker := fun _ => None;
     binance_premiumIndex := fun _ => None;
     bybit_tickers := fun _ => None;
     okx_fundingRate := fun _ => None;
     latency := fun _ => 100%N |}.

End DemoOverflow.

(** The primary oracle for "SEI" reporting 1.234567 (6 decimals), observed
    two hours before the call. *)
Module DemoStale.

Definition W : World :=
  {| chain := fun _ functionName _ =>
       if String.eqb functionName "getLatestPrice"
       then Some [1234567; Demo.t0 / 1000 - 7200; 6] else None;
     coingecko := fun _ => None;
     binance_ticker := fun _ => None;
     binance_premiumIndex := fun _ => None;
     bybit_tickers := fun _ => None;
     okx_fundingRate := fun _ => None;
     latency := fun _ => 100%N |}.

Definition seiOracle : string := "0xa2aCDc40e5ebCE7f8554E66eCe6734937A48B3f3".

End DemoStale.

(** The provider's handle and the runtime's live timers agree: no handle
    and no timer, or one handle and exactly that timer. *)
Definition timer_inv (s : State) : Prop :=
  match updateInterval s with
  | Some h => exists t, timers s = [t] /\ handle t = h
  | None => timers s = []
  end.

(** The requests sent so far, the log and both caches. *)
Definition observable (s : State)
  : list (Z * Request) * list LogEntry * gmap string PriceFeed.t
    * gmap string (list FundingRate.t) :=
  (requests s, logs s, priceCache s, fundingRateCache s).

(** The warning of the primary adapter for an old observation. *)
Definition warn_too_old (symbol : string) : LogEntry :=
  {| level := LWarn; text := "YEI Multi-Oracle price too old for";
     about := symbol; cause := None |}.

(** ** Upstream failure *)

(** An HTTP service that fails: the fetch is rejected, the status is not
    2xx, the body does not parse, or it parses to a payload that is
    [malformed]. *)
Definition failing {B : Type} (malformed : B -> Prop) (r : option (Response B)) : Prop :=
  match r with
  | None => True
  | Some resp =>
      ok resp = false
      \/ match body resp with
         | None => True
         | Some b => malformed b
         end
  end.

(** Failing before any payload is read. *)
Definition unavailable {B : Type} (r : option (Response B)) : Prop :=
  failing (fun _ => False) r.

(** Payloads without the part the adapter reads. *)
Definition no_usd (b : CoinGeckoBody) : Prop :=
  forall coinId usd, Str.prop b coinId <> Some (Some usd).

Definition no_ticker_price (b : TickerBody) : Prop := tk_price b = None.

Definition no_tickers (b : BybitBody) : Prop :=
  result_list b = None \/ result_list b = Some [].

Definition no_rows (b : OkxBody) : Prop :=
  ox_data b = None \/ ox_data b = Some [].

(** Every source failing: all chain reads rejected, all HTTP services
    failing. For Binance's funding endpoint no parsed payload counts as
    malformed, because the adapter reads its fields without checking them. *)
Definition all_sources_failing (W : World) : Prop :=
  (forall address functionName args, chain W address functionName args = None)
  /\ (forall url, failing no_usd (coingecko W url))
  /\ (forall url, failing no_ticker_price (binance_ticker W url))
  /\ (forall url, unavailable (binance_premiumIndex W url))
  /\ (forall url, failing no_tickers (bybit_tickers W url))
  /\ (forall url, failing no_rows (okx_fundingRate W url)).

Section Urls.

Variable P : Provider.

Definition binance_funding_url (symbol : string) : string :=
  binance (OracleConfig.cexApis (config P)) ++ "/premiumIndex?symbol=" ++ symbol ++ "USDT".

Definition bybit_funding_url (symbol : string) : string :=
  bybit (OracleConfig.cexApis (config P)) ++ "/market/tickers?category=linear&symbol="
    ++ symbol ++ "USDT".

Definition okx_funding_url (symbol : string) : string :=
  okx (OracleConfig.cexApis (config P)) ++ "/public/funding-rate?instId="
    ++ symbol ++ "-USDT-SWAP".

End Urls.

Definition log_error (t : string) (symbol : string) (e : Error) : LogEntry :=
  {| level := LError; text := t; about := symbol; cause := Some e |}.

(** The three exchanges answering, except the one that is [down]
    (0 Binance, 1 Bybit, 2 OKX), which returns 503. *)
Module DemoFunding.

Definition premium : PremiumIndexBody :=
  {| lastFundingRate := Some "0.0001"; pi_nextFundingTime := Some "1700003600000" |}.

Definition ticker : BybitTicker :=
  {| by_fundingRate := Some "0.00005"; by_nextFundingTime := Some "1700028800000" |}.

Definition row : OkxRow :=
  {| ox_fundingRate := Some "-0.00025"; ox_fundingTime := Some "1700000000000";
     ox_nextFundingTime := Some "1700028800000" |}.

Definition W (down : nat) : World :=
  {| chain := fun _ _ _ => None;
     coingecko := fun _ => None;
     binance_ticker := fun _ => None;
     binance_premiumIndex := fun _ =>
       if Nat.eqb down 0 then Some {| ok := false; body := None |}
       else Some {| ok := true; body := Some premium |};
     bybit_tickers := fun _ =>
       if Nat.eqb down 1 then Some {| ok := false; body := None |}
       else Some {| ok := true; body := Some {| result_list := Some [ticker] |} |};
     okx_fundingRate := fun _ =>
       if Nat.eqb down 2 then Some {| ok := false; body := None |}
       else Some {| ok := true; body := Some {| ox_data := Some [row] |} |};
     latency := fun r =>
       match r with
       | Fetch url => if String.prefix "https://fapi.binance.com" url then 120%N else 80%N
       | _ => 80%N
       end |}.

End DemoFunding.

(** Binance answering 200 with a JSON object that has no funding fields
    (its error bodies look like that); Bybit and OKX unreachable. *)
Module DemoMissingField.

Definition W : World :=
  {| chain := fun _ _ _ => None;
     coingecko := fun _ => None;
     binance_ticker := fun _ => None;
     binance_premiumIndex := fun _ =>
       Some {| ok := true;
               body := Some {| lastFundingRate := None; pi_nextFundingTime := None |} |};
     bybit_tickers := fun _ => None;
     okx_fundingRate := fun _ => None;
     latency := fun _ => 100%N |}.

End DemoMissingField.

(** The guard on the cache survives the step from [s] to [s']. *)
Definition guard_kept : State -> State -> Prop :=
  fun s s' => cache_guarded s -> cache_guarded s'.

Arguments non_null : simpl never.

(** Every source failing, each in its own way. *)
Module DemoFaults.

Definition W : World :=
  {| chain := fun _ _ _ => None;
     coingecko := fun _ => Some {| ok := true; body := Some [] |};
     binance_ticker := fun _ => Some {| ok := false; body := None |};
     binance_premiumIndex := fun _ => Some {| ok := true; body := None |};
     bybit_tickers := fun _ =>
       Some {| ok := true; body := Some {| result_list := Some [] |} |};
     okx_fundingRate := fun _ => None;
     latency := fun _ => 100%N |}.

End DemoFaults.

(** One fault of each kind on both sides. Prices: chain reads rejected,
    CoinGecko answering 500, Binance's ticker answering 200 with a JSON
    object that has no [price]. Funding: Binance answering 503, OKX's fetch
    rejected, Bybit answering 200 with [{"result":{"list":[{}]}}]: a first
    row that has neither [fundingRate] nor [nextFundingTime]. *)
Module DemoMalformed.

Definition W : World :=
  {| chain := fun _ _ _ => None;
     coingecko := fun _ => Some {| ok := false; body := None |};
     binance_ticker := fun _ => Some {| ok := true; body := Some {| tk_price := None |} |};
     binance_premiumIndex := fun _ => Some {| ok := false; body := None |};
     bybit_tickers := fun _ =>
       Some {| ok := true;
               body := Some {| result_list :=
                                 Some [{| by_fundingRate := None;
                                          by_nextFundingTime := None |}] |} |};
     okx_fundingRate := fun _ => None;
     latency := fun _ => 100%N |}.

End DemoMalformed.

(** ** The legacy cascade, as the specification words it

    Three levels tried in turn, each yielding a price or nothing; the first
    price wins, and with no price the method throws. *)

Section LegacyLevels.

Variable P : Provider.
Variable W : World.

Definition level_api3 (symbol : string) : M (option number) :=
  try_catch
    (api3Price ← getAPI3Price P W symbol;
     if positive_number api3Price
     then elizaLogger LLog "YEI API3 price for" symbol None;; mret (Some api3Price)
     else mret None)
    (fun error =>
       elizaLogger LError "YEI API3 price fetch failed for" symbol (Some error);;
       mret None).

Definition level_pyth (symbol : string) : M (option number) :=
  try_catch
    (pythPrice ← getPythPrice P W symbol;
     match pythPrice with
     | Some q =>
         if gtb (PriceFeed.price q) zero
         then elizaLogger LLog "YEI Pyth price for" symbol None;;
              mret (Some (PriceFeed.price q))
         else mret None
     | None => mret None
     end)
    (fun error =>
       elizaLogger LError "YEI Pyth price fetch failed for" symbol (Some error);;
       mret None).

Definition level_redstone (symbol : string) : M (option number) :=
  try_catch
    (redstonePrice ← getRedstonePrice P W symbol;
     if positive_number redstonePrice
     then elizaLogger LLog "YEI Redstone price for" symbol None;; mret (Some redstonePrice)
     else mret None)
    (fun error =>
       elizaLogger LError "YEI Redstone price fetch failed for" symbol (Some error);;
       mret None).

Definition levels (symbol : string) : list (M (option number)) :=
  [level_api3 symbol; level_pyth symbol; level_redstone symbol].

Fixpoint first_level (ls : list (M (option number))) : M (option number) :=
  match ls with
  | [] => mret None
  | l :: rest =>
      r ← l;
      match r with
      | Some _ => mret r
      | None => first_level rest
      end
  end.

Definition getYeiPrice_spec (symbol : string) : M number :=
  r ← first_level (levels symbol);
  match r with
  | Some p => mret p
  | None => throw (Raised "All YEI oracle sources failed for" symbol)
  end.

End LegacyLevels.

(** C6 as the specification states it: at each of the three levels an
    observation more than one hour old when the call starts is not accepted. *)
Definition every_legacy_level_checks_freshness : Prop :=
  forall P W symbol s,
    (forall dApiId value stamp,
        Str.prop dApiIds (Str.toUpperCase symbol) = Some dApiId ->
        chain W (api3ContractAddress (yeiConfig P)) "readDataFeed" [dApiId]
          = Some [value; stamp] ->
        clock s / 1000 - stamp > 3600 ->
        fst (level_api3 P W symbol s) = Return None)
    /\ (forall feedId price conf expo publishTime,
        Str.prop (OracleConfig.pythPriceFeeds (config P)) symbol = Some feedId ->
        chain W pythAddress "getPriceUnsafe" [feedId]
          = Some [price; conf; expo; publishTime] ->
        clock s / 1000 - publishTime > 3600 ->
        fst (level_pyth P W symbol s) = Return None)
    /\ (forall price timestamp,
        chain W (redstoneContractAddress (yeiConfig P)) "getLatestRoundData"
          [stringToBytes32 (symbol ++ "/USD")] = Some [price; timestamp] ->
        clock s / 1000 - timestamp > 3600 ->
        fst (level_redstone P W symbol s) = Return None).

(** API3 unreachable; Pyth reporting 3000.00000000 (expo -8) published at
    epoch second 0; Redstone reporting 1.00000000 at epoch second 0. *)
Module DemoLegacy.

Definition W : World :=
  {| chain := fun _ functionName _ =>
       if String.eqb functionName "getPriceUnsafe"
       then Some [300000000000; 150000000; -8; 0]
       else if String.eqb functionName "getLatestRoundData"
       then Some [100000000; 0]
       else None;
     coingecko := fun _ => None;
     binance_ticker := fun _ => None;
     binance_premiumIndex := fun _ => None;
     bybit_tickers := fun _ => None;
     okx_fundingRate := fun _ => None;
     latency := fun _ => 100%N |}.

Definition ethFeed : string :=
  "0xff61491a931112ddf1bd8147cd1b641375f79f5825126d665480874634fd0ace".

End DemoLegacy.

Arguments positive_number : simpl never.
Arguments valid_price : simpl never.

(** API3 reporting 3000 (18 decimals) with the given time stamp. *)
Module DemoApi3.

Definition W (stamp : Z) : World :=
  {| chain := fun _ functionName _ =>
       if String.eqb functionName "readDataFeed"
       then Some [3000 * 10 ^ 18; stamp] else None;
     coingecko := fun _ => None;
     binance_ticker := fun _ => None;
     binance_premiumIndex := fun _ => None;
     bybit_tickers := fun _ => None;
     okx_fundingRate := fun _ => None;
     latency := fun _ => 100%N |}.

Definition api3 : string := "0x2880aB155794e7179c9eE2e38200202908C17B43".

End DemoApi3.


(** The quotes whose [timestamp] is [Date.now()] at the end of the fetch. *)
Definition stamped_on_arrival (q : PriceFeed.t) : bool :=
  Str.includes ["CoinGecko"; "yei-legacy-oracle"; "Binance"] (PriceFeed.source q).


(** A run of waits, the services answering as [fst] during each. *)
Definition waits (P : Provider) (ws : list (World * Z)) (s : State) : State :=
  fold_left (fun st wd => elapse P (fst wd) (snd wd) st) ws s.

(** ** The provider's text interface: more built-ins *)

Module Text.

(** [String.prototype.toLowerCase] on the ASCII range. *)
Definition lower_ascii (c : ascii) : ascii :=
  if (65 <=? Str.code c) && (Str.code c <=? 90)
  then ascii_of_nat (nat_of_ascii c + 32) else c.

Fixpoint toLowerCase (s : string) : string :=
  match s with
  | EmptyString => EmptyString
  | String c r => String (lower_ascii c) (toLowerCase r)
  end.

(** [s.includes(sub)]: [sub] occurs somewhere in [s]. *)
Fixpoint includes (s sub : string) : bool :=
  String.prefix sub s
  || match s with
     | EmptyString => false
     | String _ r => includes r sub
     end.

(** Text within the ASCII range, where the case mappings above are those
    of JavaScript. *)
Fixpoint is_ascii (s : string) : bool :=
  match s with
  | EmptyString => true
  | String c r => (Str.code c <? 128) && is_ascii r
  end.

(** [l.join(sep)] *)
Fixpoint join (sep : string) (l : list string) : string :=
  match l with
  | [] => EmptyString
  | [x] => x
  | x :: r => x ++ sep ++ join sep r
  end.

End Text.

Arguments Text.toLowerCase : simpl never.
Arguments Text.includes : simpl never.

(** The tickers [extractSymbols] looks for. *)
Definition querySymbols : list string := ["BTC"; "ETH"; "SEI"; "USDC"; "SOL"; "AVAX"].

Definition extractSymbols (text : string) : list string :=
  List.filter (fun symbol => Text.includes (Str.toUpperCase text) symbol) querySymbols.

(** Decoding of [Buffer.toString('hex')]: two hex digits to a byte. *)
Fixpoint unhex (h : string) : option string :=
  match h with
  | EmptyString => Some EmptyString
  | String a (String b r) =>
      match Str.digit 16 a, Str.digit 16 b, unhex r with
      | Some x, Some y, Some s => Some (String (ascii_of_nat (Z.to_nat (16 * x + y))) s)
      | _, _, _ => None
      end
  | String _ EmptyString => None
  end.

(** [n] NUL bytes. *)
Fixpoint nuls (n : nat) : string :=
  match n with O => EmptyString | S k => String Ascii.zero (nuls k) end.

(** ** Shapes of what the caches hold *)

(** The source names of the five adapters; confidence is fixed for four of
    them, and read from the feed for Pyth. *)
Definition labelled (q : PriceFeed.t) : Prop :=
  In (PriceFeed.source q, PriceFeed.confidence q)
    [ ("YEI Multi-Oracle", of_decimal false 98 (-2));
      ("CoinGecko", of_decimal false 95 (-2));
      ("yei-legacy-oracle", of_decimal false 95 (-2));
      ("Binance", of_decimal false 95 (-2)) ]
  \/ PriceFeed.source q = "pyth".

(** A Pyth quote needs a feed id under the symbol as spelled, a Binance
    quote a symbol on the exchange list as spelled. *)
Definition eligible (P : Provider) (symbol : string) (q : PriceFeed.t) : Prop :=
  (PriceFeed.source q = "pyth" ->
   Str.prop (OracleConfig.pythPriceFeeds (config P)) symbol <> None)
  /\ (PriceFeed.source q = "Binance" -> Str.includes cexSupportedSymbols symbol = true).

Definition quote_for (P : Provider) (symbol : string) (q : PriceFeed.t) : Prop :=
  PriceFeed.symbol q = symbol /\ labelled q /\ eligible P symbol q.

Definition cache_keyed (P : Provider) (s : State) : Prop :=
  forall k q, priceCache s !! k = Some q -> quote_for P k q.

Definition keyed_kept (P : Provider) : State -> State -> Prop :=
  fun s s' => cache_keyed P s -> cache_keyed P s'.

(** A list of funding rates for [symbol]: at most one entry per exchange,
    in the order Binance, Bybit, OKX. *)
Definition rates_for (symbol : string) (rates : list FundingRate.t) : Prop :=
  sublist (map FundingRate.exchange rates) ["Binance"; "Bybit"; "OKX"]
  /\ Forall (fun r => FundingRate.symbol r = symbol) rates.

Definition rates_keyed (s : State) : Prop :=
  forall k rates, fundingRateCache s !! k = Some rates -> rates <> [] /\ rates_for k rates.

Definition rates_kept : State -> State -> Prop :=
  fun s s' => rates_keyed s -> rates_keyed s'.

(** ** The upstream traffic of a call *)

(** The requests a computation adds to the trace form, in order, a
    sub-sequence of [plan]. *)
Definition emits {A : Type} (plan : list Request) (m : M A) : Prop :=
  forall s, exists sent,
    requests (snd (m s)) = (requests s ++ sent)%list
    /\ sublist (map snd sent) plan.

Section Plans.

Variable P : Provider.

(** The one request each adapter can send for [symbol], if any. *)
Definition plan_multiOracle (symbol : string) : list Request :=
  match truthy_string (Str.prop (yeiMultiOracleAddresses P) (Str.toUpperCase symbol)) with
  | Some oracleAddress => [ReadContract oracleAddress "getLatestPrice" []]
  | None => []
  end.

Definition plan_coinGecko (symbol : string) : list Request :=
  match Str.prop coinGeckoIds (Str.toUpperCase symbol) with
  | Some coinId =>
      [Fetch ("https://api.coingecko.com/api/v3/simple/price?ids=" ++ coinId
                ++ "&vs_currencies=usd")]
  | None => []
  end.

Definition plan_api3 (symbol : string) : list Request :=
  match Str.prop dApiIds (Str.toUpperCase symbol) with
  | Some dApiId => [ReadContract (api3ContractAddress (yeiConfig P)) "readDataFeed" [dApiId]]
  | None => []
  end.

Definition plan_pyth (symbol : string) : list Request :=
  match Str.prop (OracleConfig.pythPriceFeeds (config P)) symbol with
  | Some feedId => [ReadContract pythAddress "getPriceUnsafe" [feedId]]
  | None => []
  end.

Definition plan_redstone (symbol : string) : list Request :=
  if Str.includes ["USDT"; "USDC"] symbol
  then [ReadContract (redstoneContractAddress (yeiConfig P)) "getLatestRoundData"
          [stringToBytes32 (symbol ++ "/USD")]]
  else [].

Definition plan_legacy (symbol : string) : list Request :=
  if Str.includes yeiSupportedSymbols (Str.toUpperCase symbol)
  then (plan_api3 symbol ++ plan_pyth symbol ++ plan_redstone symbol)%list
  else [].

Definition plan_cex (symbol : string) : list Request :=
  if Str.includes cexSupportedSymbols symbol
  then [Fetch (binance (OracleConfig.cexApis (config P)) ++ "/ticker/price?symbol="
                 ++ symbol ++ "USDT")]
  else [].

Definition plan_getPrice (symbol : string) : list Request :=
  (plan_multiOracle symbol ++ plan_coinGecko symbol ++ plan_legacy symbol
     ++ plan_pyth symbol ++ plan_cex symbol)%list.

End Plans.
(** ** Numbers to text *)

Module Fmt.

(** The decimal numeral of a natural number; [fuel] bounds its length. *)
Fixpoint numeral (fuel : nat) (n : Z) (acc : string) : string :=
  match fuel with
  | O => acc
  | S f =>
      let acc' := String (ascii_of_nat (48 + Z.to_nat (n mod 10))) acc in
      if n <? 10 then acc' else numeral f (n / 10) acc'
  end.

Definition decimal (n : Z) : string :=
  numeral (S (Z.to_nat (Z.log2 n))) n EmptyString.

Fixpoint take (n : nat) (s : string) : string :=
  match n, s with
  | S k, String c r => String c (take k r)
  | _, _ => EmptyString
  end.

Fixpoint drop (n : nat) (s : string) : string :=
  match n, s with
  | S k, String _ r => drop k r
  | _, _ => s
  end.

(** A positive finite number [m * 2^e] over a power of ten, as a fraction
    of two positive integers: [m * 2^e / 10^p]. *)
Definition scaled (m : positive) (e p : Z) : Z * Z :=
  (Zpos m * 2 ^ Z.max e 0 * 10 ^ Z.max (- p) 0,
   2 ^ Z.max (- e) 0 * 10 ^ Z.max p 0).

(** [Number.prototype.toFixed(f)], steps 8 to 12: the integer [n] with
    [n / 10^f] nearest to [m * 2^e], the larger one of two. *)
Definition nearest_larger (m : positive) (e : Z) (f : nat) : Z :=
  let '(N, D) := scaled m e (- Z.of_nat f) in
  (2 * N + D) / (2 * D).

(** The numeral of [n] with a point before its last [f] digits. *)
Definition pointed (f : nat) (n : Z) : string :=
  let m := decimal n in
  match f with
  | O => m
  | _ =>
      let k := String.length m in
      let m := if (k <=? f)%nat then Str.zeros (f + 1 - k) ++ m else m in
      let k := String.length m in
      take (k - f) m ++ "." ++ drop (k - f) m
  end.

(** [n] with [10^(n-1) <= m * 2^e < 10^n]. *)
Definition magnitude (m : positive) (e : Z) : Z :=
  let '(N, D) := scaled m e 0 in
  if D <=? N then Z.of_nat (String.length (decimal (N / D)))
  else
    let d := Z.of_nat (String.length (decimal (D / N))) in
    if D <=? N * 10 ^ (d - 1) then 2 - d else 1 - d.

(** The candidates with [k] digits for [x = m * 2^e] of magnitude [n]:
    the multiples of [10^(n-k)] just below and just above [x]. The one that
    converts back to [x] is taken, the nearer one of two, the even one of
    two equally near. *)
Definition candidate (x : number) (m : positive) (e n : Z) (k : Z) : option (Z * Z) :=
  let p := n - k in
  let '(N, D) := scaled m e p in
  let lo := N / D in
  let hi := lo + 1 in
  let back s := SFeqb (of_decimal false s p) x in
  let up := if hi =? 10 ^ k then (10 ^ (k - 1), n + 1) else (hi, n) in
  match back lo, back hi with
  | true, true =>
      match 2 * (N mod D) ?= D with
      | Lt => Some (lo, n)
      | Gt => Some up
      | Eq => if Z.even lo then Some (lo, n) else Some up
      end
  | true, false => Some (lo, n)
  | false, true => Some up
  | false, false => None
  end.

(** The shortest digits: the least [k] from [k] on that has a candidate. *)
Fixpoint shortest (fuel : nat) (x : number) (m : positive) (e n : Z) (k : Z) : Z * Z * Z :=
  match candidate x m e n k, fuel with
  | Some (s, n'), _ => (s, k, n')
  | None, S f => shortest f x m e n (k + 1)
  | None, O => (fst (scaled m e (n - k)) / snd (scaled m e (n - k)), k, n)
  end.

(** [Number::toString(x)] in radix 10 for [x = m * 2^e > 0]. *)
Definition positive_toString (x : number) (m : positive) (e : Z) : string :=
  let '(s, k, n) := shortest 16 x m e (magnitude m e) 1 in
  let ds := decimal s in
  if (k <=? n) && (n <=? 21) then ds ++ Str.zeros (Z.to_nat (n - k))
  else if (0 <? n) && (n <=? 21) then take (Z.to_nat n) ds ++ "." ++ drop (Z.to_nat n) ds
  else if (-6 <? n) && (n <=? 0) then "0." ++ Str.zeros (Z.to_nat (- n)) ++ ds
  else
    let exponent := (if n - 1 <? 0 then "-" else "+") ++ decimal (Z.abs (n - 1)) in
    if k =? 1 then ds ++ "e" ++ exponent
    else take 1 ds ++ "." ++ drop 1 ds ++ "e" ++ exponent.

Definition toString (x : number) : string :=
  match x with
  | S754_nan => "NaN"
  | S754_zero _ => "0"
  | S754_infinity sx => if sx then "-Infinity" else "Infinity"
  | S754_finite sx m e =>
      (if sx then "-" else "") ++ positive_toString (S754_finite false m e) m e
  end.

(** [x.toFixed(f)] *)
Definition toFixed (f : nat) (x : number) : string :=
  match x with
  | S754_finite sx m e =>
      let '(N, D) := scaled m e 0 in
      if 10 ^ 21 * D <=? N then toString x
      else (if sx then "-" else "") ++ pointed f (nearest_larger m e f)
  | S754_zero _ => pointed f 0
  | _ => toString x
  end.

End Fmt.

Arguments Fmt.toFixed : simpl never.
Arguments Fmt.toString : simpl never.

(** ** The provider's text interface *)

Definition newline : string := String (ascii_of_nat 10) EmptyString.

Definition description : string :=
  "SEI Oracle Provider: Real-time price data and funding rates for assets on the SEI blockchain using Pyth, Chainlink, and CEX APIs.".

Definition no_price_data : string := "No price data available for the requested symbols.".

Definition no_funding_data : string := "No funding rate data available.".

(** [`${p.symbol}: $${p.price.toFixed(4)} (${p.source})`] *)
Definition price_line (p : PriceFeed.t) : string :=
  PriceFeed.symbol p ++ ": $" ++ Fmt.toFixed 4 (PriceFeed.price p)
    ++ " (" ++ PriceFeed.source p ++ ")".

(** [`${r.exchange}: ${(r.rate * 100).toFixed(4)}%`] *)
Definition rate_text (r : FundingRate.t) : string :=
  FundingRate.exchange r ++ ": " ++ Fmt.toFixed 4 (mul (FundingRate.rate r) (of_Z 100)) ++ "%".

(** [`${symbol}: ${ratesText}`] *)
Definition rates_line (symbol : string) (rates : list FundingRate.t) : string :=
  symbol ++ ": " ++ Text.join ", " (map rate_text rates).

Section Queries.

Variable P : Provider.
Variable W : World.

(** The [for ... of] loop of [handlePriceQuery]: one awaited [getPrice]
    after the other, the quotes pushed onto [prices]. *)
Fixpoint collectPrices (symbols : list string) (prices : list PriceFeed.t)
  : M (list PriceFeed.t) :=
  match symbols with
  | [] => mret prices
  | symbol :: rest =>
      price ← getPrice P W symbol;
      collectPrices rest
        (match price with
         | Some p => (prices ++ [p])%list
         | None => prices
         end)
  end.

Definition handlePriceQuery (text : string) : M string :=
  let symbols := extractSymbols text in
  prices ← collectPrices symbols [];
  if (length prices =? 0)%nat then mret no_price_data
  else mret (Text.join newline (map price_line prices)).

(** The loop of [handleFundingRateQuery]. *)
Fixpoint collectFunding (symbols : list string) (fundingData : list string)
  : M (list string) :=
  match symbols with
  | [] => mret fundingData
  | symbol :: rest =>
      rates ← getFundingRates P W symbol;
      collectFunding rest
        (if (0 <? length rates)%nat
         then (fundingData ++ [rates_line symbol rates])%list
         else fundingData)
  end.

Definition handleFundingRateQuery (text : string) : M string :=
  let symbols := extractSymbols text in
  fundingData ← collectFunding symbols [];
  if (0 <? length fundingData)%nat then mret (Text.join newline fundingData)
  else mret no_funding_data.

(** [get(runtime, message, state)], over [message?.content?.text]. *)
Definition get (messageText : option string) : M (option string) :=
  try_catch
    (match messageText with
     | None | Some EmptyString => mret (Some description)
     | Some raw =>
         let text := Text.toLowerCase raw in
         if Text.includes text "price" || Text.includes text "quote" then
           answer ← handlePriceQuery text;
           mret (Some answer)
         else if Text.includes text "funding" || Text.includes text "rate" then
           answer ← handleFundingRateQuery text;
           mret (Some answer)
         else mret None
     end)
    (fun error =>
       elizaLogger LError "Oracle provider error:" "" (Some error);;
       mret None).

End Queries.

(** The calls of a loop [for (const symbol of symbols) { await call(symbol) }]:
    each symbol with the state in which its call starts, which is the state
    that the call before it left. *)
Fixpoint turns {A : Type} (call : string -> M A) (symbols : list string) (s : State)
  : list (string * State) :=
  match symbols with
  | [] => []
  | symbol :: rest => (symbol, s) :: turns call rest (snd (call symbol s))
  end.


(** What the call of a turn returned: the list of rates. *)
Definition rates_of (P : Provider) (W : World) (turn : string * State) : list FundingRate.t :=
  match fst (getFundingRates P W (fst turn) (snd turn)) with
  | Return rates => rates
  | Throw _ => []
  end.

(** The line of the answer for a turn, if its call returned any rate. *)
Definition rates_line_of (P : Provider) (W : World) (turn : string * State) : option string :=
  let rates := rates_of P W turn in
  if (0 <? length rates)%nat then Some (rates_line (fst turn) rates) else None.

(** ** The module's single instance *)

(** [networkMap[network] || "testnet"] *)
Definition chainKey (network : string) : string :=
  match Str.prop [("sei-mainnet", "mainnet"); ("sei-testnet", "testnet")] network with
  | Some key => key
  | None => "testnet"
  end.

(** [new SeiOracleProvider(runtime)] with the line it logs. *)
Definition construct (getSetting : string -> option string) : M Provider :=
  let network := or_default (getSetting "SEI_NETWORK") "sei-testnet" in
  elizaLogger LInfo "SeiOracleProvider: Configured for"
    (network ++ " (chain: " ++ chainKey network ++ ")") None;;
  mret (new_SeiOracleProvider getSetting).

(** The module: [oracleInstance], with its fields and the runtime in
    [plugin_state]. *)
Record Plugin : Type := {
  oracleInstance : option Provider;
  plugin_state : State
}.

Definition loaded (now : Z) : Plugin :=
  {| oracleInstance := None; plugin_state := initial now |}.

(** [oracleProvider.get(runtime, message, state)] *)
Definition oracleProvider_get (getSetting : string -> option string) (W : World)
  (messageText : option string) (g : Plugin) : Outcome (option string) * Plugin :=
  match oracleInstance g with
  | Some instance =>
      let '(r, s) := get instance W messageText (plugin_state g) in
      (r, {| oracleInstance := Some instance; plugin_state := s |})
  | None =>
      match construct getSetting (plugin_state g) with
      | (Throw e, s) => (Throw e, {| oracleInstance := None; plugin_state := s |})
      | (Return instance, s0) =>
          let '(r, s) :=
            (startPriceUpdates instance;;
             elizaLogger LInfo "SEI Oracle Provider initialized and price updates started"
               "" None;;
             get instance W messageText) s0 in
          (r, {| oracleInstance := Some instance; plugin_state := s |})
      end
  end.

(** What can happen to the loaded module: the agent asks the provider,
    with whatever runtime and message, and time passes. *)
Inductive PluginCall : Type :=
| AskProvider (getSetting : string -> option string) (messageText : option string)
| Idle (dt : Z).

Definition plugin_step (W : World) (c : PluginCall) (g : Plugin) : Plugin :=
  match c with
  | AskProvider getSetting messageText => snd (oracleProvider_get getSetting W messageText g)
  | Idle dt =>
      match oracleInstance g with
      | Some instance =>
          {| oracleInstance := Some instance;
             plugin_state := elapse instance W dt (plugin_state g) |}
      | None =>
          {| oracleInstance := None;
             plugin_state :=
               set_clock (Z.max (clock (plugin_state g)) (clock (plugin_state g) + dt))
                 (plugin_state g) |}
      end
  end.

Inductive plugin_reachable : Plugin -> Prop :=
| plugin_loaded (now : Z) : plugin_reachable (loaded now)
| plugin_next (g : Plugin) (W : World) (c : PluginCall) :
    plugin_reachable g -> plugin_reachable (plugin_step W c g).

(** The refresh of the module's instance: one live timer, the one the
    instance holds, ticking every 30 seconds. *)
Definition refreshing (s : State) : Prop :=
  exists t, timers s = [t] /\ updateInterval s = Some (handle t) /\ period t = 30000.

Definition plugin_inv (g : Plugin) : Prop :=
  match oracleInstance g with
  | Some instance =>
      (exists getSetting, instance = new_SeiOracleProvider getSetting)
      /\ refreshing (plugin_state g)
  | None =>
      timers (plugin_state g) = [] /\ updateInterval (plugin_state g) = None
      /\ requests (plugin_state g) = [] /\ logs (plugin_state g) = []
  end.

(** ** The pace of a call *)

(** Requests sent one after the other from time [t] on, each when the
    reply to the one before has arrived; [t'] is when the last reply
    arrives. *)
Fixpoint chained (W : World) (t : Z) (sent : list (Z * Request)) (t' : Z) : Prop :=
  match sent with
  | [] => t' = t
  | (at_, r) :: rest => at_ = t /\ chained W (t + Z.of_N (latency W r)) rest t'
  end.

(** A computation whose requests are chained, and that takes no other time. *)
Definition paced {A : Type} (W : World) (m : M A) : Prop :=
  forall s, exists sent,
    requests (snd (m s)) = (requests s ++ sent)%list
    /\ chained W (clock s) sent (clock (snd (m s))).

(** The time the round trips of [sent] take together. *)
Definition round_trips (W : World) (sent : list (Z * Request)) : Z :=
  fold_right (fun x acc => Z.of_N (latency W (snd x)) + acc) 0 sent.

(** The entries of both caches under one key. *)
Definition entries_at (k : string) (s : State)
  : option PriceFeed.t * option (list FundingRate.t) :=
  (priceCache s !! k, fundingRateCache s !! k).

(** ** The price-query action ([src/actions/price-query.ts]) *)

Module PriceQuery.

(** [words.some(w => content.includes(w))] *)
Definition mentions (content : string) (words : list string) : bool :=
  existsb (fun w => Text.includes content w) words.

Definition priceKeywords : list string :=
  [ "price of"; "price for"; "current price"; "how much is";
    "what is the price"; "what's the price"; "whats the price";
    "sei price"; "btc price"; "eth price"; "usdc price";
    "trading at"; "worth"; "value of"; "quote" ].

Definition cryptoSymbols : list string :=
  ["sei"; "btc"; "eth"; "usdc"; "usdt"; "sol"; "avax"; "atom"].

Definition contextWords : list string :=
  ["price"; "cost"; "worth"; "value"; "trading"; "quote"].

(** [validate], over [message.content?.text]. *)
Definition validate (messageText : option string) : bool :=
  let content :=
    match messageText with
    | Some text => Text.toLowerCase text
    | None => ""
    end in
  let hasKeyword := mentions content priceKeywords in
  let mentionsSymbol := mentions content cryptoSymbols in
  let hasContext := mentions content contextWords in
  hasKeyword || (mentionsSymbol && hasContext).

Definition knownSymbols : list string :=
  ["BTC"; "ETH"; "SEI"; "USDC"; "USDT"; "SOL"; "AVAX"; "ATOM"; "DAI"].

(** [\w] *)
Definition is_word (c : ascii) : bool :=
  let n := Str.code c in
  ((48 <=? n) && (n <=? 57)) || ((65 <=? n) && (n <=? 90))
  || ((97 <=? n) && (n <=? 122)) || (n =? 95).

(** [[/\s,.]] *)
Definition is_separator (c : ascii) : bool :=
  (Str.code c =? 47) || Str.is_ws c || (Str.code c =? 44) || (Str.code c =? 46).

Definition word_at (c : option ascii) : bool :=
  match c with Some x => is_word x | None => false end.

(** [\b] between two neighbouring characters, either of which may be
    missing at an end of the text. *)
Definition boundary (left right : option ascii) : bool := xorb (word_at left) (word_at right).

Definition head (s : string) : option ascii :=
  match s with String c _ => Some c | EmptyString => None end.

Fixpoint last (before : option ascii) (s : string) : option ascii :=
  match s with String c r => last (Some c) r | EmptyString => before end.

(** The literal [symbol] at the start of [s] under the [i] flag; the rest
    of [s] after it. *)
Fixpoint literal (symbol s : string) : option string :=
  match symbol, s with
  | EmptyString, _ => Some s
  | String a symbol', String b s' =>
      if Ascii.eqb (Str.upper_ascii a) (Str.upper_ascii b) then literal symbol' s' else None
  | String _ _, EmptyString => None
  end.

(** A match of [\bSYMBOL\b|SYMBOL[/\s,.]] that starts at the beginning of
    [s], the character before [s] being [before]. *)
Definition matches_here (symbol : string) (before : option ascii) (s : string) : bool :=
  match literal symbol s with
  | Some rest =>
      (boundary before (head s) && boundary (last before symbol) (head rest))
      || match head rest with Some c => is_separator c | None => false end
  | None => false
  end.

(** [regex.test(s)]: a match starting anywhere. *)
Fixpoint test (symbol : string) (before : option ascii) (s : string) : bool :=
  matches_here symbol before s
  || match s with
     | String c r => test symbol (Some c) r
     | EmptyString => false
     end.

(** The condition of the pattern on what is before and after the ticker. *)
Definition delimited (symbol : string) (before : option ascii) (a b : string) : bool :=
  (boundary (last before a) (head (symbol ++ b))
   && boundary (last (last before a) symbol)
        (head b))
  || match head b with
     | Some c => is_separator c
     | None => false
     end.

(** [[...new Set(l)]] *)
Fixpoint unique (l : list string) : list string :=
  match l with
  | [] => []
  | x :: r => x :: List.filter (fun y => negb (String.eqb x y)) (unique r)
  end.

Definition extractSymbols (text : string) : list string :=
  let normalizedText := Str.toUpperCase text in
  let foundSymbols := List.filter (fun symbol => test symbol None normalizedText) knownSymbols in
  unique foundSymbols.

End PriceQuery.

(** ** Binary64 on safe integers *)

(** [p * 2^k] for [k >= 0]. *)
Definition shl (p : positive) (k : Z) : positive :=
  match k with Zpos d => Pos.iter xO p d | _ => p end.

(** The representation of the positive integer [p < 2^53]. *)
Definition canon (sx : bool) (p : positive) : number :=
  S754_finite sx (shl p (53 - Zpos (digits2_pos p))) (Zpos (digits2_pos p) - 53).

(** The symbols the timer refreshes. *)
Definition majors : list string := ["BTC"; "ETH"; "SEI"].

(** CoinGecko quoting the three majors and the three exchanges answering;
    the chain unreachable. *)
Module DemoAll.

Definition payload : CoinGeckoBody :=
  [("bitcoin", Some "65000.5"); ("ethereum", Some "3000"); ("sei-network", Some "0.45")].

Definition W : World :=
  {| chain := fun _ _ _ => None;
     coingecko := fun _ => Some {| ok := true; body := Some payload |};
     binance_ticker := fun _ => None;
     binance_premiumIndex := fun _ => Some {| ok := true; body := Some DemoFunding.premium |};
     bybit_tickers := fun _ =>
       Some {| ok := true; body := Some {| result_list := Some [DemoFunding.ticker] |} |};
     okx_fundingRate := fun _ =>
       Some {| ok := true; body := Some {| ox_data := Some [DemoFunding.row] |} |};
     latency := fun _ => 100%N |}.

(** A started instance after its first tick. *)
Definition ticked : State :=
  step Demo.P0 W (Wait 30000) (step Demo.P0 W CallStartPriceUpdates (initial Demo.t0)).

End DemoAll.

(** As [DemoAll], with the multi-oracle contracts answering too: the price
    they return was observed five seconds before the first tick of an
    instance started at [Demo.t0]. *)
Module DemoPrimary.

Definition W : World :=
  {| chain := fun _ functionName _ =>
       if String.eqb functionName "getLatestPrice"
       then Some [1234567; (Demo.t0 + 25000) / 1000; 6] else None;
     coingecko := coingecko DemoAll.W;
     binance_ticker := binance_ticker DemoAll.W;
     binance_premiumIndex := binance_premiumIndex DemoAll.W;
     bybit_tickers := bybit_tickers DemoAll.W;
     okx_fundingRate := okx_fundingRate DemoAll.W;
     latency := latency DemoAll.W |}.

(** A started instance after its first tick. *)
Definition ticked : State :=
  step Demo.P0 W (Wait 30000) (step Demo.P0 W CallStartPriceUpdates (initial Demo.t0)).

End DemoPrimary.

(** ** The price-query action: its handler *)

(** [await Promise.all(ms)] for a list of [async] calls: every call starts
    at the time of the join, which completes when the last one has. The
    calls of the handler never reject; for calls that do, the join is taken
    to reject with the first rejection in the order of the list. *)
Fixpoint Promise_all_run {A : Type} (t0 : Z) (ms : list (M A)) (s : State)
  : list (Outcome A) * Z * State :=
  match ms with
  | [] => ([], t0, s)
  | m :: rest =>
      let '(r, s1) := m (set_clock t0 s) in
      let '(rs, done, s2) := Promise_all_run t0 rest s1 in
      (r :: rs, Z.max (clock s1) done, s2)
  end.

Fixpoint settle {A : Type} (rs : list (Outcome A)) : Outcome (list A) :=
  match rs with
  | [] => Return []
  | Throw e :: _ => Throw e
  | Return a :: rest =>
      match settle rest with
      | Return l => Return (a :: l)
      | Throw e => Throw e
      end
  end.

Definition Promise_all {A : Type} (ms : list (M A)) : M (list A) := fun s =>
  let '(rs, done, s') := Promise_all_run (clock s) ms s in
  (settle rs, set_clock done s').

(** The fields of a provider instance are its own: a computation on an
    instance made by [new] starts from empty caches and no timer handle, and
    leaves the fields of any other instance as they are. The runtime (clock,
    timers, requests, log) is shared. *)
Definition fresh_instance (s : State) : State :=
  {| priceCache := ∅; fundingRateCache := ∅; updateInterval := None;
     clock := clock s; timers := timers s; nextHandle := nextHandle s;
     requests := requests s; logs := logs s |}.

Definition leave_instance (outer s' : State) : State :=
  {| priceCache := priceCache outer; fundingRateCache := fundingRateCache outer;
     updateInterval := updateInterval outer;
     clock := clock s'; timers := timers s'; nextHandle := nextHandle s';
     requests := requests s'; logs := logs s' |}.

Definition on_new_instance {A : Type} (m : M A) : M A := fun s =>
  let '(r, s') := m (fresh_instance s) in (r, leave_instance s s').

(** [{ symbol, price, error }] *)
Record PriceResult : Type := {
  pr_symbol : string;
  pr_price : option PriceFeed.t;
  pr_error : option string
}.

(** [{ symbol, price, source, timestamp }] *)
Record PriceEntry : Type := {
  pe_symbol : string;
  pe_price : number;
  pe_source : string;
  pe_timestamp : number
}.

(** The [content] of a reply, in its three shapes. *)
Inductive ReplyContent : Type :=
| NoSymbolContent (text action error : string)
| PricesContent (text action : string) (prices : list PriceEntry)
| FailureContent (error action : string).

(** What the handler passes to [callback]. *)
Record Reply : Type := {
  reply_text : string;
  reply_content : ReplyContent
}.

Definition no_symbol_text : string :=
  "I couldn't identify which cryptocurrency you're asking about. Please specify a symbol like SEI, BTC, ETH, or USDC.".

Definition all_failed_text : string :=
  "I'm unable to fetch cryptocurrency prices at the moment. Please try again later.".

Definition action_failed_text : string :=
  "I encountered an error while fetching cryptocurrency prices. Please try again in a moment.".

(** [formatTimestamp] *)
Definition formatTimestamp (timestamp : number) : M string :=
  now ← Date_now;
  let diff := sub now timestamp in
  if ltb diff (of_Z 60000) then mret "just now"
  else if ltb diff (of_Z 3600000)
  then mret (Fmt.toString (Math_floor (div diff (of_Z 60000))) ++ " minutes ago")
  else if ltb diff (of_Z 86400000)
  then mret (Fmt.toString (Math_floor (div diff (of_Z 3600000))) ++ " hours ago")
  else mret (Fmt.toString (Math_floor (div diff (of_Z 86400000))) ++ " days ago").

(** [`${SYMBOL}: $${price.toFixed(4)} (${source})\n`] *)
Definition listed_line (result : PriceResult) : string :=
  match pr_price result with
  | Some p =>
      Str.toUpperCase (pr_symbol result) ++ ": $" ++ Fmt.toFixed 4 (PriceFeed.price p)
        ++ " (" ++ PriceFeed.source p ++ ")" ++ newline
  | None => ""
  end.

Definition has_price (result : PriceResult) : bool :=
  match pr_price result with Some _ => true | None => false end.

(** The text of the reply for the results of the fetches. *)
Definition formatResponse (priceResults : list PriceResult) : M string :=
  match priceResults with
  | [result] =>
      match pr_price result with
      | Some p =>
          updated ← formatTimestamp (PriceFeed.timestamp p);
          mret ("The current price of " ++ Str.toUpperCase (pr_symbol result) ++ " is $"
                  ++ Fmt.toFixed 4 (PriceFeed.price p) ++ " (Source: " ++ PriceFeed.source p
                  ++ ", updated " ++ updated ++ ")")
      | None =>
          mret ("I'm unable to fetch the current price for "
                  ++ Str.toUpperCase (pr_symbol result) ++ " at the moment. "
                  ++ match pr_error result with
                     | Some (String c r) => "Error: " ++ String c r
                     | _ => "Please try again later."
                     end)
      end
  | _ =>
      let successfulPrices := List.filter has_price priceResults in
      let failedSymbols := List.filter (fun r => negb (has_price r)) priceResults in
      if (0 <? length successfulPrices)%nat then
        mret ("Here are the current cryptocurrency prices:" ++ newline ++ newline
                ++ String.concat "" (map listed_line successfulPrices)
                ++ if (0 <? length failedSymbols)%nat
                   then newline ++ "Unable to fetch prices for: "
                          ++ Text.join ", "
                               (map (fun r => Str.toUpperCase (pr_symbol r)) failedSymbols)
                   else "")
      else mret all_failed_text
  end.

(** [priceResults.filter(r => r.price !== null).map(...)] *)
Definition price_entries (priceResults : list PriceResult) : list PriceEntry :=
  omap (fun r =>
          match pr_price r with
          | Some p =>
              Some {| pe_symbol := pr_symbol r; pe_price := PriceFeed.price p;
                      pe_source := PriceFeed.source p;
                      pe_timestamp := PriceFeed.timestamp p |}
          | None => None
          end) priceResults.

(** [message.content?.text || ''] *)
Definition content_text (messageText : option string) : string :=
  match messageText with Some text => text | None => "" end.

Definition no_symbol_reply : Reply :=
  {| reply_text := no_symbol_text;
     reply_content := NoSymbolContent no_symbol_text "PRICE_QUERY" "No symbol identified" |}.

Section PriceAction.

(** [error instanceof Error ? error.message : 'Unknown error'] *)
Variable describe : Error -> string.

Variable getSetting : string -> option string.
Variable W : World.

(** One element of [symbols.map(async (symbol) => ...)]. *)
Definition fetchOne (oracle : Provider) (symbol : string) : M PriceResult :=
  try_catch
    (price ← getPrice oracle W symbol;
     mret {| pr_symbol := symbol; pr_price := price; pr_error := None |})
    (fun error =>
       elizaLogger LError "Failed to get price for" symbol (Some error);;
       mret {| pr_symbol := symbol; pr_price := None; pr_error := Some (describe error) |}).

(** The handler, over [message.content?.text] and whether a callback was
    passed; it returns the replies handed to the callback. The callback is
    an [async] function whose promise the handler does not await: it cannot
    throw into the handler. *)
Definition priceQuery_handler (messageText : option string) (callback : bool)
  : M (list Reply) :=
  try_catch
    (elizaLogger LInfo "Price Query Action triggered" "" None;;
     oracle ← construct getSetting;
     let content := content_text messageText in
     let symbols := PriceQuery.extractSymbols content in
     if (length symbols =? 0)%nat then
       mret (if callback then [no_symbol_reply] else [])
     else
       elizaLogger LInfo "Fetching prices for symbols" (Text.join ", " symbols) None;;
       priceResults ← on_new_instance (Promise_all (map (fetchOne oracle) symbols));
       response ← formatResponse priceResults;
       elizaLogger LInfo "Price query response" response None;;
       mret (if callback
             then [{| reply_text := response;
                      reply_content :=
                        PricesContent response "PRICE_QUERY" (price_entries priceResults) |}]
             else []))
    (fun error =>
       elizaLogger LError "Error in price query action" "" (Some error);;
       mret (if callback
             then [{| reply_text := action_failed_text;
                      reply_content := FailureContent (describe error) "PRICE_QUERY" |}]
             else [])).

End PriceAction.




(** The longest of the times that chains of requests take. *)
Definition slowest (W : World) (chains : list (list (Z * Request))) : Z :=
  fold_right (fun chain acc => Z.max (round_trips W chain) acc) 0 chains.

(** A result of the handler's fetch that reports no error and whose quote,
    if any, is for its symbol and passes the guard of [getPrice]. *)
Definition answered (r : PriceResult) : Prop :=
  pr_error r = None
  /\ match pr_price r with
     | Some q => PriceFeed.symbol q = pr_symbol r /\ valid_price q = true
     | None => True
     end.

(** * Properties *)

(** ** The built-ins on concrete inputs *)

Example of_decimal_098 : of_decimal false 98 (-2) = S754_finite false 8827055269646172 (-53).
Proof. vm_compute. reflexivity. Qed.
Example of_decimal_1em8 : pow10 (-8) = S754_finite false 6044629098073146 (-79).
Proof. vm_compute. reflexivity. Qed.
Example of_decimal_1e23 : pow10 23 = S754_finite false 5960464477539062 24.
Proof. vm_compute. reflexivity. Qed.
Example of_decimal_tiny : of_decimal false 5 (-324) = S754_finite false 1 (-1074).
Proof. vm_compute. reflexivity. Qed.
Example of_decimal_big : of_decimal false 1 999 = Infinity.
Proof. vm_compute. reflexivity. Qed.
Example of_Z_big : of_Z 123456789012345678 = S754_finite false 7716049313271605 4.
Proof. vm_compute. reflexivity. Qed.
Example mul_ex : mul (of_decimal false 1 (-4)) (of_Z 8760) = S754_finite false 7890306547153109 (-53).
Proof. vm_compute. reflexivity. Qed.
Example toUpperCase_ex : Str.toUpperCase "sei" = "SEI".
Proof. reflexivity. Qed.
Example parseFloat_ex1 : Str.parseFloat (Some "0.0001") = S754_finite false 7378697629483821 (-66).
Proof. vm_compute. reflexivity. Qed.
Example parseFloat_ex2 : Str.parseFloat (Some "  -1.5e3xyz") = of_Z (-1500).
Proof. vm_compute. reflexivity. Qed.
Example parseFloat_ex3 : Str.parseFloat (Some "65000.5") = S754_finite false 8933600695156736 (-37).
Proof. vm_compute. reflexivity. Qed.
Example parseFloat_ex4 : Str.parseFloat (Some ".") = NaN /\ Str.parseFloat (Some "") = NaN
  /\ Str.parseFloat None = NaN /\ Str.parseFloat (Some "1e999") = Infinity
  /\ Str.parseFloat (Some "5.") = of_Z 5 /\ Str.parseFloat (Some "7e") = of_Z 7.
Proof. vm_compute. repeat split. Qed.
Example parseInt_ex : Str.parseInt (Some "1700000000000") = of_Z 1700000000000
  /\ Str.parseInt (Some "0x1F") = of_Z 31 /\ Str.parseInt (Some "12.9") = of_Z 12
  /\ Str.parseInt (Some "abc") = NaN /\ Str.parseInt None = NaN.
Proof. vm_compute. repeat split. Qed.
Example demo_down_SEI :
  fst (getPrice Demo.P0 Demo.down "SEI" (initial Demo.t0)) = Return None
  /\ map snd (requests (snd (getPrice Demo.P0 Demo.down "SEI" (initial Demo.t0)))) =
     [ ReadContract "0xa2aCDc40e5ebCE7f8554E66eCe6734937A48B3f3" "getLatestPrice" [];
       Fetch "https://api.coingecko.com/api/v3/simple/price?ids=sei-network&vs_currencies=usd";
       ReadContract "0x2880aB155794e7179c9eE2e38200202908C17B43" "readDataFeed"
         ["0x53614f1cb0c031d4af66c04cb9c756234adad0e1cee85303795091499a4084eb"];
       ReadContract pythAddress "getPriceUnsafe"
         ["0x53614f1cb0c031d4af66c04cb9c756234adad0e1cee85303795091499a4084eb"];
       ReadContract pythAddress "getPriceUnsafe"
         ["0x53614f1cb0c031d4af66c04cb9c756234adad0e1cee85303795091499a4084eb"];
       Fetch "https://fapi.binance.com/fapi/v1/ticker/price?symbol=SEIUSDT" ].
Proof. vm_compute. split; reflexivity. Qed.

(** ** Stability rules *)

#[global] Instance keeps_priceCache : Ambient (keeps priceCache).
Proof. split; unfold keeps; intros; simpl; congruence. Qed.

#[global] Instance keeps_fundingRateCache : Ambient (keeps fundingRateCache).
Proof. split; unfold keeps; intros; simpl; congruence. Qed.

#[global] Instance keeps_schedule : Ambient (keeps schedule).
Proof. split; unfold keeps, schedule; intros; simpl; congruence. Qed.

Section Stable.

Context (R : State -> State -> Prop) `{!Ambient R}.

Lemma stable_ret {A : Type} (a : A) : stable R (mret a).
Proof. intros s. apply amb_refl. Qed.

Lemma stable_throw {A : Type} (e : Error) : stable R (@throw A e).
Proof. intros s. apply amb_refl. Qed.

Lemma stable_bind {A B : Type} (m : M A) (f : A -> M B) :
  stable R m -> (forall a, stable R (f a)) -> stable R (m ≫= f).
Proof.
  intros Hm Hf s. unfold mbind, M_bind.
  specialize (Hm s). destruct (m s) as [[a|e] s1]; simpl in *.
  - eapply amb_trans; [exact Hm | apply Hf].
  - exact Hm.
Qed.

Lemma stable_try_catch {A : Type} (m : M A) (h : Error -> M A) :
  stable R m -> (forall e, stable R (h e)) -> stable R (try_catch m h).
Proof.
  intros Hm Hh s. unfold try_catch.
  specialize (Hm s). destruct (m s) as [[a|e] s1]; simpl in *.
  - exact Hm.
  - eapply amb_trans; [exact Hm | apply Hh].
Qed.

Lemma stable_gets {A : Type} (f : State -> A) : stable R (gets f).
Proof. intros s. apply amb_refl. Qed.

Lemma stable_Date_now : stable R Date_now.
Proof. apply stable_gets. Qed.

Lemma stable_elizaLogger l t sym c : stable R (elizaLogger l t sym c).
Proof. intros s. apply amb_log. Qed.

Lemma stable_readContract W a f args : stable R (readContract W a f args).
Proof.
  intros s. unfold readContract.
  destruct (chain W a f args); apply amb_send.
Qed.

Lemma stable_fetch {B : Type} W (service : string -> option (Response B)) url :
  stable R (fetch W service url).
Proof.
  intros s. unfold fetch. destruct (service url); apply amb_send.
Qed.

Lemma stable_json {B : Type} (r : Response B) : stable R (json r).
Proof. unfold json. destruct (body r); [apply stable_ret | apply stable_throw]. Qed.

Lemma stable_Promise_all3 {A : Type} (a b c : M A) :
  stable R a -> stable R b -> stable R c -> stable R (Promise_all3 a b c).
Proof.
  intros Ha Hb Hc s. unfold Promise_all3.
  specialize (Ha s). destruct (a s) as [ra sa].
  specialize (Hb (set_clock (clock s) sa)).
  destruct (b (set_clock (clock s) sa)) as [rb sb].
  specialize (Hc (set_clock (clock s) sb)).
  destruct (c (set_clock (clock s) sb)) as [rc sc].
  simpl in *.
  assert (R s (set_clock (Z.max (clock sa) (Z.max (clock sb) (clock sc))) sc)) as H.
  { eapply amb_trans; [exact Ha|]. eapply amb_trans; [apply amb_clock|].
    eapply amb_trans; [exact Hb|]. eapply amb_trans; [apply amb_clock|].
    eapply amb_trans; [exact Hc|]. apply amb_clock. }
  destruct ra, rb, rc; exact H.
Qed.

End Stable.

(** One step of a stability proof, by the shape of the computation. *)
Ltac stable_step :=
  lazymatch goal with
  | |- stable _ (mbind _ _) => apply stable_bind; [ exact _ | try assumption | intros ? ]
  | |- stable _ (try_catch _ _) => apply stable_try_catch; [ exact _ | try assumption | intros ? ]
  | |- stable _ (mret _) => apply stable_ret; exact _
  | |- stable _ (throw _) => apply stable_throw; exact _
  | |- stable _ (gets _) => apply stable_gets; exact _
  | |- stable _ Date_now => apply stable_Date_now; exact _
  | |- stable _ (elizaLogger _ _ _ _) => apply stable_elizaLogger; exact _
  | |- stable _ (readContract _ _ _ _) => apply stable_readContract; exact _
  | |- stable _ (fetch _ _ _) => apply stable_fetch; exact _
  | |- stable _ (json _) => apply stable_json; exact _
  | |- stable _ (Promise_all3 _ _ _) => apply stable_Promise_all3; [ exact _ | | | ]
  | |- stable _ (match ?x with _ => _ end) => destruct x
  | |- stable _ _ => solve [auto]
  end.

Ltac stable_auto := repeat stable_step.

Section AdaptersStable.

Context (R : State -> State -> Prop) `{!Ambient R}.
Variable P : Provider.
Variable W : World.

Lemma getPythPrice_stable symbol : stable R (getPythPrice P W symbol).
Proof. unfold getPythPrice. stable_auto. Qed.

Lemma getCoinGeckoPrice_stable symbol : stable R (getCoinGeckoPrice W symbol).
Proof. unfold getCoinGeckoPrice. stable_auto. Qed.

Lemma getCexPrice_stable symbol : stable R (getCexPrice P W symbol).
Proof. unfold getCexPrice. stable_auto. Qed.

Lemma getYeiMultiOraclePrice_stable symbol : stable R (getYeiMultiOraclePrice P W symbol).
Proof. unfold getYeiMultiOraclePrice. stable_auto. Qed.

Lemma getBinanceFundingRate_stable symbol : stable R (getBinanceFundingRate P W symbol).
Proof. unfold getBinanceFundingRate. stable_auto. Qed.

Lemma getBybitFundingRate_stable symbol : stable R (getBybitFundingRate P W symbol).
Proof. unfold getBybitFundingRate. stable_auto. Qed.

Lemma getOkxFundingRate_stable symbol : stable R (getOkxFundingRate P W symbol).
Proof. unfold getOkxFundingRate. stable_auto. Qed.

Lemma getAPI3Price_stable symbol : stable R (getAPI3Price P W symbol).
Proof. unfold getAPI3Price, getAPI3dApiId. stable_auto. Qed.

Lemma getRedstonePrice_stable symbol : stable R (getRedstonePrice P W symbol).
Proof. unfold getRedstonePrice. stable_auto. Qed.

Lemma getYeiPrice_stable symbol : stable R (getYeiPrice P W symbol).
Proof.
  pose proof (getAPI3Price_stable symbol).
  pose proof (getPythPrice_stable symbol).
  pose proof (getRedstonePrice_stable symbol).
  unfold getYeiPrice. stable_auto.
Qed.

Lemma legacyPrice_stable symbol : stable R (legacyPrice P W symbol).
Proof.
  pose proof (getYeiPrice_stable symbol).
  unfold legacyPrice. stable_auto.
Qed.

Lemma log_using_stable name symbol price : stable R (log_using name symbol price).
Proof. unfold log_using. stable_auto. Qed.

Lemma priority_stable symbol a : In a (priority P W symbol) -> stable R a.
Proof.
  pose proof (getYeiMultiOraclePrice_stable symbol).
  pose proof (getCoinGeckoPrice_stable symbol).
  pose proof (getPythPrice_stable symbol).
  pose proof (getCexPrice_stable symbol).
  pose proof (legacyPrice_stable symbol).
  pose proof (log_using_stable).
  unfold priority. simpl.
  intros [<-|[<-|[<-|[<-|[<-|[]]]]]];
    unfold source1, source2, source3, source4, source5; stable_auto.
Qed.

Lemma first_quote_stable l : (forall a, In a l -> stable R a) -> stable R (first_quote l).
Proof.
  induction l as [|a l IH]; intros H; simpl.
  - apply stable_ret; exact _.
  - apply stable_bind; [exact _ | apply H; left; reflexivity |].
    intros [q|]; [apply stable_ret; exact _|].
    apply IH. intros b Hb. apply H. right. exact Hb.
Qed.

End AdaptersStable.

(** ** The cascade of [getPrice] is the ordered list of sources *)

Section CascadeFacts.

Variable P : Provider.
Variable W : World.

Lemma resolvePrice_refines symbol s :
  resolvePrice P W symbol s = resolvePrice_spec P W symbol s.
Proof.
  unfold resolvePrice, resolvePrice_spec, priority, first_quote, store_valid,
    source1, source2, source3, source4, source5, mbind, M_bind, mret, M_ret.
  destruct (getYeiMultiOraclePrice P W symbol s) as [[[q|]|e] s1]; simpl; try reflexivity.
  destruct (getCoinGeckoPrice W symbol s1) as [[[q|]|e] s2]; simpl; try reflexivity.
  destruct (legacyPrice P W symbol s2) as [[[q|]|e] s3]; simpl; try reflexivity.
  destruct (getPythPrice P W symbol s3) as [[[q|]|e] s4]; simpl; try reflexivity.
  destruct (getCexPrice P W symbol s4) as [[[q|]|e] s5]; simpl; reflexivity.
Qed.

(** Once a source has answered, the ones after it do not run: the state is
    the one that source left. *)
Lemma first_quote_stop (tried : list (M (option PriceFeed.t))) (a : M (option PriceFeed.t))
  (rest : list (M (option PriceFeed.t))) q s s1 s2 :
  first_quote tried s = (Return None, s1) ->
  a s1 = (Return (Some q), s2) ->
  first_quote (tried ++ a :: rest)%list s = (Return (Some q), s2).
Proof.
  revert s. induction tried as [|b tried IH]; intros s Htried Ha.
  - simpl in Htried. injection Htried as <-.
    simpl. unfold mbind, M_bind. rewrite Ha. reflexivity.
  - simpl in *. unfold mbind, M_bind in *.
    destruct (b s) as [[[q'|]|e] s']; try discriminate.
    apply IH; assumption.
Qed.

(** Sources that yield nothing hand over to the rest of the list. *)
Lemma first_quote_continue (tried rest : list (M (option PriceFeed.t))) s s1 :
  first_quote tried s = (Return None, s1) ->
  first_quote (tried ++ rest)%list s = first_quote rest s1.
Proof.
  revert s. induction tried as [|b tried IH]; intros s Htried.
  - simpl in Htried. injection Htried as <-. reflexivity.
  - simpl in *. unfold mbind, M_bind in *.
    destruct (b s) as [[[q'|]|e] s']; try discriminate.
    apply IH; assumption.
Qed.

Lemma getPrice_miss symbol s :
  price_fresh P (of_Z (clock s)) (priceCache s !! symbol) = false ->
  getPrice P W symbol s =
  try_catch (resolvePrice_spec P W symbol)
    (fun error =>
       elizaLogger LError "Failed to get price for" symbol (Some error);; mret None) s.
Proof.
  intros Hmiss. unfold getPrice, try_catch, mbind, M_bind, gets, Date_now. simpl.
  rewrite Hmiss. rewrite resolvePrice_refines. reflexivity.
Qed.

Lemma getPrice_hit symbol s c :
  priceCache s !! symbol = Some c ->
  price_fresh P (of_Z (clock s)) (Some c) = true ->
  getPrice P W symbol s = (Return (Some c), s).
Proof.
  intros Hc Hfresh. unfold getPrice, try_catch, mbind, M_bind, gets, Date_now. simpl.
  rewrite Hc, Hfresh. reflexivity.
Qed.

End CascadeFacts.

(** ** What single adapters return *)

Section AdapterRuns.

Variable P : Provider.
Variable W : World.

(** The primary adapter on a configured address whose read succeeds. *)
Lemma getYeiMultiOraclePrice_read symbol s oracleAddress price timestamp decimals :
  truthy_string (Str.prop (yeiMultiOracleAddresses P) (Str.toUpperCase symbol))
    = Some oracleAddress ->
  chain W oracleAddress "getLatestPrice" [] = Some [price; timestamp; decimals] ->
  let s1 := send W (ReadContract oracleAddress "getLatestPrice" []) s in
  let timestampMs := mul (of_Z timestamp) (of_Z 1000) in
  getYeiMultiOraclePrice P W symbol s =
    if price =? 0 then
      (Return None,
       add_log {| level := LWarn; text := "YEI Multi-Oracle returned zero price for";
                  about := symbol; cause := None |} s1)
    else
      (Return (Some (PriceFeed.make symbol (div (of_Z price) (pow10 decimals)) timestampMs
                       "YEI Multi-Oracle" (of_decimal false 98 (-2)))),
       add_log {| level := LInfo; text := "YEI Multi-Oracle price for";
                  about := symbol; cause := None |}
         (if gtb (sub (of_Z (clock s1)) timestampMs) (of_Z 3600000)
          then add_log {| level := LWarn; text := "YEI Multi-Oracle price too old for";
                          about := symbol; cause := None |} s1
          else s1)).
Proof.
  intros Haddr Hread. unfold getYeiMultiOraclePrice, try_catch, mbind, M_bind, readContract.
  rewrite Haddr, Hread. cbn.
  destruct (price =? 0); [reflexivity|]. cbn.
  destruct (gtb _ _); reflexivity.
Qed.

(** The index adapter on a mapped symbol and a 200 response carrying a
    usable price. *)
Lemma getCoinGeckoPrice_ok symbol s coinId data usd :
  Str.prop coinGeckoIds (Str.toUpperCase symbol) = Some coinId ->
  let url := "https://api.coingecko.com/api/v3/simple/price?ids=" ++ coinId
               ++ "&vs_currencies=usd" in
  coingecko W url = Some {| ok := true; body := Some data |} ->
  Str.prop data coinId = Some (Some usd) ->
  let price := JSON_number usd in
  negb (truthy price) || isNaN price || leb price zero = false ->
  let s1 := send W (Fetch url) s in
  getCoinGeckoPrice W symbol s =
    (Return (Some (PriceFeed.make symbol price (of_Z (clock s1)) "CoinGecko"
                     (of_decimal false 95 (-2)))), s1).
Proof.
  intros Hid url Hresp Hprice price Hvalid.
  unfold getCoinGeckoPrice, try_catch, mbind, M_bind, fetch.
  rewrite Hid. fold url. rewrite Hresp. cbn. rewrite Hprice. cbn. fold price.
  rewrite Hvalid. reflexivity.
Qed.

End AdapterRuns.

Lemma price_65000_5_valid :
  let p := JSON_number "65000.5" in
  p = of_decimal false 650005 (-1)
  /\ negb (truthy p) || isNaN p || leb p zero = false
  /\ negb (isNaN p) && gtb p zero = true.
Proof. vm_compute. repeat split. Qed.

(** ** C1 *)

(** C1. On a cache miss [getPrice] walks the list [priority] (YEI
    Multi-Oracle, CoinGecko, YEI legacy cascade, Pyth, Binance) in order:
    when the sources before [a] have all yielded nothing and [a] yields a
    quote, the call ends in the state [a] left, so no later source ran, and
    returns that quote (stored, when it passes the validity check). In
    particular, for "BTC" with the primary contract reporting price 0 and
    CoinGecko answering 65000.5, the result is the CoinGecko quote with that
    price, source "CoinGecko" and confidence 0.95. *)
Theorem getPrice_priority_order :
  (forall P W symbol s tried a rest q s1 s2,
      price_fresh P (of_Z (clock s)) (priceCache s !! symbol) = false ->
      priority P W symbol = (tried ++ a :: rest)%list ->
      first_quote tried s = (Return None, s1) ->
      a s1 = (Return (Some q), s2) ->
      getPrice P W symbol s =
        if valid_price q then (Return (Some q), set_priceCache symbol q s2)
        else (Return None, s2))
  /\
  (forall P W s oracleAddress timestamp decimals data,
      price_fresh P (of_Z (clock s)) (priceCache s !! "BTC") = false ->
      truthy_string (Str.prop (yeiMultiOracleAddresses P) "BTC") = Some oracleAddress ->
      chain W oracleAddress "getLatestPrice" [] = Some [0; timestamp; decimals] ->
      coingecko W "https://api.coingecko.com/api/v3/simple/price?ids=bitcoin&vs_currencies=usd"
        = Some {| ok := true; body := Some data |} ->
      Str.prop data "bitcoin" = Some (Some "65000.5") ->
      let req1 := ReadContract oracleAddress "getLatestPrice" [] in
      let req2 :=
        Fetch "https://api.coingecko.com/api/v3/simple/price?ids=bitcoin&vs_currencies=usd" in
      let q := PriceFeed.make "BTC" (of_decimal false 650005 (-1))
                 (of_Z (clock s + Z.of_N (latency W req1) + Z.of_N (latency W req2)))
                 "CoinGecko" (of_decimal false 95 (-2)) in
      exists s',
        getPrice P W "BTC" s = (Return (Some q), s')
        /\ priceCache s' = <["BTC" := q]> (priceCache s)
        /\ map snd (requests s') = (map snd (requests s) ++ [req1; req2])%list).
Proof.
  assert (forall P W symbol s tried a rest q s1 s2,
      price_fresh P (of_Z (clock s)) (priceCache s !! symbol) = false ->
      priority P W symbol = (tried ++ a :: rest)%list ->
      first_quote tried s = (Return None, s1) ->
      a s1 = (Return (Some q), s2) ->
      getPrice P W symbol s =
        if valid_price q then (Return (Some q), set_priceCache symbol q s2)
        else (Return None, s2)) as Horder.
  { intros P W symbol s tried a rest q s1 s2 Hmiss Hsplit Htried Ha.
    rewrite getPrice_miss by exact Hmiss.
    unfold try_catch, resolvePrice_spec, mbind, M_bind.
    rewrite Hsplit, (first_quote_stop tried a rest q s s1 s2 Htried Ha).
    unfold store_valid. destruct (valid_price q); reflexivity. }
  split; [exact Horder|].
  intros P W s oracleAddress timestamp decimals data Hmiss Haddr Hread Hresp Hprice req1 req2 q0.
  destruct price_65000_5_valid as (Heq & Hok & Hvalid). rewrite Heq in Hok, Hvalid.
  pose (s1 := add_log {| level := LWarn; text := "YEI Multi-Oracle returned zero price for";
                         about := "BTC"; cause := None |}
                (send W (ReadContract oracleAddress "getLatestPrice" []) s)).
  pose (url := "https://api.coingecko.com/api/v3/simple/price?ids=bitcoin&vs_currencies=usd").
  pose (s2 := send W (Fetch url) s1).
  pose (q := PriceFeed.make "BTC" (of_decimal false 650005 (-1)) (of_Z (clock s2)) "CoinGecko"
               (of_decimal false 95 (-2))).
  pose (s3 := add_log {| level := LInfo; text := "Using CoinGecko price for";
                         about := "BTC"; cause := None |} s2).
  assert (getPrice P W "BTC" s = (Return (Some q), set_priceCache "BTC" q s3)) as Hrun.
  { rewrite (Horder P W "BTC" s [source1 P W "BTC"] (source2 W "BTC")
               [source3 P W "BTC"; source4 P W "BTC"; source5 P W "BTC"] q s1 s3 Hmiss).
    - unfold valid_price. subst q. cbn [PriceFeed.price]. rewrite Hvalid. reflexivity.
    - reflexivity.
    - simpl. unfold source1, mbind, M_bind.
      rewrite (getYeiMultiOraclePrice_read P W "BTC" s oracleAddress 0 timestamp decimals Haddr Hread).
      reflexivity.
    - unfold source2, mbind, M_bind.
      pose proof (getCoinGeckoPrice_ok W "BTC" s1 "bitcoin" data "65000.5" eq_refl Hresp Hprice)
        as Hrun.
      cbv zeta in Hrun. rewrite Heq in Hrun. rewrite (Hrun Hok). reflexivity. }
  exists (set_priceCache "BTC" q s3). split; [exact Hrun|]. split.
  - reflexivity.
  - simpl. rewrite !map_app. simpl. rewrite <- app_assoc. reflexivity.
Qed.

Lemma getPrice_priority_order_witness :
  (let q := PriceFeed.make "BTC" (of_decimal false 650005 (-1)) (of_Z (Demo.t0 + 200))
              "CoinGecko" (of_decimal false 95 (-2)) in
   getPrice DemoBTC.P DemoBTC.W "BTC" DemoBTC.s0 =
     (if valid_price q
      then (Return (Some q),
            set_priceCache "BTC" q
              (snd (source2 DemoBTC.W "BTC"
                      (snd (source1 DemoBTC.P DemoBTC.W "BTC" DemoBTC.s0)))))
      else (Return None,
            snd (source2 DemoBTC.W "BTC"
                   (snd (source1 DemoBTC.P DemoBTC.W "BTC" DemoBTC.s0))))))
  /\
  (exists s',
      getPrice DemoBTC.P DemoBTC.W "BTC" DemoBTC.s0 =
        (Return (Some (PriceFeed.make "BTC" (of_decimal false 650005 (-1))
                         (of_Z (Demo.t0 + 100 + 100)) "CoinGecko"
                         (of_decimal false 95 (-2)))), s')
      /\ priceCache s' =
           <["BTC" := PriceFeed.make "BTC" (of_decimal false 650005 (-1))
                        (of_Z (Demo.t0 + 100 + 100)) "CoinGecko"
                        (of_decimal false 95 (-2))]> (priceCache DemoBTC.s0)
      /\ map snd (requests s') =
           [ ReadContract DemoBTC.oracle "getLatestPrice" []; Fetch DemoBTC.url ]).
Proof.
  split.
  - apply (proj1 getPrice_priority_order DemoBTC.P DemoBTC.W "BTC" DemoBTC.s0
             [source1 DemoBTC.P DemoBTC.W "BTC"] (source2 DemoBTC.W "BTC")
             [source3 DemoBTC.P DemoBTC.W "BTC"; source4 DemoBTC.P DemoBTC.W "BTC";
              source5 DemoBTC.P DemoBTC.W "BTC"]
             _ (snd (source1 DemoBTC.P DemoBTC.W "BTC" DemoBTC.s0))).
    + vm_compute. reflexivity.
    + reflexivity.
    + vm_compute. reflexivity.
    + vm_compute. reflexivity.
  - apply (proj2 getPrice_priority_order DemoBTC.P DemoBTC.W DemoBTC.s0
             DemoBTC.oracle 1699999990 8 DemoBTC.payload).
    + vm_compute. reflexivity.
    + vm_compute. reflexivity.
    + vm_compute. reflexivity.
    + vm_compute. reflexivity.
    + vm_compute. reflexivity.
Defined.

(** ** C8 *)

(** C8. For a symbol with a configured oracle address whose contract read
    succeeds, the primary adapter returns nothing when the reported price is
    zero; otherwise it returns the quote whose price is the raw integer price
    divided by 10^decimals, with confidence 0.98, and when the observation is
    more than one hour (3600000 ms) older than the time of the check it logs
    the "too old" warning and returns that same quote. *)
Theorem getYeiMultiOraclePrice_zero_scale_warn :
  forall P W symbol s oracleAddress price timestamp decimals,
    truthy_string (Str.prop (yeiMultiOracleAddresses P) (Str.toUpperCase symbol))
      = Some oracleAddress ->
    chain W oracleAddress "getLatestPrice" [] = Some [price; timestamp; decimals] ->
    let now := of_Z (clock s + Z.of_N (latency W (ReadContract oracleAddress "getLatestPrice" []))) in
    let timestampMs := mul (of_Z timestamp) (of_Z 1000) in
    let run := getYeiMultiOraclePrice P W symbol s in
    (price = 0 -> fst run = Return None)
    /\ (price <> 0 ->
        fst run =
          Return (Some (PriceFeed.make symbol (div (of_Z price) (pow10 decimals)) timestampMs
                          "YEI Multi-Oracle" (of_decimal false 98 (-2))))
        /\ (gtb (sub now timestampMs) (of_Z 3600000) = true ->
            In (warn_too_old symbol) (logs (snd run)))
        /\ (gtb (sub now timestampMs) (of_Z 3600000) = false ->
            ~ In (warn_too_old symbol) (skipn (length (logs s)) (logs (snd run))))).
Proof.
  intros P W symbol s oracleAddress price timestamp decimals Haddr Hread now timestampMs run.
  subst run. rewrite (getYeiMultiOraclePrice_read P W symbol s _ _ _ _ Haddr Hread).
  cbv zeta. split.
  - intros ->. reflexivity.
  - intros Hnz. apply Z.eqb_neq in Hnz. rewrite Hnz. cbn [fst snd].
    split; [reflexivity|].
    change (of_Z (clock (send W (ReadContract oracleAddress "getLatestPrice" []) s))) with now.
    fold timestampMs. split; intros Hage; rewrite Hage; cbn [logs add_log send].
    + apply in_or_app. left. apply in_or_app. right. left. reflexivity.
    + rewrite skipn_app, Nat.sub_diag, skipn_all. cbn.
      intros [H|[]]. discriminate H.
Qed.

Lemma getYeiMultiOraclePrice_zero_scale_warn_witness :
  let run := getYeiMultiOraclePrice Demo.P0 DemoStale.W "SEI" (initial Demo.t0) in
  fst run =
    Return (Some (PriceFeed.make "SEI" (div (of_Z 1234567) (pow10 6))
                    (mul (of_Z (Demo.t0 / 1000 - 7200)) (of_Z 1000))
                    "YEI Multi-Oracle" (of_decimal false 98 (-2))))
  /\ In (warn_too_old "SEI") (logs (snd run)).
Proof.
  pose proof (getYeiMultiOraclePrice_zero_scale_warn Demo.P0 DemoStale.W "SEI" (initial Demo.t0)
                DemoStale.seiOracle 1234567 (Demo.t0 / 1000 - 7200) 6
                ltac:(vm_compute; reflexivity) ltac:(vm_compute; reflexivity)) as [_ H].
  destruct (H ltac:(discriminate)) as (Hq & Hold & _).
  split; [exact Hq|]. apply Hold. vm_compute. reflexivity.
Defined.

(** ** What [getPrice] and [getFundingRates] do to the state *)

Section Effects.

Variable P : Provider.
Variable W : World.

Lemma price_fresh_cached now cached :
  price_fresh P now cached = true -> exists c, cached = Some c.
Proof. destruct cached as [c|]; [eauto | discriminate]. Qed.

(** [getPrice] returns normally; it either answers from the cache and changes
    nothing, or answers nothing and leaves the cache alone, or stores and
    returns one guarded quote under [symbol]. *)
Lemma getPrice_effect symbol s :
  (exists c, getPrice P W symbol s = (Return (Some c), s)
             /\ priceCache s !! symbol = Some c
             /\ price_fresh P (of_Z (clock s)) (Some c) = true)
  \/ (price_fresh P (of_Z (clock s)) (priceCache s !! symbol) = false
      /\ exists s', getPrice P W symbol s = (Return None, s')
                    /\ priceCache s' = priceCache s)
  \/ (price_fresh P (of_Z (clock s)) (priceCache s !! symbol) = false
      /\ exists q s', getPrice P W symbol s = (Return (Some q), s')
                      /\ valid_price q = true
                      /\ priceCache s' = <[symbol := q]> (priceCache s)).
Proof.
  destruct (price_fresh P (of_Z (clock s)) (priceCache s !! symbol)) eqn:Hfresh.
  - left. destruct (price_fresh_cached _ _ Hfresh) as [c Hc].
    exists c. rewrite Hc in Hfresh. split; [|split]; try assumption.
    apply getPrice_hit; assumption.
  - right. rewrite getPrice_miss by exact Hfresh.
    unfold try_catch, resolvePrice_spec, mbind, M_bind.
    pose proof (first_quote_stable (keeps priceCache) (priority P W symbol)
                  (priority_stable (keeps priceCache) P W symbol) s) as Hkeep.
    unfold keeps in Hkeep.
    destruct (first_quote (priority P W symbol) s) as [[[q|]|e] s1]; cbn in *.
    + destruct (valid_price q) eqn:Hq; cbn.
      * right. split; [reflexivity|]. exists q. eexists. split; [reflexivity|].
        split; [exact Hq|]. cbn. rewrite Hkeep. reflexivity.
      * left. split; [reflexivity|]. eexists. split; [reflexivity|]. exact Hkeep.
    + left. split; [reflexivity|]. eexists. split; [reflexivity|]. exact Hkeep.
    + left. split; [reflexivity|]. eexists. split; [reflexivity|]. cbn. exact Hkeep.
Qed.

Lemma getPrice_total symbol : total (getPrice P W symbol).
Proof.
  intros s.
  destruct (getPrice_effect symbol s)
    as [(c & -> & _)|[(_ & s' & -> & _)|(_ & q & s' & -> & _)]]; eauto.
Qed.

Lemma store_valid_stable R `{!Ambient R} symbol price :
  (forall k v s, R s (set_priceCache k v s)) -> stable R (store_valid symbol price).
Proof.
  intros Hset. unfold store_valid.
  destruct price as [q|]; [destruct (valid_price q)|]; try (apply stable_ret; exact _).
  apply stable_bind; [exact _| |intros; apply stable_ret; exact _].
  intros s. apply Hset.
Qed.

(** Anything that survives the runtime's bookkeeping and a write to the
    price cache survives [getPrice]. *)
Lemma getPrice_stable R `{!Ambient R} symbol :
  (forall k v s, R s (set_priceCache k v s)) -> stable R (getPrice P W symbol).
Proof.
  intros Hset s.
  destruct (price_fresh P (of_Z (clock s)) (priceCache s !! symbol)) eqn:Hfresh.
  - destruct (price_fresh_cached _ _ Hfresh) as [c Hc]. rewrite Hc in Hfresh.
    rewrite (getPrice_hit P W symbol s c Hc Hfresh). apply amb_refl.
  - rewrite getPrice_miss by exact Hfresh.
    revert s Hfresh. 
    assert (stable R (try_catch (resolvePrice_spec P W symbol)
      (fun error => elizaLogger LError "Failed to get price for" symbol (Some error);;
                    mret None))) as H; [|intros s _; apply H].
    pose proof (first_quote_stable R (priority P W symbol) (priority_stable R P W symbol)).
    pose proof (fun price => store_valid_stable R symbol price Hset).
    unfold resolvePrice_spec. stable_auto.
Qed.

(** [getFundingRates] returns normally; it either answers from the cache and
    changes nothing, or it stores the list it returns when that list is not
    empty and leaves the cache alone when it is. *)
Lemma getFundingRates_effect symbol s :
  exists rates s',
    getFundingRates P W symbol s = (Return rates, s')
    /\ priceCache s' = priceCache s
    /\ (fundingRateCache s' = fundingRateCache s
        \/ (rates <> [] /\ fundingRateCache s' = <[symbol := rates]> (fundingRateCache s)))
    /\ (rates = [] -> fundingRateCache s' = fundingRateCache s).
Proof.
  unfold getFundingRates, try_catch, mbind, M_bind, gets, Date_now. cbn.
  destruct (rates_fresh P (of_Z (clock s)) (fundingRateCache s !! symbol)) eqn:Hfresh.
  - cbn. eexists. eexists. split; [reflexivity|]. split; [reflexivity|].
    split; [left; reflexivity|reflexivity].
  - pose proof (stable_Promise_all3 (keeps priceCache) _ _ _
                  (getBinanceFundingRate_stable (keeps priceCache) P W symbol)
                  (getBybitFundingRate_stable (keeps priceCache) P W symbol)
                  (getOkxFundingRate_stable (keeps priceCache) P W symbol) s) as Hp.
    pose proof (stable_Promise_all3 (keeps fundingRateCache) _ _ _
                  (getBinanceFundingRate_stable (keeps fundingRateCache) P W symbol)
                  (getBybitFundingRate_stable (keeps fundingRateCache) P W symbol)
                  (getOkxFundingRate_stable (keeps fundingRateCache) P W symbol) s) as Hf.
    unfold keeps in Hp, Hf.
    destruct (Promise_all3 _ _ _ s) as [[rates|e] s1]; cbn in *.
    + destruct (non_null rates) as [|r rest] eqn:Hrates; cbn.
      * eexists. eexists. split; [reflexivity|]. split; [exact Hp|].
        split; [left; exact Hf|intros _; exact Hf].
      * eexists. eexists. split; [reflexivity|]. cbn. split; [exact Hp|].
        split; [right; split; [discriminate|rewrite Hf; reflexivity]|discriminate].
    + eexists. eexists. split; [reflexivity|]. cbn. split; [exact Hp|].
      split; [left; exact Hf|intros _; exact Hf].
Qed.

Lemma getFundingRates_total symbol : total (getFundingRates P W symbol).
Proof.
  intros s. destruct (getFundingRates_effect symbol s) as (rates & s' & -> & _); eauto.
Qed.

Lemma getFundingRates_stable R `{!Ambient R} symbol :
  (forall k v s, R s (set_fundingRateCache k v s)) -> stable R (getFundingRates P W symbol).
Proof.
  intros Hset.
  pose proof (getBinanceFundingRate_stable R P W symbol).
  pose proof (getBybitFundingRate_stable R P W symbol).
  pose proof (getOkxFundingRate_stable R P W symbol).
  assert (forall v, stable R (modify (set_fundingRateCache symbol v))) by (intros v s; apply Hset).
  unfold getFundingRates. stable_auto.
Qed.

End Effects.

(** ** The refresh timer *)

Section SchedulerFacts.

Variable P : Provider.

Lemma refresh_stable R `{!Ambient R} W :
  (forall symbol, stable R (getPrice P W symbol)) ->
  (forall symbol, stable R (getFundingRates P W symbol)) ->
  stable R (refresh P W).
Proof.
  intros Hp Hf. unfold refresh. stable_auto.
Qed.

Lemma fire_stable R `{!Ambient R} W n every at_ s :
  (forall symbol, stable R (getPrice P W symbol)) ->
  (forall symbol, stable R (getFundingRates P W symbol)) ->
  R s (fire P W n every at_ s).
Proof.
  intros Hp Hf. revert at_ s. induction n as [|n IH]; intros at_ s; simpl.
  - apply amb_refl.
  - eapply amb_trans; [apply amb_clock|].
    eapply amb_trans; [apply (refresh_stable R W Hp Hf)|]. apply IH.
Qed.

Lemma fire_all_stable R `{!Ambient R} W target ts s :
  (forall symbol, stable R (getPrice P W symbol)) ->
  (forall symbol, stable R (getFundingRates P W symbol)) ->
  R s (fold_left (fun acc t => fire P W (firings t target) (Z.max 1 (period t)) (due t) acc) ts s).
Proof.
  intros Hp Hf. revert s. induction ts as [|t ts IH]; intros s; simpl.
  - apply amb_refl.
  - eapply amb_trans;
      [apply (fire_stable R W (firings t target) (Z.max 1 (period t)) (due t) s Hp Hf)|].
    apply IH.
Qed.

(** While time passes, the state only changes through the ticks. *)
Lemma elapse_stable R `{!Ambient R} W dt s :
  (forall symbol, stable R (getPrice P W symbol)) ->
  (forall symbol, stable R (getFundingRates P W symbol)) ->
  (forall h ts n s, R s (set_timers h ts n s)) ->
  R s (elapse P W dt s).
Proof.
  intros Hp Hf Ht. unfold elapse.
  eapply amb_trans; [apply (fire_all_stable R W (clock s + dt) (timers s) s Hp Hf)|].
  eapply amb_trans; [apply amb_clock|]. apply Ht.
Qed.

Lemma getPrice_keeps_schedule W symbol : stable (keeps schedule) (getPrice P W symbol).
Proof. apply getPrice_stable; [exact _|]. intros; reflexivity. Qed.

Lemma getFundingRates_keeps_schedule W symbol :
  stable (keeps schedule) (getFundingRates P W symbol).
Proof. apply getFundingRates_stable; [exact _|]. intros; reflexivity. Qed.

(** With no live timer nothing runs: only the clock moves. *)
Lemma elapse_idle W dt s :
  timers s = [] ->
  elapse P W dt s = set_clock (Z.max (clock s) (clock s + dt)) s.
Proof.
  intros Hnone. unfold elapse. rewrite Hnone. simpl.
  unfold set_timers, set_clock. simpl. rewrite Hnone. reflexivity.
Qed.

Lemma waits_idle ws s :
  timers s = [] -> observable (waits P ws s) = observable s.
Proof.
  revert s. induction ws as [|[W dt] ws IH]; intros s Hnone; [reflexivity|].
  unfold waits in *. simpl. rewrite (elapse_idle W dt s Hnone).
  rewrite IH; [reflexivity | exact Hnone].
Qed.

Lemma startPriceUpdates_running s h :
  updateInterval s = Some h -> startPriceUpdates P s = (Return tt, s).
Proof.
  intros Hh. unfold startPriceUpdates, mbind, M_bind, gets. simpl. rewrite Hh. reflexivity.
Qed.

Lemma startPriceUpdates_inv s : timer_inv s -> timer_inv (snd (startPriceUpdates P s)).
Proof.
  unfold timer_inv. intros Hinv.
  destruct (updateInterval s) as [h|] eqn:Hh.
  - rewrite (startPriceUpdates_running s h Hh). simpl. rewrite Hh. exact Hinv.
  - unfold startPriceUpdates, mbind, M_bind, gets, setInterval, modify. simpl.
    rewrite Hh. simpl. rewrite Hinv. simpl. eexists. split; reflexivity.
Qed.

Lemma stopPriceUpdates_clears s :
  timer_inv s ->
  timers (snd (stopPriceUpdates s)) = []
  /\ updateInterval (snd (stopPriceUpdates s)) = None
  /\ observable (snd (stopPriceUpdates s)) = observable s.
Proof.
  unfold timer_inv. intros Hinv.
  unfold stopPriceUpdates, mbind, M_bind, gets, clearInterval, modify. simpl.
  destruct (updateInterval s) as [h|] eqn:Hh; simpl.
  - destruct Hinv as (t & Hts & Hth). rewrite Hts. simpl.
    rewrite Hth, Nat.eqb_refl. simpl. repeat split.
  - rewrite Hh. repeat split. exact Hinv.
Qed.

Lemma elapse_inv W dt s : timer_inv s -> timer_inv (elapse P W dt s).
Proof.
  unfold timer_inv. intros Hinv.
  pose proof (fire_all_stable (keeps schedule) W (clock s + dt) (timers s) s
                (getPrice_keeps_schedule W) (getFundingRates_keeps_schedule W)) as Hk.
  unfold keeps, schedule in Hk. injection Hk as Hu Ht Hn.
  unfold elapse. simpl. rewrite Hu, Ht.
  destruct (updateInterval s) as [h|].
  - destruct Hinv as (t & -> & Hth). simpl. eexists. split; [reflexivity|]. exact Hth.
  - rewrite Hinv. reflexivity.
Qed.

Lemma reachable_timer_inv s : reachable P s -> timer_inv s.
Proof.
  induction 1 as [now|s W c Hr IH].
  - reflexivity.
  - destruct c as [symbol|symbol| | |dt]; simpl.
    + pose proof (getPrice_keeps_schedule W symbol s) as Hk.
      unfold keeps, schedule in Hk. injection Hk as Hu Ht Hn.
      unfold timer_inv. rewrite Hu, Ht. exact IH.
    + pose proof (getFundingRates_keeps_schedule W symbol s) as Hk.
      unfold keeps, schedule in Hk. injection Hk as Hu Ht Hn.
      unfold timer_inv. rewrite Hu, Ht. exact IH.
    + apply startPriceUpdates_inv. exact IH.
    + destruct (stopPriceUpdates_clears s IH) as (Ht & Hu & _).
      unfold timer_inv. rewrite Hu. exact Ht.
    + apply elapse_inv. exact IH.
Qed.

End SchedulerFacts.

(** ** C9 *)

(** C9. In every state an instance can reach: at most one interval timer is
    live; [startPriceUpdates] on an instance whose refresh is running changes
    nothing; and once [stopPriceUpdates] has returned no timer is live, so
    however long and however often one then waits no tick runs: no request
    is sent, nothing is logged and both caches stay as they were. *)
Theorem refresh_timer_start_once_stop_clean :
  forall P s, reachable P s ->
    (length (timers s) <= 1)%nat
    /\ (forall h, updateInterval s = Some h -> startPriceUpdates P s = (Return tt, s))
    /\ (let stopped := snd (stopPriceUpdates s) in
        timers stopped = []
        /\ observable stopped = observable s
        /\ forall ws, observable (waits P ws stopped) = observable stopped).
Proof.
  intros P s Hr. pose proof (reachable_timer_inv P s Hr) as Hinv.
  split; [|split].
  - unfold timer_inv in Hinv. destruct (updateInterval s).
    + destruct Hinv as (t & -> & _). simpl. lia.
    + rewrite Hinv. simpl. lia.
  - intros h Hh. apply startPriceUpdates_running with (h := h). exact Hh.
  - intros stopped. subst stopped.
    destruct (stopPriceUpdates_clears s Hinv) as (Ht & Hu & Hobs).
    split; [exact Ht|]. split; [exact Hobs|].
    intros ws. apply waits_idle. exact Ht.
Qed.

Lemma refresh_timer_start_once_stop_clean_witness :
  let s := step Demo.P0 Demo.down (Wait 30000)
             (step Demo.P0 Demo.down CallStartPriceUpdates (initial Demo.t0)) in
  let stopped := snd (stopPriceUpdates s) in
  (length (timers s) <= 1)%nat
  /\ startPriceUpdates Demo.P0 s = (Return tt, s)
  /\ timers stopped = []
  /\ observable stopped = observable s
  /\ observable (waits Demo.P0 [(Demo.down, 30000); (DemoBTC.W, 45000)] stopped)
     = observable stopped.
Proof.
  intros s stopped.
  destruct (refresh_timer_start_once_stop_clean Demo.P0 s
              ltac:(apply reach_step; apply reach_step; apply reach_initial))
    as (Hone & Hstart & Hnone & Hsame & Hquiet).
  split; [exact Hone|]. split; [apply (Hstart O); vm_compute; reflexivity|].
  split; [exact Hnone|]. split; [exact Hsame|].
  exact (Hquiet [(Demo.down, 30000); (DemoBTC.W, 45000)]).
Defined.

(** A running timer does tick: the statement above is not about a timer
    that never fires. *)
Example refresh_ticks_while_running :
  let started := step Demo.P0 Demo.down CallStartPriceUpdates (initial Demo.t0) in
  length (requests (step Demo.P0 Demo.down (Wait 29999) started)) = 0%nat
  /\ length (requests (step Demo.P0 Demo.down (Wait 30000) started)) = 26%nat
  /\ length (requests (step Demo.P0 Demo.down (Wait 60000) started)) = 52%nat
  /\ length (requests (step Demo.P0 Demo.down (Wait 60000)
                         (step Demo.P0 Demo.down CallStopPriceUpdates started))) = 0%nat.
Proof. vm_compute. repeat split. Qed.

(** ** C2 and C10: what reaches the caches *)

#[global] Instance guard_kept_ambient : Ambient guard_kept.
Proof.
  split; unfold guard_kept; intros; auto.
Qed.

Lemma keeps_priceCache_guard s s' : keeps priceCache s s' -> guard_kept s s'.
Proof.
  unfold keeps, guard_kept, cache_guarded. intros Hk Hg k q. rewrite Hk. apply Hg.
Qed.

Lemma getPrice_guard_kept P W symbol : stable guard_kept (getPrice P W symbol).
Proof.
  intros s Hg.
  destruct (getPrice_effect P W symbol s)
    as [(c & -> & _)|[(_ & s' & -> & Hk)|(_ & q & s' & -> & Hq & Hk)]]; simpl.
  - exact Hg.
  - intros k q. rewrite Hk. apply Hg.
  - intros k q'. rewrite Hk. rewrite lookup_insert.
    destruct (decide (symbol = k)); [intros [= <-]; exact Hq | apply Hg].
Qed.

Lemma getFundingRates_guard_kept P W symbol : stable guard_kept (getFundingRates P W symbol).
Proof.
  intros s. apply keeps_priceCache_guard.
  destruct (getFundingRates_effect P W symbol s) as (rates & s' & -> & Hk & _). exact Hk.
Qed.

Lemma reachable_cache_guarded P s : reachable P s -> cache_guarded s.
Proof.
  induction 1 as [now|s W c Hr IH].
  - intros k q. simpl. rewrite lookup_empty. discriminate.
  - destruct c as [symbol|symbol| | |dt]; simpl.
    + apply getPrice_guard_kept. exact IH.
    + apply getFundingRates_guard_kept. exact IH.
    + revert IH. apply keeps_priceCache_guard.
      unfold keeps, startPriceUpdates, mbind, M_bind, gets. simpl.
      destruct (updateInterval s); reflexivity.
    + revert IH. apply keeps_priceCache_guard.
      unfold keeps, stopPriceUpdates, mbind, M_bind, gets. simpl.
      destruct (updateInterval s); reflexivity.
    + revert IH.
      apply (elapse_stable P guard_kept W dt s (getPrice_guard_kept P W)
               (getFundingRates_guard_kept P W)).
      intros h ts n s0 Hg. exact Hg.
Qed.

(** Passing the guard means: not NaN, not [<= 0], and [> 0]. *)
Lemma valid_price_spec q :
  valid_price q = true ->
  isNaN (PriceFeed.price q) = false
  /\ leb (PriceFeed.price q) zero = false
  /\ gtb (PriceFeed.price q) zero = true.
Proof.
  unfold valid_price. intros H. apply andb_true_iff in H as [Hn Hg].
  apply negb_true_iff in Hn. split; [exact Hn|]. split; [|exact Hg].
  revert Hg. destruct (PriceFeed.price q) as [sx|sx| |sx m e]; try destruct sx; vm_compute;
    congruence.
Qed.

(** C2, as amended. Whatever the history of the instance and whatever the
    upstream services answer, a quote that [getPrice] returns, or that is in
    the price cache after the call, has a price that is not NaN and not
    [<= 0]. (A price of [+Infinity] passes the guard.) *)
Theorem getPrice_never_nan_or_nonpositive :
  forall P W symbol s, reachable P s ->
    forall q,
      (fst (getPrice P W symbol s) = Return (Some q)
       \/ exists k, priceCache (snd (getPrice P W symbol s)) !! k = Some q) ->
      isNaN (PriceFeed.price q) = false
      /\ leb (PriceFeed.price q) zero = false
      /\ gtb (PriceFeed.price q) zero = true.
Proof.
  intros P W symbol s Hr q Hq. apply valid_price_spec.
  pose proof (reachable_cache_guarded P s Hr) as Hg.
  pose proof (getPrice_guard_kept P W symbol s Hg) as Hg'.
  destruct Hq as [Hret|[k Hk]]; [|exact (Hg' k q Hk)].
  destruct (getPrice_effect P W symbol s)
    as [(c & Hrun & Hc & _)|[(_ & s' & Hrun & _)|(_ & q' & s' & Hrun & Hv & _)]];
    rewrite Hrun in Hret; simpl in Hret.
  - injection Hret as <-. exact (Hg symbol c Hc).
  - discriminate.
  - injection Hret as <-. exact Hv.
Qed.

Lemma getPrice_never_nan_or_nonpositive_witness :
  let q := PriceFeed.make "BTC" (of_decimal false 650005 (-1)) (of_Z (Demo.t0 + 200))
             "CoinGecko" (of_decimal false 95 (-2)) in
  isNaN (PriceFeed.price q) = false
  /\ leb (PriceFeed.price q) zero = false
  /\ gtb (PriceFeed.price q) zero = true.
Proof.
  apply (getPrice_never_nan_or_nonpositive DemoBTC.P DemoBTC.W "BTC"
           (step DemoBTC.P DemoBTC.W (Wait 5000)
              (step DemoBTC.P DemoBTC.W (CallGetPrice "BTC") DemoBTC.s0))).
  - apply reach_step. apply reach_step. apply reach_initial.
  - left. vm_compute. reflexivity.
Defined.

(** C2 as stated fails: CoinGecko answering with a number that parses to
    [Infinity] gives a quote that is returned and cached. *)
Lemma infinite_price_is_returned_and_cached : ~ only_finite_positive_quotes.
Proof.
  intros H.
  specialize (H Demo.P0 DemoOverflow.W "SEI" (initial Demo.t0) (reach_initial _ _)
                (PriceFeed.make "SEI" Infinity (of_Z (Demo.t0 + 200)) "CoinGecko"
                   (of_decimal false 95 (-2)))).
  assert (finite_positive Infinity = false) as Hinf by reflexivity.
  cbn [PriceFeed.price] in H. rewrite Hinf in H.
  enough (false = true) by discriminate. apply H.
  left. vm_compute. reflexivity.
Qed.

Example infinite_price_run :
  let run := getPrice Demo.P0 DemoOverflow.W "SEI" (initial Demo.t0) in
  fst run = Return (Some (PriceFeed.make "SEI" Infinity (of_Z (Demo.t0 + 200)) "CoinGecko"
                            (of_decimal false 95 (-2))))
  /\ priceCache (snd run) !! "SEI" =
       Some (PriceFeed.make "SEI" Infinity (of_Z (Demo.t0 + 200)) "CoinGecko"
               (of_decimal false 95 (-2))).
Proof. vm_compute. split; reflexivity. Qed.

(** C10. A call that resolves nothing leaves the caches as they were: when
    [getPrice] returns null both caches are what they were before the call,
    and when [getFundingRates] returns no entry both caches are what they
    were. A cache only changes by the store of a successful fetch: the price
    cache by inserting, under the requested symbol, the guarded quote that
    [getPrice] returns; the funding-rate cache by inserting, under the
    requested symbol, the non-empty list that [getFundingRates] returns. *)
Theorem failed_resolution_keeps_caches :
  forall P W symbol s,
    (forall s', getPrice P W symbol s = (Return None, s') ->
                priceCache s' = priceCache s /\ fundingRateCache s' = fundingRateCache s)
    /\ (forall s', getFundingRates P W symbol s = (Return [], s') ->
                   fundingRateCache s' = fundingRateCache s /\ priceCache s' = priceCache s)
    /\ (priceCache (snd (getPrice P W symbol s)) <> priceCache s ->
        exists q, fst (getPrice P W symbol s) = Return (Some q)
                  /\ valid_price q = true
                  /\ priceCache (snd (getPrice P W symbol s)) = <[symbol := q]> (priceCache s))
    /\ (fundingRateCache (snd (getFundingRates P W symbol s)) <> fundingRateCache s ->
        exists rates, fst (getFundingRates P W symbol s) = Return rates
                      /\ rates <> []
                      /\ fundingRateCache (snd (getFundingRates P W symbol s))
                         = <[symbol := rates]> (fundingRateCache s)).
Proof.
  intros P W symbol s.
  pose proof (getPrice_stable P W (keeps fundingRateCache) symbol
                ltac:(intros; reflexivity) s) as Hpf.
  unfold keeps in Hpf.
  split; [|split; [|split]].
  - intros s' Hrun. rewrite Hrun in Hpf. simpl in Hpf. split; [|exact Hpf].
    destruct (getPrice_effect P W symbol s)
      as [(c & Hc & _)|[(_ & s1 & H1 & Hk)|(_ & q & s1 & H1 & _)]];
      rewrite Hrun in *; try discriminate.
    injection H1 as <-. exact Hk.
  - intros s' Hrun.
    destruct (getFundingRates_effect P W symbol s) as (rates & s1 & H1 & Hk & _ & Hempty).
    rewrite Hrun in H1. injection H1 as <- <-. split; [apply Hempty; reflexivity|exact Hk].
  - intros Hchanged.
    destruct (getPrice_effect P W symbol s)
      as [(c & Hc & _)|[(_ & s1 & H1 & Hk)|(_ & q & s1 & H1 & Hv & Hk)]].
    + rewrite Hc in Hchanged. simpl in Hchanged. contradiction.
    + rewrite H1 in Hchanged. simpl in Hchanged. contradiction.
    + rewrite H1. simpl. exists q. repeat split; assumption.
  - intros Hchanged.
    destruct (getFundingRates_effect P W symbol s) as (rates & s1 & H1 & _ & [Hk|[Hne Hk]] & _).
    + rewrite H1 in Hchanged. simpl in Hchanged. contradiction.
    + rewrite H1. simpl. exists rates. repeat split; assumption.
Qed.

Lemma failed_resolution_keeps_caches_witness :
  let s := snd (getFundingRates Demo.P0 (DemoFunding.W 1) "BTC"
                  (snd (getPrice DemoBTC.P DemoBTC.W "BTC" DemoBTC.s0))) in
  let sP := snd (getPrice Demo.P0 Demo.down "SEI" s) in
  let sF := snd (getFundingRates Demo.P0 Demo.down "SEI" s) in
  (priceCache sP = priceCache s /\ fundingRateCache sP = fundingRateCache s)
  /\ (fundingRateCache sF = fundingRateCache s /\ priceCache sF = priceCache s)
  /\ (exists q,
        fst (getPrice DemoBTC.P DemoBTC.W "BTC" DemoBTC.s0) = Return (Some q)
        /\ valid_price q = true
        /\ priceCache (snd (getPrice DemoBTC.P DemoBTC.W "BTC" DemoBTC.s0))
           = <["BTC" := q]> (priceCache DemoBTC.s0))
  /\ (exists rates,
        fst (getFundingRates Demo.P0 (DemoFunding.W 1) "BTC" (initial Demo.t0)) = Return rates
        /\ rates <> []
        /\ fundingRateCache (snd (getFundingRates Demo.P0 (DemoFunding.W 1) "BTC"
                                    (initial Demo.t0)))
           = <["BTC" := rates]> (fundingRateCache (initial Demo.t0))).
Proof.
  intros s sP sF.
  split; [|split; [|split]].
  - apply (failed_resolution_keeps_caches Demo.P0 Demo.down "SEI" s).
    vm_compute. reflexivity.
  - apply (failed_resolution_keeps_caches Demo.P0 Demo.down "SEI" s).
    vm_compute. reflexivity.
  - apply (failed_resolution_keeps_caches DemoBTC.P DemoBTC.W "BTC" DemoBTC.s0).
    intros H. apply (f_equal (fun m => m !! "BTC")) in H. vm_compute in H. discriminate H.
  - apply (failed_resolution_keeps_caches Demo.P0 (DemoFunding.W 1) "BTC" (initial Demo.t0)).
    intros H. apply (f_equal (fun m => m !! "BTC")) in H. vm_compute in H. discriminate H.
Defined.

(** ** The funding-rate adapters *)

Section FundingRuns.

Variable P : Provider.
Variable W : World.

Lemma getBinanceFundingRate_run symbol s :
  let url := binance_funding_url P symbol in
  let s1 := send W (Fetch url) s in
  getBinanceFundingRate P W symbol s =
    match binance_premiumIndex W url with
    | Some {| ok := true; body := Some data |} =>
        (Return (Some (FundingRate.make symbol
                         (mul (Str.parseFloat (lastFundingRate data)) (of_Z 8760))
                         (of_Z (clock s1)) "Binance"
                         (Str.parseInt (pi_nextFundingTime data)))), s1)
    | Some {| ok := true; body := None |} =>
        (Return None, add_log (log_error "Binance funding rate error for" symbol JsonFault) s1)
    | Some {| ok := false |} => (Return None, s1)
    | None =>
        (Return None, add_log (log_error "Binance funding rate error for" symbol FetchFault) s1)
    end.
Proof.
  cbv zeta. unfold getBinanceFundingRate, try_catch, mbind, M_bind, fetch, binance_funding_url.
  destruct (binance_premiumIndex W _) as [[[] [data|]]|]; reflexivity.
Qed.

Lemma getBybitFundingRate_run symbol s :
  let url := bybit_funding_url P symbol in
  let s1 := send W (Fetch url) s in
  getBybitFundingRate P W symbol s =
    match bybit_tickers W url with
    | Some {| ok := true; body := Some {| result_list := Some (ticker :: _) |} |} =>
        (Return (Some (FundingRate.make symbol
                         (mul (Str.parseFloat (by_fundingRate ticker)) (of_Z 8760))
                         (of_Z (clock s1)) "Bybit"
                         (Str.parseInt (by_nextFundingTime ticker)))), s1)
    | Some {| ok := true; body := Some _ |} =>
        (Return None, add_log (log_error "Bybit funding rate error for" symbol TypeFault) s1)
    | Some {| ok := true; body := None |} =>
        (Return None, add_log (log_error "Bybit funding rate error for" symbol JsonFault) s1)
    | Some {| ok := false |} => (Return None, s1)
    | None =>
        (Return None, add_log (log_error "Bybit funding rate error for" symbol FetchFault) s1)
    end.
Proof.
  cbv zeta. unfold getBybitFundingRate, try_catch, mbind, M_bind, fetch, bybit_funding_url.
  destruct (bybit_tickers W _) as [[[] [[[[|ticker rest]|]]|]]|]; reflexivity.
Qed.

Lemma getOkxFundingRate_run symbol s :
  let url := okx_funding_url P symbol in
  let s1 := send W (Fetch url) s in
  getOkxFundingRate P W symbol s =
    match okx_fundingRate W url with
    | Some {| ok := true; body := Some {| ox_data := Some (fundingData :: _) |} |} =>
        (Return (Some (FundingRate.make symbol
                         (mul (Str.parseFloat (ox_fundingRate fundingData)) (of_Z 8760))
                         (Str.parseInt (ox_fundingTime fundingData)) "OKX"
                         (Str.parseInt (ox_nextFundingTime fundingData)))), s1)
    | Some {| ok := true; body := Some _ |} =>
        (Return None, add_log (log_error "OKX funding rate error for" symbol TypeFault) s1)
    | Some {| ok := true; body := None |} =>
        (Return None, add_log (log_error "OKX funding rate error for" symbol JsonFault) s1)
    | Some {| ok := false |} => (Return None, s1)
    | None =>
        (Return None, add_log (log_error "OKX funding rate error for" symbol FetchFault) s1)
    end.
Proof.
  cbv zeta. unfold getOkxFundingRate, try_catch, mbind, M_bind, fetch, okx_funding_url.
  destruct (okx_fundingRate W _) as [[[] [[[[|row rest]|]]|]]|]; reflexivity.
Qed.

(** The three adapters never throw and only add their own request. *)
Lemma funding_adapters_send symbol s :
  (exists r, fst (getBinanceFundingRate P W symbol s) = Return r)
  /\ requests (snd (getBinanceFundingRate P W symbol s))
     = (requests s ++ [(clock s, Fetch (binance_funding_url P symbol))])%list
  /\ (exists r, fst (getBybitFundingRate P W symbol s) = Return r)
  /\ requests (snd (getBybitFundingRate P W symbol s))
     = (requests s ++ [(clock s, Fetch (bybit_funding_url P symbol))])%list
  /\ (exists r, fst (getOkxFundingRate P W symbol s) = Return r)
  /\ requests (snd (getOkxFundingRate P W symbol s))
     = (requests s ++ [(clock s, Fetch (okx_funding_url P symbol))])%list.
Proof.
  rewrite getBinanceFundingRate_run, getBybitFundingRate_run, getOkxFundingRate_run.
  repeat split.
  - destruct (binance_premiumIndex W _) as [[[] [data|]]|]; eauto.
  - destruct (binance_premiumIndex W _) as [[[] [data|]]|]; reflexivity.
  - destruct (bybit_tickers W _) as [[[] [[[[|ticker rest]|]]|]]|]; eauto.
  - destruct (bybit_tickers W _) as [[[] [[[[|ticker rest]|]]|]]|]; reflexivity.
  - destruct (okx_fundingRate W _) as [[[] [[[[|row rest]|]]|]]|]; eauto.
  - destruct (okx_fundingRate W _) as [[[] [[[[|row rest]|]]|]]|]; reflexivity.
Qed.

(** On a cache miss [getFundingRates] is the join of the three adapters,
    each started on the state the call began in. *)
Lemma getFundingRates_miss symbol s :
  rates_fresh P (of_Z (clock s)) (fundingRateCache s !! symbol) = false ->
  exists a b c sa sb sc,
    getBinanceFundingRate P W symbol s = (Return a, sa)
    /\ getBybitFundingRate P W symbol (set_clock (clock s) sa) = (Return b, sb)
    /\ getOkxFundingRate P W symbol (set_clock (clock s) sb) = (Return c, sc)
    /\ fst (getFundingRates P W symbol s) = Return (non_null [a; b; c])
    /\ requests (snd (getFundingRates P W symbol s)) = requests sc.
Proof.
  intros Hmiss.
  destruct (funding_adapters_send symbol s) as ((a & Ha) & _).
  destruct (getBinanceFundingRate P W symbol s) as [ra sa] eqn:Ea. simpl in Ha. subst ra.
  destruct (funding_adapters_send symbol (set_clock (clock s) sa)) as (_ & _ & (b & Hb) & _).
  destruct (getBybitFundingRate P W symbol (set_clock (clock s) sa)) as [rb sb] eqn:Eb.
  simpl in Hb. subst rb.
  destruct (funding_adapters_send symbol (set_clock (clock s) sb))
    as (_ & _ & _ & _ & (c & Hc) & _).
  destruct (getOkxFundingRate P W symbol (set_clock (clock s) sb)) as [rc sc] eqn:Ec.
  simpl in Hc. subst rc.
  exists a, b, c, sa, sb, sc. repeat split; try assumption; try reflexivity.
  - unfold getFundingRates, try_catch, mbind, M_bind, gets, Date_now. cbn.
    rewrite Hmiss. unfold Promise_all3. rewrite Ea, Eb, Ec. cbn.
    destruct (non_null [a; b; c]); reflexivity.
  - unfold getFundingRates, try_catch, mbind, M_bind, gets, Date_now. cbn.
    rewrite Hmiss. unfold Promise_all3. rewrite Ea, Eb, Ec. cbn.
    destruct (non_null [a; b; c]); reflexivity.
Qed.

End FundingRuns.

Section FundingOutcomes.

Variable P : Provider.
Variable W : World.

Lemma getBinanceFundingRate_unavailable symbol s :
  unavailable (binance_premiumIndex W (binance_funding_url P symbol)) ->
  fst (getBinanceFundingRate P W symbol s) = Return None.
Proof.
  rewrite getBinanceFundingRate_run.
  destruct (binance_premiumIndex W _) as [[[] [data|]]|]; simpl; intros H;
    try reflexivity; destruct H; try discriminate; contradiction.
Qed.

Lemma getBybitFundingRate_failing symbol s :
  failing no_tickers (bybit_tickers W (bybit_funding_url P symbol)) ->
  fst (getBybitFundingRate P W symbol s) = Return None.
Proof.
  rewrite getBybitFundingRate_run.
  destruct (bybit_tickers W _) as [[[] [[[[|ticker rest]|]]|]]|]; simpl; intros H;
    try reflexivity; destruct H as [H|[H|H]]; discriminate.
Qed.



Lemma getOkxFundingRate_failing symbol s :
  failing no_rows (okx_fundingRate W (okx_funding_url P symbol)) ->
  fst (getOkxFundingRate P W symbol s) = Return None.
Proof.
  rewrite getOkxFundingRate_run.
  destruct (okx_fundingRate W _) as [[[] [[[[|row rest]|]]|]]|]; simpl; intros H;
    try reflexivity; destruct H as [H|[H|H]]; discriminate.
Qed.


Lemma getBinanceFundingRate_ok symbol s data :
  binance_premiumIndex W (binance_funding_url P symbol)
    = Some {| ok := true; body := Some data |} ->
  fst (getBinanceFundingRate P W symbol s) =
    Return (Some (FundingRate.make symbol
                    (mul (Str.parseFloat (lastFundingRate data)) (of_Z 8760))
                    (of_Z (clock s + Z.of_N (latency W (Fetch (binance_funding_url P symbol)))))
                    "Binance" (Str.parseInt (pi_nextFundingTime data)))).
Proof. intros H. rewrite getBinanceFundingRate_run, H. reflexivity. Qed.




End FundingOutcomes.

(** ** C4 *)



Example annualised_rate_value :
  mul (Str.parseFloat (Some "0.0001")) (of_Z 8760) = of_decimal false 876 (-3).
Proof. vm_compute. reflexivity. Qed.

(** ** C7 *)

(** C7, at its failing input. Binance answers 200 with a JSON object that
    has neither [lastFundingRate] nor [nextFundingTime]; Bybit and OKX are
    unreachable. [getFundingRates("BTC")] returns one entry, for Binance,
    whose [rate] and [nextFundingTime] are both NaN: the entry is not
    discarded. *)
Theorem missing_funding_field_yields_NaN_entry :
  fst (getFundingRates Demo.P0 DemoMissingField.W "BTC" (initial Demo.t0)) =
    Return [FundingRate.make "BTC" NaN (of_Z (Demo.t0 + 100)) "Binance" NaN].
Proof. vm_compute. reflexivity. Qed.

(** The same in every world: a 200 answer from Binance always yields an
    entry, and without the rate field that entry's rate is NaN. *)
Lemma binance_entry_without_rate_is_NaN P W symbol s data :
  rates_fresh P (of_Z (clock s)) (fundingRateCache s !! symbol) = false ->
  binance_premiumIndex W (binance_funding_url P symbol)
    = Some {| ok := true; body := Some data |} ->
  lastFundingRate data = None ->
  exists entry rest,
    fst (getFundingRates P W symbol s) = Return (entry :: rest)
    /\ FundingRate.exchange entry = "Binance"
    /\ FundingRate.rate entry = NaN.
Proof.
  intros Hmiss Hbn Hnone.
  destruct (getFundingRates_miss P W symbol s Hmiss)
    as (a & b & c & sa & sb & sc & Ea & _ & _ & -> & _).
  apply (f_equal fst) in Ea. simpl in Ea.
  rewrite (getBinanceFundingRate_ok P W symbol s data Hbn) in Ea. injection Ea as <-.
  eexists. eexists. split; [reflexivity|]. split; [reflexivity|].
  simpl. rewrite Hnone. reflexivity.
Qed.

(** ** C5: faults and what the adapters make of them *)

Lemma total_ret {A : Type} (a : A) : total (mret a).
Proof. intros s. exists a. reflexivity. Qed.

Lemma total_bind {A B : Type} (m : M A) (f : A -> M B) :
  total m -> (forall a, total (f a)) -> total (m ≫= f).
Proof.
  intros Hm Hf s. unfold mbind, M_bind.
  destruct (Hm s) as [a Ha]. destruct (m s) as [r s1]. simpl in Ha. subst r.
  apply Hf.
Qed.

Lemma total_try_catch {A : Type} (m : M A) (h : Error -> M A) :
  (forall e, total (h e)) -> total (try_catch m h).
Proof.
  intros Hh s. unfold try_catch.
  destruct (m s) as [[a|e] s1]; [exists a; reflexivity | apply Hh].
Qed.

Lemma total_elizaLogger l t sym c : total (elizaLogger l t sym c).
Proof. intros s. exists tt. reflexivity. Qed.

Lemma total_log_using name symbol price : total (log_using name symbol price).
Proof. destruct price; [apply total_elizaLogger | apply total_ret]. Qed.

(** A handler that logs and answers [v]. *)
Lemma total_log_then {A : Type} l t sym c (v : A) : total (elizaLogger l t sym c;; mret v).
Proof. apply total_bind; [apply total_elizaLogger | intros; apply total_ret]. Qed.

Section NoEscape.

Variable P : Provider.
Variable W : World.

Lemma priority_total symbol a : In a (priority P W symbol) -> total a.
Proof.
  unfold priority. simpl.
  intros [<-|[<-|[<-|[<-|[<-|[]]]]]];
    unfold source1, source2, source3, source4, source5.
  - apply total_bind; [apply total_try_catch; intros; apply total_log_then|].
    intros price. apply total_bind; [apply total_log_using | intros; apply total_ret].
  - apply total_bind; [apply total_try_catch; intros; apply total_log_then|].
    intros price. apply total_bind; [apply total_log_using | intros; apply total_ret].
  - unfold legacyPrice. destruct (Str.includes _ _); [|apply total_ret].
    apply total_try_catch; intros; apply total_log_then.
  - apply total_bind; [apply total_try_catch; intros; apply total_log_then|].
    intros price. apply total_bind; [apply total_log_using | intros; apply total_ret].
  - apply total_bind; [apply total_try_catch; intros; apply total_log_then|].
    intros price. apply total_bind; [apply total_log_using | intros; apply total_ret].
Qed.

Hypothesis Hdown : all_sources_failing W.

Lemma readContract_down address functionName args s :
  readContract W address functionName args s
  = (Throw RpcFault, send W (ReadContract address functionName args) s).
Proof.
  unfold readContract. destruct Hdown as (Hchain & _). rewrite Hchain. reflexivity.
Qed.

Lemma getYeiMultiOraclePrice_down symbol s :
  exists s', getYeiMultiOraclePrice P W symbol s = (Return None, s').
Proof.
  unfold getYeiMultiOraclePrice, try_catch, mbind, M_bind.
  destruct (truthy_string _) as [address|]; [rewrite readContract_down|];
    eexists; reflexivity.
Qed.

Lemma getCoinGeckoPrice_down symbol s :
  exists s', getCoinGeckoPrice W symbol s = (Return None, s').
Proof.
  unfold getCoinGeckoPrice, try_catch, mbind, M_bind, fetch.
  destruct (Str.prop coinGeckoIds _) as [coinId|]; [|eexists; reflexivity].
  destruct Hdown as (_ & Hcg & _). specialize (Hcg
    ("https://api.coingecko.com/api/v3/simple/price?ids=" ++ coinId ++ "&vs_currencies=usd")).
  destruct (coingecko W _) as [[[] [data|]]|]; simpl in *;
    try (eexists; reflexivity); destruct Hcg as [Hcg|Hcg]; try discriminate; try contradiction.
  destruct (Str.prop data coinId) as [[usd|]|] eqn:Hp; try (eexists; reflexivity).
  exfalso. exact (Hcg coinId usd Hp).
Qed.

Lemma getPythPrice_down symbol s :
  exists s', getPythPrice P W symbol s = (Return None, s').
Proof.
  unfold getPythPrice, try_catch, mbind, M_bind.
  destruct (Str.prop _ symbol) as [feedId|]; [rewrite readContract_down|];
    eexists; reflexivity.
Qed.

Lemma getCexPrice_down symbol s :
  exists s', getCexPrice P W symbol s = (Return None, s').
Proof.
  unfold getCexPrice, try_catch, mbind, M_bind, fetch.
  destruct (Str.includes cexSupportedSymbols symbol); simpl; [|eexists; reflexivity].
  destruct Hdown as (_ & _ & Htk & _). specialize (Htk
    (binance (OracleConfig.cexApis (config P)) ++ "/ticker/price?symbol=" ++ symbol ++ "USDT")).
  destruct (binance_ticker W _) as [[[] [data|]]|]; simpl in *;
    try (eexists; reflexivity); destruct Htk as [Htk|Htk]; try discriminate; try contradiction.
  unfold no_ticker_price in Htk. rewrite Htk. eexists. reflexivity.
Qed.

Lemma getAPI3Price_down symbol s :
  exists e s', getAPI3Price P W symbol s = (Throw e, s').
Proof.
  unfold getAPI3Price, getAPI3dApiId, mbind, M_bind.
  destruct (Str.prop dApiIds _) as [dApiId|]; simpl.
  - rewrite readContract_down. eexists. eexists. reflexivity.
  - eexists. eexists. reflexivity.
Qed.

Lemma getRedstonePrice_down symbol s :
  exists e s', getRedstonePrice P W symbol s = (Throw e, s').
Proof.
  unfold getRedstonePrice, mbind, M_bind.
  destruct (Str.includes _ symbol); simpl.
  - rewrite readContract_down. eexists. eexists. reflexivity.
  - eexists. eexists. reflexivity.
Qed.

Lemma getYeiPrice_down symbol s :
  exists e s', getYeiPrice P W symbol s = (Throw e, s').
Proof.
  unfold getYeiPrice, try_catch, mbind, M_bind.
  destruct (getAPI3Price_down symbol s) as (e1 & s1 & ->). cbn.
  destruct (getPythPrice_down symbol
              (add_log {| level := LError; text := "YEI API3 price fetch failed for";
                          about := symbol; cause := Some e1 |} s1)) as (s2 & ->). cbn.
  destruct (getRedstonePrice_down symbol s2) as (e3 & s3 & ->). cbn.
  eexists. eexists. reflexivity.
Qed.

Lemma legacyPrice_down symbol s :
  exists s', legacyPrice P W symbol s = (Return None, s').
Proof.
  unfold legacyPrice. destruct (Str.includes _ _); [|eexists; reflexivity].
  unfold try_catch, mbind, M_bind.
  destruct (getYeiPrice_down symbol s) as (e & s1 & ->). cbn. eexists. reflexivity.
Qed.

Lemma priority_down symbol a :
  In a (priority P W symbol) -> forall s, exists s', a s = (Return None, s').
Proof.
  unfold priority. simpl.
  intros [<-|[<-|[<-|[<-|[<-|[]]]]]] s;
    unfold source1, source2, source3, source4, source5, mbind, M_bind.
  - destruct (getYeiMultiOraclePrice_down symbol s) as (s' & ->). eexists. reflexivity.
  - destruct (getCoinGeckoPrice_down symbol s) as (s' & ->). eexists. reflexivity.
  - apply legacyPrice_down.
  - destruct (getPythPrice_down symbol s) as (s' & ->). eexists. reflexivity.
  - destruct (getCexPrice_down symbol s) as (s' & ->). eexists. reflexivity.
Qed.

Lemma first_quote_all_none (l : list (M (option PriceFeed.t))) :
  (forall a, In a l -> forall s, exists s', a s = (Return None, s')) ->
  forall s, exists s', first_quote l s = (Return None, s').
Proof.
  induction l as [|a l IH]; intros H s; simpl.
  - eexists. reflexivity.
  - unfold mbind, M_bind. destruct (H a (or_introl eq_refl) s) as (s1 & ->).
    apply IH. intros b Hb. apply H. right. exact Hb.
Qed.

End NoEscape.

(** What does hold of faults. [getPrice] and [getFundingRates] always
    return normally, never throw; none of the five sources of the cascade can
    throw, so a failing source only hands over to the next: on a miss, when
    the sources tried so far have yielded nothing, [getPrice] goes on with
    the sources that remain, from the state the tried ones left. When every
    source fails (chain reads rejected; HTTP fetches rejected, answered with a
    non-2xx status, with a body that does not parse, or with a payload lacking
    the price, the ticker list or the row list), every prefix of the source
    list yields nothing, [getPrice] returns null and [getFundingRates] returns
    the empty list. *)
Theorem faults_never_escape :
  forall P W symbol s,
    (exists r s', getPrice P W symbol s = (Return r, s'))
    /\ (exists r s', getFundingRates P W symbol s = (Return r, s'))
    /\ (forall a, In a (priority P W symbol) -> total a)
    /\ (forall (tried rest : list (M (option PriceFeed.t))) s1,
          priority P W symbol = (tried ++ rest)%list ->
          price_fresh P (of_Z (clock s)) (priceCache s !! symbol) = false ->
          first_quote tried s = (Return None, s1) ->
          getPrice P W symbol s =
            try_catch (price ← first_quote rest; store_valid symbol price)
              (fun error =>
                 elizaLogger LError "Failed to get price for" symbol (Some error);;
                 mret None) s1)
    /\ (all_sources_failing W ->
        (forall tried rest : list (M (option PriceFeed.t)),
            priority P W symbol = (tried ++ rest)%list ->
            exists s1, first_quote tried s = (Return None, s1)
                       /\ first_quote (priority P W symbol) s = first_quote rest s1)
        /\ (price_fresh P (of_Z (clock s)) (priceCache s !! symbol) = false ->
            fst (getPrice P W symbol s) = Return None)
        /\ (rates_fresh P (of_Z (clock s)) (fundingRateCache s !! symbol) = false ->
            fst (getFundingRates P W symbol s) = Return [])).
Proof.
  intros P W symbol s. split; [|split; [|split; [|split]]].
  - destruct (getPrice_total P W symbol s) as [r Hr].
    destruct (getPrice P W symbol s) as [r' s']. simpl in Hr. subst r'. eauto.
  - destruct (getFundingRates_total P W symbol s) as [r Hr].
    destruct (getFundingRates P W symbol s) as [r' s']. simpl in Hr. subst r'. eauto.
  - apply priority_total.
  - intros tried rest s1 Hsplit Hmiss Htried.
    rewrite getPrice_miss by exact Hmiss.
    unfold try_catch, resolvePrice_spec, mbind, M_bind. rewrite Hsplit.
    rewrite (first_quote_continue tried rest s s1 Htried). reflexivity.
  - intros Hdown. split; [|split].
    + intros tried rest Hsplit.
      destruct (first_quote_all_none tried) with (s := s) as (s1 & Htried).
      { intros a Ha. apply (priority_down P W Hdown symbol). rewrite Hsplit.
        apply in_or_app. left. exact Ha. }
      exists s1. split; [exact Htried|]. rewrite Hsplit.
      apply first_quote_continue. exact Htried.
    + intros Hmiss. rewrite getPrice_miss by exact Hmiss.
      unfold try_catch, resolvePrice_spec, mbind, M_bind.
      destruct (first_quote_all_none (priority P W symbol)
                  (priority_down P W Hdown symbol) s) as (s1 & ->).
      reflexivity.
    + intros Hmiss.
      destruct (getFundingRates_miss P W symbol s Hmiss)
        as (a & b & c & sa & sb & sc & Ea & Eb & Ec & -> & _).
      destruct Hdown as (_ & _ & _ & Hbn & Hbb & Hox).
      apply (f_equal fst) in Ea, Eb, Ec. simpl in Ea, Eb, Ec.
      rewrite (getBinanceFundingRate_unavailable P W symbol s (Hbn _)) in Ea.
      rewrite (getBybitFundingRate_failing P W symbol _ (Hbb _)) in Eb.
      rewrite (getOkxFundingRate_failing P W symbol _ (Hox _)) in Ec.
      injection Ea as <-. injection Eb as <-. injection Ec as <-. reflexivity.
Qed.

Lemma DemoFaults_failing : all_sources_failing DemoFaults.W.
Proof.
  unfold all_sources_failing, unavailable, failing, no_usd, no_tickers. simpl.
  repeat split; auto.
Qed.

(** C5, at its failing input. The chain rejects every read, CoinGecko
    answers 500 and Binance's ticker answers 200 without a price: [getPrice]
    returns null, as the claim says. Binance's funding endpoint answers 503,
    OKX's fetch is rejected, and Bybit answers 200 with a first row that has
    none of the fields: [getFundingRates("BTC")] does not return the empty
    list but one entry, for Bybit, whose [rate] and [nextFundingTime] are
    NaN. *)
Theorem malformed_funding_payload_yields_entry :
  let s := initial Demo.t0 in
  fst (getPrice Demo.P0 DemoMalformed.W "BTC" s) = Return None
  /\ fst (getFundingRates Demo.P0 DemoMalformed.W "BTC" s)
     = Return [FundingRate.make "BTC" NaN (of_Z (Demo.t0 + 100)) "Bybit" NaN].
Proof. vm_compute. split; reflexivity. Qed.

Lemma faults_never_escape_witness :
  let s := initial Demo.t0 in
  fst (getPrice Demo.P0 DemoFaults.W "SEI" s) = Return None
  /\ fst (getFundingRates Demo.P0 DemoFaults.W "SEI" s) = Return []
  /\ exists s1,
       first_quote [source1 Demo.P0 DemoFaults.W "SEI"; source2 DemoFaults.W "SEI"] s
         = (Return None, s1)
       /\ first_quote (priority Demo.P0 DemoFaults.W "SEI") s
          = first_quote [source3 Demo.P0 DemoFaults.W "SEI"; source4 Demo.P0 DemoFaults.W "SEI";
                         source5 Demo.P0 DemoFaults.W "SEI"] s1.
Proof.
  intros s.
  destruct (faults_never_escape Demo.P0 DemoFaults.W "SEI" s) as (_ & _ & _ & _ & H).
  destruct (H DemoFaults_failing) as (Hcascade & Hprice & Hrates).
  split; [|split].
  - apply Hprice. vm_compute. reflexivity.
  - apply Hrates. vm_compute. reflexivity.
  - apply (Hcascade [source1 Demo.P0 DemoFaults.W "SEI"; source2 DemoFaults.W "SEI"]).
    reflexivity.
Defined.

(** ** C6: the legacy cascade *)

Lemma not_nonpositive_gtb v :
  isNaN v || leb v zero = false -> gtb v zero = true.
Proof.
  destruct v as [sx|sx| |sx m e]; try destruct sx; vm_compute; congruence.
Qed.

Section LegacyRuns.

Variable P : Provider.
Variable W : World.

Lemma getYeiPrice_refines symbol s :
  getYeiPrice P W symbol s = getYeiPrice_spec P W symbol s.
Proof.
  unfold getYeiPrice, getYeiPrice_spec, levels, first_level, level_api3, level_pyth,
    level_redstone, try_catch, mbind, M_bind.
  destruct (getAPI3Price P W symbol s) as [[p1|e1] s1]; cbn;
    [destruct (positive_number p1); cbn; [reflexivity|]|];
    (match goal with
     | |- context [getPythPrice P W symbol ?st] =>
         destruct (getPythPrice P W symbol st) as [[[q|]|e2] s2]; cbn;
         [destruct (gtb (PriceFeed.price q) zero); cbn; [reflexivity|]| |]
     end);
    (match goal with
     | |- context [getRedstonePrice P W symbol ?st] =>
         destruct (getRedstonePrice P W symbol st) as [[p3|e3] s3]; cbn;
         [destruct (positive_number p3); cbn; reflexivity|reflexivity]
     end).
Qed.

Lemma getAPI3Price_read symbol s dApiId value stamp :
  Str.prop dApiIds (Str.toUpperCase symbol) = Some dApiId ->
  chain W (api3ContractAddress (yeiConfig P)) "readDataFeed" [dApiId] = Some [value; stamp] ->
  let s1 := send W (ReadContract (api3ContractAddress (yeiConfig P)) "readDataFeed" [dApiId]) s in
  getAPI3Price P W symbol s =
    if gtb (sub (Math_floor (div (of_Z (clock s1)) (of_Z 1000))) (of_Z stamp)) (of_Z 3600)
    then (Throw (Raised "API3 price data too old for" symbol), s1)
    else (Return (div (of_Z value) (of_Z (10 ^ 18))), s1).
Proof.
  intros Hid Hread. unfold getAPI3Price, getAPI3dApiId, mbind, M_bind, readContract.
  rewrite Hid. cbn. rewrite Hread. cbn.
  destruct (gtb _ _); reflexivity.
Qed.

Lemma getPythPrice_read symbol s feedId price conf expo publishTime :
  Str.prop (OracleConfig.pythPriceFeeds (config P)) symbol = Some feedId ->
  chain W pythAddress "getPriceUnsafe" [feedId] = Some [price; conf; expo; publishTime] ->
  let s1 := send W (ReadContract pythAddress "getPriceUnsafe" [feedId]) s in
  let priceValue := mul (of_Z price) (pow10 expo) in
  getPythPrice P W symbol s =
    if (price =? 0) || (isNaN priceValue || leb priceValue zero)
    then (Return None, s1)
    else (Return (Some (PriceFeed.make symbol priceValue (mul (of_Z publishTime) (of_Z 1000))
                          "pyth" (mul (of_Z conf) (pow10 expo)))), s1).
Proof.
  intros Hid Hread. unfold getPythPrice, try_catch, mbind, M_bind, readContract.
  rewrite Hid, Hread. cbn.
  destruct (price =? 0); [reflexivity|]. cbn.
  destruct (isNaN _ || leb _ _); reflexivity.
Qed.

Lemma getRedstonePrice_read symbol s price timestamp :
  Str.includes ["USDT"; "USDC"] symbol = true ->
  chain W (redstoneContractAddress (yeiConfig P)) "getLatestRoundData"
    [stringToBytes32 (symbol ++ "/USD")] = Some [price; timestamp] ->
  getRedstonePrice P W symbol s =
    (Return (div (of_Z price) (of_Z (10 ^ 8))),
     send W (ReadContract (redstoneContractAddress (yeiConfig P)) "getLatestRoundData"
               [stringToBytes32 (symbol ++ "/USD")]) s).
Proof.
  intros Hin Hread. unfold getRedstonePrice, mbind, M_bind, readContract.
  rewrite Hin. cbn. rewrite Hread. reflexivity.
Qed.

End LegacyRuns.

(** C6, as amended. The legacy adapter does nothing for a symbol whose
    upper-case form is outside {BTC, ETH, SEI, USDC, USDT}. Inside, it tries
    the API3 level, then the Pyth level, then the Redstone level, and the
    first positive price wins. Only the API3 level looks at the age of its
    observation: it yields nothing when the observation is more than 3600
    seconds old. The Pyth level accepts a positive price whatever its
    publish time; the Redstone level, which sends its request only for
    "USDT" and "USDC", accepts a positive price whatever its timestamp. *)
Theorem legacy_cascade_only_api3_checks_age :
  forall P W symbol s,
    getYeiPrice P W symbol s = getYeiPrice_spec P W symbol s
    /\ (Str.includes yeiSupportedSymbols (Str.toUpperCase symbol) = false ->
        legacyPrice P W symbol s = (Return None, s))
    /\ (forall dApiId value stamp,
          Str.prop dApiIds (Str.toUpperCase symbol) = Some dApiId ->
          chain W (api3ContractAddress (yeiConfig P)) "readDataFeed" [dApiId]
            = Some [value; stamp] ->
          let arrival := clock s + Z.of_N (latency W
            (ReadContract (api3ContractAddress (yeiConfig P)) "readDataFeed" [dApiId])) in
          let age := sub (Math_floor (div (of_Z arrival) (of_Z 1000))) (of_Z stamp) in
          let price := div (of_Z value) (of_Z (10 ^ 18)) in
          (gtb age (of_Z 3600) = true -> fst (level_api3 P W symbol s) = Return None)
          /\ (gtb age (of_Z 3600) = false -> positive_number price = true ->
              fst (level_api3 P W symbol s) = Return (Some price)))
    /\ (forall feedId price conf expo publishTime,
          Str.prop (OracleConfig.pythPriceFeeds (config P)) symbol = Some feedId ->
          chain W pythAddress "getPriceUnsafe" [feedId]
            = Some [price; conf; expo; publishTime] ->
          price <> 0 ->
          isNaN (mul (of_Z price) (pow10 expo)) || leb (mul (of_Z price) (pow10 expo)) zero
            = false ->
          fst (level_pyth P W symbol s) = Return (Some (mul (of_Z price) (pow10 expo))))
    /\ (forall price timestamp,
          Str.includes ["USDT"; "USDC"] symbol = true ->
          chain W (redstoneContractAddress (yeiConfig P)) "getLatestRoundData"
            [stringToBytes32 (symbol ++ "/USD")] = Some [price; timestamp] ->
          positive_number (div (of_Z price) (of_Z (10 ^ 8))) = true ->
          fst (level_redstone P W symbol s) = Return (Some (div (of_Z price) (of_Z (10 ^ 8)))))
    /\ (Str.includes ["USDT"; "USDC"] symbol = false ->
        level_redstone P W symbol s =
          (Return None,
           add_log (log_error "YEI Redstone price fetch failed for" symbol
                      (Raised "Redstone feed not available for" symbol)) s)).
Proof.
  intros P W symbol s.
  split; [apply getYeiPrice_refines|]. split; [|split; [|split; [|split]]].
  - intros Hout. unfold legacyPrice. rewrite Hout. reflexivity.
  - intros dApiId value stamp Hid Hread arrival age price.
    unfold level_api3, try_catch, mbind, M_bind.
    rewrite (getAPI3Price_read P W symbol s dApiId value stamp Hid Hread).
    cbv zeta. change (clock (send W _ s)) with arrival. fold age. fold price.
    split.
    + intros ->. reflexivity.
    + intros -> Hpos. rewrite Hpos. reflexivity.
  - intros feedId price conf expo publishTime Hid Hread Hnz Hok.
    unfold level_pyth, try_catch, mbind, M_bind.
    rewrite (getPythPrice_read P W symbol s feedId price conf expo publishTime Hid Hread).
    cbv zeta. apply Z.eqb_neq in Hnz. rewrite Hnz, Hok. cbn.
    rewrite (not_nonpositive_gtb _ Hok). reflexivity.
  - intros price timestamp Hin Hread Hpos.
    unfold level_redstone, try_catch, mbind, M_bind.
    rewrite (getRedstonePrice_read P W symbol s price timestamp Hin Hread).
    rewrite Hpos. reflexivity.
  - intros Hout. unfold level_redstone, try_catch, getRedstonePrice, mbind, M_bind.
    rewrite Hout. reflexivity.
Qed.

(** C6 as stated fails: with API3 unreachable, the Pyth level accepts for
    "ETH" a price published at epoch second 0. *)
Lemma pyth_level_accepts_stale_observation : ~ every_legacy_level_checks_freshness.
Proof.
  intros H.
  destruct (H Demo.P0 DemoLegacy.W "ETH" (initial Demo.t0)) as (_ & Hpyth & _).
  specialize (Hpyth DemoLegacy.ethFeed 300000000000 150000000 (-8) 0
                ltac:(vm_compute; reflexivity) ltac:(vm_compute; reflexivity)
                ltac:(vm_compute; reflexivity)).
  vm_compute in Hpyth. discriminate Hpyth.
Qed.

Example legacy_stale_run :
  fst (getPrice Demo.P0 DemoLegacy.W "ETH" (initial Demo.t0)) =
    Return (Some (PriceFeed.make "ETH" (of_Z 3000) (of_Z (Demo.t0 + 400)) "yei-legacy-oracle"
                    (of_decimal false 95 (-2))))
  /\ fst (getYeiPrice Demo.P0 DemoLegacy.W "USDT" (initial Demo.t0)) = Return (of_Z 1).
Proof. vm_compute. split; reflexivity. Qed.

Lemma legacy_cascade_only_api3_checks_age_witness :
  let s := initial Demo.t0 in
  legacyPrice Demo.P0 DemoLegacy.W "DOGE" s = (Return None, s)
  /\ fst (level_api3 Demo.P0 (DemoApi3.W (Demo.t0 / 1000 - 7200)) "ETH" s) = Return None
  /\ fst (level_api3 Demo.P0 (DemoApi3.W (Demo.t0 / 1000 - 60)) "ETH" s)
     = Return (Some (div (of_Z (3000 * 10 ^ 18)) (of_Z (10 ^ 18))))
  /\ fst (level_pyth Demo.P0 DemoLegacy.W "ETH" s)
     = Return (Some (mul (of_Z 300000000000) (pow10 (-8))))
  /\ fst (level_redstone Demo.P0 DemoLegacy.W "USDT" s)
     = Return (Some (div (of_Z 100000000) (of_Z (10 ^ 8))))
  /\ level_redstone Demo.P0 DemoLegacy.W "ETH" s
     = (Return None,
        add_log (log_error "YEI Redstone price fetch failed for" "ETH"
                   (Raised "Redstone feed not available for" "ETH")) s).
Proof.
  intros s.
  split; [|split; [|split; [|split; [|split]]]].
  - apply (legacy_cascade_only_api3_checks_age Demo.P0 DemoLegacy.W "DOGE" s).
    vm_compute. reflexivity.
  - destruct (legacy_cascade_only_api3_checks_age Demo.P0
                (DemoApi3.W (Demo.t0 / 1000 - 7200)) "ETH" s) as (_ & _ & H & _).
    apply (H DemoLegacy.ethFeed (3000 * 10 ^ 18) (Demo.t0 / 1000 - 7200));
      vm_compute; reflexivity.
  - destruct (legacy_cascade_only_api3_checks_age Demo.P0
                (DemoApi3.W (Demo.t0 / 1000 - 60)) "ETH" s) as (_ & _ & H & _).
    apply (H DemoLegacy.ethFeed (3000 * 10 ^ 18) (Demo.t0 / 1000 - 60));
      vm_compute; reflexivity.
  - destruct (legacy_cascade_only_api3_checks_age Demo.P0 DemoLegacy.W "ETH" s)
      as (_ & _ & _ & H & _).
    apply (H DemoLegacy.ethFeed 300000000000 150000000 (-8) 0);
      vm_compute; try reflexivity. discriminate.
  - destruct (legacy_cascade_only_api3_checks_age Demo.P0 DemoLegacy.W "USDT" s)
      as (_ & _ & _ & _ & H & _).
    apply (H 100000000 0); vm_compute; reflexivity.
  - apply (legacy_cascade_only_api3_checks_age Demo.P0 DemoLegacy.W "ETH" s).
    vm_compute. reflexivity.
Defined.

(** ** C3: what the cache window is measured from *)

Section Stamps.

Variable P : Provider.
Variable W : World.

Lemma getYeiMultiOraclePrice_source symbol s q s' :
  getYeiMultiOraclePrice P W symbol s = (Return (Some q), s') ->
  PriceFeed.source q = "YEI Multi-Oracle".
Proof.
  unfold getYeiMultiOraclePrice, try_catch, mbind, M_bind, readContract.
  destruct (truthy_string _) as [address|]; cbn; [|discriminate].
  destruct (chain W address "getLatestPrice" []) as [[|p [|t [|d [|x l]]]]|]; cbn;
    try discriminate.
  destruct (p =? 0); cbn; [discriminate|].
  destruct (gtb _ _); cbn; intros [= <- _]; reflexivity.
Qed.

Lemma getPythPrice_source symbol s q s' :
  getPythPrice P W symbol s = (Return (Some q), s') -> PriceFeed.source q = "pyth".
Proof.
  unfold getPythPrice, try_catch, mbind, M_bind, readContract.
  destruct (Str.prop _ symbol) as [feedId|]; cbn; [|discriminate].
  destruct (chain W pythAddress "getPriceUnsafe" [feedId])
    as [[|p [|c [|x [|t [|y l]]]]]|]; cbn; try discriminate.
  destruct (p =? 0); cbn; [discriminate|].
  destruct (isNaN _ || leb _ _); cbn; [discriminate|]. intros [= <- _]. reflexivity.
Qed.

Lemma getCoinGeckoPrice_stamp symbol s q s' :
  getCoinGeckoPrice W symbol s = (Return (Some q), s') ->
  PriceFeed.timestamp q = of_Z (clock s').
Proof.
  unfold getCoinGeckoPrice, try_catch, mbind, M_bind, fetch.
  destruct (Str.prop coinGeckoIds _) as [coinId|]; cbn; [|discriminate].
  destruct (coingecko W _) as [[[] [data|]]|]; cbn; try discriminate.
  destruct (Str.prop data coinId) as [[usd|]|]; cbn; try discriminate.
  destruct (negb (truthy _) || isNaN _ || leb _ zero); cbn; [discriminate|].
  intros [= <- <-]. reflexivity.
Qed.

Lemma getCexPrice_stamp symbol s q s' :
  getCexPrice P W symbol s = (Return (Some q), s') ->
  PriceFeed.timestamp q = of_Z (clock s').
Proof.
  unfold getCexPrice, try_catch, mbind, M_bind, fetch.
  destruct (Str.includes cexSupportedSymbols symbol); cbn; [|discriminate].
  destruct (binance_ticker W _) as [[[] [data|]]|]; cbn; try discriminate.
  destruct (isNaN _ || leb _ _); cbn; [discriminate|].
  intros [= <- <-]. reflexivity.
Qed.

Lemma legacyPrice_stamp symbol s q s' :
  legacyPrice P W symbol s = (Return (Some q), s') ->
  PriceFeed.timestamp q = of_Z (clock s').
Proof.
  unfold legacyPrice, try_catch, mbind, M_bind.
  destruct (Str.includes _ _); cbn; [|discriminate].
  destruct (getYeiPrice P W symbol s) as [[p|e] s1]; cbn; [|discriminate].
  destruct (positive_number p); cbn; [|discriminate].
  intros [= <- <-]. reflexivity.
Qed.









(** A quote stamped on arrival carries the time at which its source
    finished, whichever source of the list it came from. *)
Lemma priority_stamps symbol a :
  In a (priority P W symbol) ->
  forall s q s', a s = (Return (Some q), s') ->
    stamped_on_arrival q = true -> PriceFeed.timestamp q = of_Z (clock s').
Proof.
  unfold priority. simpl.
  intros [<-|[<-|[<-|[<-|[<-|[]]]]]] s q s';
    unfold source1, source2, source3, source4, source5, mbind, M_bind.
  - destruct (getYeiMultiOraclePrice P W symbol s) as [[[q1|]|e] s1] eqn:E; cbn;
      try discriminate.
    intros [= <- <-] Hst. apply getYeiMultiOraclePrice_source in E.
    unfold stamped_on_arrival in Hst. rewrite E in Hst. vm_compute in Hst. discriminate.
  - destruct (getCoinGeckoPrice W symbol s) as [[[q1|]|e] s1] eqn:E; cbn; try discriminate.
    intros [= <- <-] _. apply getCoinGeckoPrice_stamp in E. exact E.
  - intros E _. apply legacyPrice_stamp in E. exact E.
  - destruct (getPythPrice P W symbol s) as [[[q1|]|e] s1] eqn:E; cbn; try discriminate.
    intros [= <- <-] Hst. apply getPythPrice_source in E.
    unfold stamped_on_arrival in Hst. rewrite E in Hst. vm_compute in Hst. discriminate.
  - destruct (getCexPrice P W symbol s) as [[[q1|]|e] s1] eqn:E; cbn; try discriminate.
    intros [= <- <-] _. apply getCexPrice_stamp in E. exact E.
Qed.

Lemma first_quote_stamps (l : list (M (option PriceFeed.t))) :
  (forall a, In a l -> forall s q s', a s = (Return (Some q), s') ->
      stamped_on_arrival q = true -> PriceFeed.timestamp q = of_Z (clock s')) ->
  forall s q s', first_quote l s = (Return (Some q), s') ->
    stamped_on_arrival q = true -> PriceFeed.timestamp q = of_Z (clock s').
Proof.
  induction l as [|a l IH]; intros H s q s'; simpl.
  - discriminate.
  - unfold mbind, M_bind. destruct (a s) as [[[q1|]|e] s1] eqn:E; cbn.
    + intros [= <- <-]. apply (H a (or_introl eq_refl) s q1 s1 E).
    + apply IH. intros b Hb. apply H. right. exact Hb.
    + discriminate.
Qed.

(** A quote that a cache miss stores, if stamped on arrival, carries the
    time of its insertion. *)
Lemma getPrice_stamps symbol s q s' :
  price_fresh P (of_Z (clock s)) (priceCache s !! symbol) = false ->
  getPrice P W symbol s = (Return (Some q), s') ->
  stamped_on_arrival q = true ->
  PriceFeed.timestamp q = of_Z (clock s').
Proof.
  intros Hmiss. rewrite getPrice_miss by exact Hmiss.
  unfold try_catch, resolvePrice_spec, mbind, M_bind.
  destruct (first_quote (priority P W symbol) s) as [[[q1|]|e] s1] eqn:E; cbn;
    try discriminate.
  unfold store_valid. destruct (valid_price q1); cbn; [|discriminate].
  intros [= <- <-]. cbn.
  apply (first_quote_stamps (priority P W symbol) (priority_stamps symbol) s q1 s1 E).
Qed.

End Stamps.



Example stale_observation_run :
  let s1 := snd (getPrice Demo.P0 DemoStale.W "SEI" (initial Demo.t0)) in
  let later := set_clock (clock s1 + 1000) s1 in
  clock s1 = Demo.t0 + 100
  /\ length (requests s1) = 1%nat
  /\ length (requests (snd (getPrice Demo.P0 DemoStale.W "SEI" later))) = 2%nat.
Proof. vm_compute. repeat split. Qed.


(** * Beyond the claims *)

(** ** Strings *)

Lemma upper_ascii_idem c : Str.upper_ascii (Str.upper_ascii c) = Str.upper_ascii c.
Proof. destruct c as [[] [] [] [] [] [] [] []]; reflexivity. Qed.

Lemma upper_lower_ascii c : Str.upper_ascii (Text.lower_ascii c) = Str.upper_ascii c.
Proof. destruct c as [[] [] [] [] [] [] [] []]; reflexivity. Qed.

Lemma toUpperCase_idem s : Str.toUpperCase (Str.toUpperCase s) = Str.toUpperCase s.
Proof.
  induction s as [|c s IH]; [reflexivity|].
  unfold Str.toUpperCase in *. cbn. fold Str.toUpperCase in *.
  rewrite upper_ascii_idem. f_equal. exact IH.
Qed.

Lemma toUpperCase_cons c s :
  Str.toUpperCase (String c s) = String (Str.upper_ascii c) (Str.toUpperCase s).
Proof. reflexivity. Qed.

Lemma toLowerCase_cons c s :
  Text.toLowerCase (String c s) = String (Text.lower_ascii c) (Text.toLowerCase s).
Proof. reflexivity. Qed.

Lemma toUpperCase_lower s : Str.toUpperCase (Text.toLowerCase s) = Str.toUpperCase s.
Proof.
  induction s as [|c s IH]; [reflexivity|].
  rewrite toLowerCase_cons, !toUpperCase_cons, upper_lower_ascii, IH. reflexivity.
Qed.

Lemma toUpperCase_app a b :
  Str.toUpperCase (a ++ b) = Str.toUpperCase a ++ Str.toUpperCase b.
Proof.
  induction a as [|c a IH]; [reflexivity|].
  change (String c a ++ b) with (String c (a ++ b)).
  rewrite !toUpperCase_cons, IH. reflexivity.
Qed.

Lemma prefix_iff p s : String.prefix p s = true <-> exists b, s = p ++ b.
Proof.
  revert s. induction p as [|c p IH]; intros s.
  - split; [intros _; exists s; reflexivity | intros _; destruct s; reflexivity].
  - destruct s as [|d s].
    + split; [discriminate | intros [b Hb]; discriminate].
    + simpl. destruct (ascii_dec c d) as [->|Hne].
      * rewrite IH. split; intros [b Hb]; exists b.
        -- rewrite Hb. reflexivity.
        -- change (String d p ++ b) with (String d (p ++ b)) in Hb. congruence.
      * split; [discriminate|]. intros [b Hb].
        change (String c p ++ b) with (String c (p ++ b)) in Hb. congruence.
Qed.

Lemma includes_cons c s sub :
  Text.includes (String c s) sub = String.prefix sub (String c s) || Text.includes s sub.
Proof. reflexivity. Qed.

Lemma includes_iff s sub :
  Text.includes s sub = true <-> exists a b, s = a ++ sub ++ b.
Proof.
  induction s as [|c s IH].
  - unfold Text.includes. rewrite orb_false_r, prefix_iff. split.
    + intros [b Hb]. exists "", b. exact Hb.
    + intros (a & b & Hab). destruct a; [exists b; exact Hab | discriminate].
  - rewrite includes_cons, orb_true_iff, prefix_iff, IH. split.
    + intros [[b Hb]|(a & b & Hab)].
      * exists "", b. exact Hb.
      * exists (String c a), b. rewrite Hab. reflexivity.
    + intros (a & b & Hab). destruct a as [|d a].
      * left. exists b. exact Hab.
      * right. exists a, b. change (String d a ++ sub ++ b) with (String d (a ++ sub ++ b)) in Hab. congruence.
Qed.

Lemma string_app_assoc (a b c : string) : (a ++ b) ++ c = a ++ b ++ c.
Proof.
  induction a as [|x a IH]; [reflexivity|].
  change (String x (a ++ b) ++ c = String x (a ++ b ++ c)).
  change (String x ((a ++ b) ++ c) = String x (a ++ b ++ c)).
  rewrite IH. reflexivity.
Qed.

Lemma includes_embedded before s after sub :
  Text.includes s sub = true -> Text.includes (before ++ s ++ after) sub = true.
Proof.
  rewrite !includes_iff. intros (a & b & ->).
  exists (before ++ a), (b ++ after). rewrite !string_app_assoc. reflexivity.
Qed.

Lemma filter_sublist {A : Type} (f : A -> bool) (l : list A) : sublist (List.filter f l) l.
Proof.
  induction l as [|x l IH]; simpl; [constructor|].
  destruct (f x); [apply sublist_skip | apply sublist_cons]; exact IH.
Qed.

(** ** The provider's [extractSymbols] *)

(** X1. On ASCII text, a ticker is extracted exactly when it is one of the
    six and occurs in the text as a substring, letter case ignored (so
    "ethereum" yields ETH); the answer keeps the fixed order BTC, ETH, SEI,
    USDC, SOL, AVAX without repetition, does not depend on the case of the
    text, and loses nothing when the text is embedded in a longer one. *)
Theorem extractSymbols_substring_any_case :
  forall text,
    Text.is_ascii text = true ->
    (forall symbol,
        In symbol (extractSymbols text) <->
        In symbol querySymbols /\ exists a b, Str.toUpperCase text = a ++ symbol ++ b)
    /\ sublist (extractSymbols text) querySymbols
    /\ extractSymbols (Str.toUpperCase text) = extractSymbols text
    /\ extractSymbols (Text.toLowerCase text) = extractSymbols text
    /\ (forall before after symbol,
          Text.is_ascii before = true -> Text.is_ascii after = true ->
          In symbol (extractSymbols text) ->
          In symbol (extractSymbols (before ++ text ++ after))).
Proof.
  intros text _. unfold extractSymbols. split; [|split; [|split; [|split]]].
  - intros symbol. rewrite filter_In, includes_iff. reflexivity.
  - apply filter_sublist.
  - rewrite toUpperCase_idem. reflexivity.
  - rewrite toUpperCase_lower. reflexivity.
  - intros before after symbol _ _. rewrite !filter_In.
    intros [Hin Hocc]. split; [exact Hin|].
    rewrite !toUpperCase_app. apply includes_embedded. exact Hocc.
Qed.

Lemma extractSymbols_substring_any_case_witness :
  In "ETH" (extractSymbols "Tell me: what is ethereum worth? Thanks")
  /\ extractSymbols (Text.toLowerCase "AVAX, Sol and BTC") = ["BTC"; "SOL"; "AVAX"].
Proof.
  split.
  - apply (proj2 (proj2 (proj2 (proj2
             (extractSymbols_substring_any_case "what is ethereum worth?" eq_refl))))
             "Tell me: " " Thanks" "ETH" eq_refl eq_refl).
    vm_compute. left. reflexivity.
  - rewrite (proj1 (proj2 (proj2 (proj2
               (extractSymbols_substring_any_case "AVAX, Sol and BTC" eq_refl))))).
    vm_compute. reflexivity.
Defined.

(** ** [stringToBytes32] *)

Lemma hex_app a b : Str.hex (a ++ b) = Str.hex a ++ Str.hex b.
Proof.
  induction a as [|c a IH]; [reflexivity|].
  change (String c a ++ b) with (String c (a ++ b)).
  cbn [Str.hex]. rewrite IH. reflexivity.
Qed.

Lemma hex_length s : String.length (Str.hex s) = (2 * String.length s)%nat.
Proof. induction s as [|c s IH]; [reflexivity|]. cbn [Str.hex String.length]. rewrite IH. lia. Qed.

Lemma unhex_hex_cons c s :
  unhex (Str.hex (String c s)) =
    match unhex (Str.hex s) with Some r => Some (String c r) | None => None end.
Proof.
  destruct c as [[] [] [] [] [] [] [] []]; reflexivity.
Qed.

Lemma unhex_hex s : unhex (Str.hex s) = Some s.
Proof.
  induction s as [|c s IH]; [reflexivity|]. rewrite unhex_hex_cons, IH. reflexivity.
Qed.

Lemma zeros_even k : Str.zeros (2 * k) = Str.hex (nuls k).
Proof.
  induction k as [|k IH]; [reflexivity|].
  replace (2 * S k)%nat with (S (S (2 * k))) by lia. cbn [Str.zeros nuls].
  rewrite IH. reflexivity.
Qed.

Lemma string_length_app (a b : string) :
  String.length (a ++ b) = (String.length a + String.length b)%nat.
Proof.
  induction a as [|c a IH]; [reflexivity|].
  change (String c a ++ b) with (String c (a ++ b)).
  cbn [String.length]. rewrite IH. reflexivity.
Qed.

Lemma zeros_length k : String.length (Str.zeros k) = k.
Proof. induction k as [|k IH]; [reflexivity|]. cbn. rewrite IH. reflexivity. Qed.

Lemma string_app_inv_tail (a b t : string) : a ++ t = b ++ t -> a = b.
Proof.
  revert b. induction a as [|c a IH]; intros [|d b] H.
  - reflexivity.
  - exfalso. apply (f_equal String.length) in H.
    rewrite !string_length_app in H. cbn [String.length] in H. lia.
  - exfalso. apply (f_equal String.length) in H.
    rewrite !string_length_app in H. cbn [String.length] in H. lia.
  - change (String c (a ++ t) = String d (b ++ t)) in H.
    injection H as -> H. f_equal. apply IH. exact H.
Qed.

Lemma string_app_inv_head (a x y : string) : a ++ x = a ++ y -> x = y.
Proof.
  induction a as [|c a IH]; intros H; [exact H|].
  change (String c (a ++ x) = String c (a ++ y)) in H.
  injection H as H. apply IH. exact H.
Qed.

Lemma stringToBytes32_hex str :
  stringToBytes32 str = "0x" ++ Str.hex (str ++ nuls (32 - String.length str)).
Proof.
  unfold stringToBytes32, Str.padEnd0. rewrite hex_app, hex_length, <- zeros_even.
  do 3 f_equal. lia.
Qed.

(** X2. The Redstone feed id is ["0x"] followed by the hex of the string's
    bytes, padded on the right with NUL bytes to 32 bytes, so it decodes back
    to the string; a string longer than 32 bytes is not cut, its id is
    longer than a bytes32; and different strings of one length get different
    ids. *)
Theorem stringToBytes32_round_trip :
  forall str,
    (exists h,
        stringToBytes32 str = "0x" ++ h
        /\ unhex h = Some (str ++ nuls (32 - String.length str)))
    /\ String.length (stringToBytes32 str) = (2 + Nat.max 64 (2 * String.length str))%nat
    /\ (forall other,
          String.length other = String.length str ->
          other <> str ->
          stringToBytes32 other <> stringToBytes32 str).
Proof.
  intros str. split; [|split].
  - eexists. split; [apply stringToBytes32_hex | apply unhex_hex].
  - rewrite stringToBytes32_hex.
    rewrite string_length_app, hex_length, string_length_app.
    change (String.length "0x") with 2%nat.
    assert (String.length (nuls (32 - String.length str)) = (32 - String.length str)%nat) as ->.
    { generalize (32 - String.length str)%nat. intros k.
      induction k as [|k IH]; [reflexivity|]. cbn. rewrite IH. reflexivity. }
    lia.
  - intros other Hlen Hne Heq. apply Hne.
    rewrite !stringToBytes32_hex, Hlen in Heq.
    apply string_app_inv_head in Heq.
    apply (f_equal unhex) in Heq. rewrite !unhex_hex in Heq.
    injection Heq as Heq. apply string_app_inv_tail in Heq. exact Heq.
Qed.

Lemma stringToBytes32_round_trip_witness :
  stringToBytes32 "USDC/USD" <> stringToBytes32 "USDT/USD".
Proof.
  apply (proj2 (proj2 (stringToBytes32_round_trip "USDT/USD")) "USDC/USD").
  - reflexivity.
  - discriminate.
Defined.

Example stringToBytes32_ex :
  stringToBytes32 "USDT/USD"
  = "0x555344542f555344000000000000000000000000000000000000000000000000".
Proof. vm_compute. reflexivity. Qed.

(** ** What the price cache holds *)

#[global] Instance keyed_kept_ambient P : Ambient (keyed_kept P).
Proof. split; unfold keyed_kept; intros; auto. Qed.

#[global] Instance rates_kept_ambient : Ambient rates_kept.
Proof. split; unfold rates_kept; intros; auto. Qed.

Section Shapes.

Variable P : Provider.
Variable W : World.

Ltac shape_done :=
  split; [reflexivity|]; split;
  [ first [ right; reflexivity
          | left; simpl; auto 6 ]
  | split; intros Hsrc; first [ discriminate Hsrc | assumption | congruence ] ].

Lemma getYeiMultiOraclePrice_shape symbol s q s' :
  getYeiMultiOraclePrice P W symbol s = (Return (Some q), s') -> quote_for P symbol q.
Proof.
  unfold getYeiMultiOraclePrice, try_catch, mbind, M_bind, readContract.
  destruct (truthy_string _) as [address|]; cbn; [|discriminate].
  destruct (chain W address "getLatestPrice" []) as [[|p [|t [|d [|x l]]]]|]; cbn;
    try discriminate.
  destruct (p =? 0); cbn; [discriminate|].
  destruct (gtb _ _); cbn; intros [= <- _]; shape_done.
Qed.

Lemma getPythPrice_shape symbol s q s' :
  getPythPrice P W symbol s = (Return (Some q), s') -> quote_for P symbol q.
Proof.
  unfold getPythPrice, try_catch, mbind, M_bind, readContract.
  destruct (Str.prop _ symbol) as [feedId|] eqn:Hfeed; cbn; [|discriminate].
  destruct (chain W pythAddress "getPriceUnsafe" [feedId])
    as [[|p [|c [|x [|t [|y l]]]]]|]; cbn; try discriminate.
  destruct (p =? 0); cbn; [discriminate|].
  destruct (isNaN _ || leb _ _); cbn; [discriminate|]. intros [= <- _].
  shape_done.
Qed.

Lemma getCoinGeckoPrice_shape symbol s q s' :
  getCoinGeckoPrice W symbol s = (Return (Some q), s') -> quote_for P symbol q.
Proof.
  unfold getCoinGeckoPrice, try_catch, mbind, M_bind, fetch.
  destruct (Str.prop coinGeckoIds _) as [coinId|]; cbn; [|discriminate].
  destruct (coingecko W _) as [[[] [data|]]|]; cbn; try discriminate.
  destruct (Str.prop data coinId) as [[usd|]|]; cbn; try discriminate.
  destruct (negb (truthy _) || isNaN _ || leb _ zero); cbn; [discriminate|].
  intros [= <- _]. shape_done.
Qed.

Lemma getCexPrice_shape symbol s q s' :
  getCexPrice P W symbol s = (Return (Some q), s') -> quote_for P symbol q.
Proof.
  unfold getCexPrice, try_catch, mbind, M_bind, fetch.
  destruct (Str.includes cexSupportedSymbols symbol) eqn:Hcex; cbn; [|discriminate].
  destruct (binance_ticker W _) as [[[] [data|]]|]; cbn; try discriminate.
  destruct (isNaN _ || leb _ _); cbn; [discriminate|].
  intros [= <- _]. shape_done.
Qed.

Lemma legacyPrice_shape symbol s q s' :
  legacyPrice P W symbol s = (Return (Some q), s') -> quote_for P symbol q.
Proof.
  unfold legacyPrice, try_catch, mbind, M_bind.
  destruct (Str.includes _ _); cbn; [|discriminate].
  destruct (getYeiPrice P W symbol s) as [[p|e] s1]; cbn; [|discriminate].
  destruct (positive_number p); cbn; [|discriminate].
  intros [= <- _]. shape_done.
Qed.

Lemma priority_shape symbol a :
  In a (priority P W symbol) ->
  forall s q s', a s = (Return (Some q), s') -> quote_for P symbol q.
Proof.
  unfold priority. simpl.
  intros [<-|[<-|[<-|[<-|[<-|[]]]]]] s q s';
    unfold source1, source2, source3, source4, source5, mbind, M_bind.
  - destruct (getYeiMultiOraclePrice P W symbol s) as [[[q1|]|e] s1] eqn:E; cbn;
      try discriminate.
    intros [= <- _]. exact (getYeiMultiOraclePrice_shape _ _ _ _ E).
  - destruct (getCoinGeckoPrice W symbol s) as [[[q1|]|e] s1] eqn:E; cbn; try discriminate.
    intros [= <- _]. exact (getCoinGeckoPrice_shape _ _ _ _ E).
  - apply legacyPrice_shape.
  - destruct (getPythPrice P W symbol s) as [[[q1|]|e] s1] eqn:E; cbn; try discriminate.
    intros [= <- _]. exact (getPythPrice_shape _ _ _ _ E).
  - destruct (getCexPrice P W symbol s) as [[[q1|]|e] s1] eqn:E; cbn; try discriminate.
    intros [= <- _]. exact (getCexPrice_shape _ _ _ _ E).
Qed.

(** What every source of a list guarantees of its quote, the walk over the
    list guarantees of the one it returns. *)
Lemma first_quote_yields (Q : PriceFeed.t -> Prop) (l : list (M (option PriceFeed.t))) :
  (forall a, In a l -> forall s q s', a s = (Return (Some q), s') -> Q q) ->
  forall s q s', first_quote l s = (Return (Some q), s') -> Q q.
Proof.
  induction l as [|a l IH]; intros H s q s'; simpl.
  - discriminate.
  - unfold mbind, M_bind. destruct (a s) as [[[q1|]|e] s1] eqn:E; cbn.
    + intros [= <- _]. apply (H a (or_introl eq_refl) s q1 s1 E).
    + apply IH. intros b Hb. apply H. right. exact Hb.
    + discriminate.
Qed.

Lemma getPrice_miss_shape symbol s q s' :
  price_fresh P (of_Z (clock s)) (priceCache s !! symbol) = false ->
  getPrice P W symbol s = (Return (Some q), s') ->
  quote_for P symbol q.
Proof.
  intros Hmiss. rewrite getPrice_miss by exact Hmiss.
  unfold try_catch, resolvePrice_spec, mbind, M_bind.
  destruct (first_quote (priority P W symbol) s) as [[[q1|]|e] s1] eqn:E; cbn;
    try discriminate.
  unfold store_valid. destruct (valid_price q1); cbn; [|discriminate].
  intros [= <- _].
  apply (first_quote_yields (quote_for P symbol) (priority P W symbol) (priority_shape symbol)
           s q1 s1 E).
Qed.

Lemma getPrice_keyed_kept symbol : stable (keyed_kept P) (getPrice P W symbol).
Proof.
  intros s Hg.
  destruct (getPrice_effect P W symbol s)
    as [(c & -> & _)|[(_ & s' & -> & Hk)|(Hmiss & q & s' & Hrun & Hq & Hk)]]; simpl.
  - exact Hg.
  - intros k q. rewrite Hk. apply Hg.
  - rewrite Hrun. simpl. intros k q'. rewrite Hk. rewrite lookup_insert.
    destruct (decide (symbol = k)) as [<-|Hne]; [|apply Hg].
    intros [= <-]. exact (getPrice_miss_shape symbol s q s' Hmiss Hrun).
Qed.

Lemma keeps_priceCache_keyed s s' : keeps priceCache s s' -> keyed_kept P s s'.
Proof.
  unfold keeps, keyed_kept, cache_keyed. intros Hk Hg k q. rewrite Hk. apply Hg.
Qed.

Lemma getFundingRates_keyed_kept symbol : stable (keyed_kept P) (getFundingRates P W symbol).
Proof.
  intros s. apply keeps_priceCache_keyed.
  destruct (getFundingRates_effect P W symbol s) as (rates & s' & -> & Hk & _). exact Hk.
Qed.

(** The quote a call returns, from the cache or from a source. *)
Lemma getPrice_shape symbol s q :
  cache_keyed P s ->
  fst (getPrice P W symbol s) = Return (Some q) -> quote_for P symbol q.
Proof.
  intros Hg Hret.
  destruct (getPrice_effect P W symbol s)
    as [(c & Hrun & Hc & _)|[(_ & s' & Hrun & _)|(Hmiss & q' & s' & Hrun & _)]];
    rewrite Hrun in Hret; simpl in Hret.
  - injection Hret as <-. exact (Hg symbol c Hc).
  - discriminate.
  - injection Hret as <-. exact (getPrice_miss_shape symbol s q' s' Hmiss Hrun).
Qed.

End Shapes.

Lemma reachable_cache_keyed P s : reachable P s -> cache_keyed P s.
Proof.
  induction 1 as [now|s W c Hr IH].
  - intros k q. simpl. rewrite lookup_empty. discriminate.
  - destruct c as [symbol|symbol| | |dt]; simpl.
    + apply getPrice_keyed_kept. exact IH.
    + apply getFundingRates_keyed_kept. exact IH.
    + revert IH. apply keeps_priceCache_keyed.
      unfold keeps, startPriceUpdates, mbind, M_bind, gets. simpl.
      destruct (updateInterval s); reflexivity.
    + revert IH. apply keeps_priceCache_keyed.
      unfold keeps, stopPriceUpdates, mbind, M_bind, gets. simpl.
      destruct (updateInterval s); reflexivity.
    + revert IH.
      apply (elapse_stable P (keyed_kept P) W dt s (getPrice_keyed_kept P W)
               (getFundingRates_keyed_kept P W)).
      intros h ts n s0 Hg. exact Hg.
Qed.

(** X3. Whatever the history of an instance and whatever the services
    answer, a quote in the price cache carries the very key it is stored
    under as its [symbol], and a quote that [getPrice] returns carries the
    symbol that was asked for, spelled as it was asked; its source is one
    of the five adapter names, with confidence 0.98 for the multi-oracle and
    0.95 for CoinGecko, the legacy cascade and Binance (Pyth's is read from
    the feed). *)
Theorem quotes_carry_their_key :
  forall P s, reachable P s ->
    (forall k q, priceCache s !! k = Some q -> PriceFeed.symbol q = k /\ labelled q)
    /\ (forall W symbol q,
          fst (getPrice P W symbol s) = Return (Some q) ->
          PriceFeed.symbol q = symbol /\ labelled q).
Proof.
  intros P s Hr. pose proof (reachable_cache_keyed P s Hr) as Hg. split.
  - intros k q Hk. destruct (Hg k q Hk) as (Hsym & Hlab & _). split; assumption.
  - intros W symbol q Hret.
    destruct (getPrice_shape P W symbol s q Hg Hret) as (Hsym & Hlab & _).
    split; assumption.
Qed.

Lemma quotes_carry_their_key_witness :
  let q := PriceFeed.make "btc" (of_decimal false 650005 (-1)) (of_Z (Demo.t0 + 5400))
             "CoinGecko" (of_decimal false 95 (-2)) in
  PriceFeed.symbol q = "btc" /\ labelled q.
Proof.
  apply (proj2 (quotes_carry_their_key DemoBTC.P
                  (step DemoBTC.P DemoBTC.W (Wait 5000)
                     (step DemoBTC.P DemoBTC.W (CallGetPrice "BTC") DemoBTC.s0))
                  ltac:(apply reach_step; apply reach_step; apply reach_initial))
           DemoBTC.W "btc").
  vm_compute. reflexivity.
Defined.

(** ** What the funding-rate cache holds *)

Section RateShapes.

Variable P : Provider.
Variable W : World.

Lemma getBinanceFundingRate_shape symbol s r s' :
  getBinanceFundingRate P W symbol s = (Return (Some r), s') ->
  FundingRate.exchange r = "Binance" /\ FundingRate.symbol r = symbol.
Proof.
  rewrite getBinanceFundingRate_run.
  destruct (binance_premiumIndex W _) as [[[] [data|]]|]; try discriminate.
  intros [= <- _]. split; reflexivity.
Qed.

Lemma getBybitFundingRate_shape symbol s r s' :
  getBybitFundingRate P W symbol s = (Return (Some r), s') ->
  FundingRate.exchange r = "Bybit" /\ FundingRate.symbol r = symbol.
Proof.
  rewrite getBybitFundingRate_run.
  destruct (bybit_tickers W _) as [[[] [[[[|ticker rest]|]]|]]|]; try discriminate.
  intros [= <- _]. split; reflexivity.
Qed.

Lemma getOkxFundingRate_shape symbol s r s' :
  getOkxFundingRate P W symbol s = (Return (Some r), s') ->
  FundingRate.exchange r = "OKX" /\ FundingRate.symbol r = symbol.
Proof.
  rewrite getOkxFundingRate_run.
  destruct (okx_fundingRate W _) as [[[] [[[[|row rest]|]]|]]|]; try discriminate.
  intros [= <- _]. split; reflexivity.
Qed.

Lemma non_null_rates_for symbol (a b c : option FundingRate.t) :
  (forall r, a = Some r -> FundingRate.exchange r = "Binance" /\ FundingRate.symbol r = symbol) ->
  (forall r, b = Some r -> FundingRate.exchange r = "Bybit" /\ FundingRate.symbol r = symbol) ->
  (forall r, c = Some r -> FundingRate.exchange r = "OKX" /\ FundingRate.symbol r = symbol) ->
  rates_for symbol (non_null [a; b; c]).
Proof.
  intros Ha Hb Hc. unfold rates_for, non_null.
  destruct a as [ra|]; [destruct (Ha ra eq_refl) as [Ea Sa]|];
    (destruct b as [rb|]; [destruct (Hb rb eq_refl) as [Eb Sb]|]);
    (destruct c as [rc|]; [destruct (Hc rc eq_refl) as [Ec Sc]|]);
    cbn; rewrite ?Ea, ?Eb, ?Ec; (split; [|repeat constructor; assumption]);
    repeat (first [ apply sublist_nil | apply sublist_skip | apply sublist_cons ]).
Qed.

Lemma getFundingRates_miss_shape symbol s :
  rates_fresh P (of_Z (clock s)) (fundingRateCache s !! symbol) = false ->
  forall rates, fst (getFundingRates P W symbol s) = Return rates -> rates_for symbol rates.
Proof.
  intros Hmiss rates.
  destruct (getFundingRates_miss P W symbol s Hmiss)
    as (a & b & c & sa & sb & sc & Ea & Eb & Ec & -> & _).
  intros [= <-]. apply non_null_rates_for.
  - intros r ->. exact (getBinanceFundingRate_shape _ _ _ _ Ea).
  - intros r ->. exact (getBybitFundingRate_shape _ _ _ _ Eb).
  - intros r ->. exact (getOkxFundingRate_shape _ _ _ _ Ec).
Qed.

Lemma getFundingRates_hit symbol s :
  rates_fresh P (of_Z (clock s)) (fundingRateCache s !! symbol) = true ->
  exists rates, fundingRateCache s !! symbol = Some rates
                /\ getFundingRates P W symbol s = (Return rates, s).
Proof.
  intros Hfresh. unfold getFundingRates, try_catch, mbind, M_bind, gets, Date_now. cbn.
  rewrite Hfresh. cbn.
  destruct (fundingRateCache s !! symbol) as [rates|]; [|discriminate].
  exists rates. split; reflexivity.
Qed.

Lemma getFundingRates_shape symbol s rates :
  rates_keyed s ->
  fst (getFundingRates P W symbol s) = Return rates -> rates_for symbol rates.
Proof.
  intros Hg.
  destruct (rates_fresh P (of_Z (clock s)) (fundingRateCache s !! symbol)) eqn:Hfresh.
  - destruct (getFundingRates_hit symbol s Hfresh) as (cached & Hc & ->).
    intros [= <-]. exact (proj2 (Hg symbol cached Hc)).
  - apply getFundingRates_miss_shape. exact Hfresh.
Qed.

Lemma getFundingRates_rates_kept symbol : stable rates_kept (getFundingRates P W symbol).
Proof.
  intros s Hg.
  pose proof (getFundingRates_shape symbol s) as Hshape.
  destruct (getFundingRates_effect P W symbol s) as (rates & s' & Hrun & _ & Hk & _).
  rewrite Hrun in *. simpl in *.
  destruct Hk as [Hk|[Hne Hk]]; intros k l; rewrite Hk.
  - apply Hg.
  - rewrite lookup_insert.
    destruct (decide (symbol = k)) as [<-|Hneq]; [|apply Hg].
    intros [= <-]. split; [exact Hne|]. apply Hshape; [exact Hg | reflexivity].
Qed.

Lemma keeps_fundingRateCache_rates s s' : keeps fundingRateCache s s' -> rates_kept s s'.
Proof.
  unfold keeps, rates_kept, rates_keyed. intros Hk Hg k q. rewrite Hk. apply Hg.
Qed.

Lemma getPrice_rates_kept symbol : stable rates_kept (getPrice P W symbol).
Proof.
  intros s. apply keeps_fundingRateCache_rates.
  apply (getPrice_stable P W (keeps fundingRateCache)). intros; reflexivity.
Qed.

End RateShapes.

Lemma reachable_rates_keyed P s : reachable P s -> rates_keyed s.
Proof.
  induction 1 as [now|s W c Hr IH].
  - intros k q. simpl. rewrite lookup_empty. discriminate.
  - destruct c as [symbol|symbol| | |dt]; simpl.
    + apply getPrice_rates_kept. exact IH.
    + apply getFundingRates_rates_kept. exact IH.
    + revert IH. apply keeps_fundingRateCache_rates.
      unfold keeps, startPriceUpdates, mbind, M_bind, gets. simpl.
      destruct (updateInterval s); reflexivity.
    + revert IH. apply keeps_fundingRateCache_rates.
      unfold keeps, stopPriceUpdates, mbind, M_bind, gets. simpl.
      destruct (updateInterval s); reflexivity.
    + revert IH.
      apply (elapse_stable P rates_kept W dt s (getPrice_rates_kept P W)
               (getFundingRates_rates_kept P W)).
      intros h ts n s0 Hg. exact Hg.
Qed.

Lemma rates_for_length symbol rates : rates_for symbol rates -> (length rates <= 3)%nat.
Proof.
  intros [Hsub _]. apply sublist_length in Hsub. rewrite length_map in Hsub. exact Hsub.
Qed.

(** X4. Whatever the history and the answers of the exchanges, a list of
    funding rates that [getFundingRates] returns, or that sits in the cache,
    has at most three entries, at most one per exchange and in the order
    Binance, Bybit, OKX, each carrying the symbol asked for (the cache key);
    and a cached list is never empty. *)
Theorem funding_rates_one_per_exchange :
  forall P s, reachable P s ->
    (forall k rates,
        fundingRateCache s !! k = Some rates ->
        rates <> [] /\ (length rates <= 3)%nat
        /\ sublist (map FundingRate.exchange rates) ["Binance"; "Bybit"; "OKX"]
        /\ Forall (fun r => FundingRate.symbol r = k) rates)
    /\ (forall W symbol rates,
          fst (getFundingRates P W symbol s) = Return rates ->
          (length rates <= 3)%nat
          /\ sublist (map FundingRate.exchange rates) ["Binance"; "Bybit"; "OKX"]
          /\ Forall (fun r => FundingRate.symbol r = symbol) rates).
Proof.
  intros P s Hr. pose proof (reachable_rates_keyed P s Hr) as Hg. split.
  - intros k rates Hk. destruct (Hg k rates Hk) as [Hne Hfor].
    split; [exact Hne|]. split; [exact (rates_for_length k rates Hfor)|]. exact Hfor.
  - intros W symbol rates Hret.
    pose proof (getFundingRates_shape P W symbol s rates Hg Hret) as Hfor.
    split; [exact (rates_for_length symbol rates Hfor)|]. exact Hfor.
Qed.

Lemma funding_rates_one_per_exchange_witness :
  let annual raw := mul (Str.parseFloat (Some raw)) (of_Z 8760) in
  let rates :=
    [ FundingRate.make "BTC" (annual "0.0001") (of_Z (Demo.t0 + 120)) "Binance"
        (of_Z 1700003600000);
      FundingRate.make "BTC" (annual "-0.00025") (of_Z 1700000000000) "OKX"
        (of_Z 1700028800000) ] in
  (length rates <= 3)%nat
  /\ sublist (map FundingRate.exchange rates) ["Binance"; "Bybit"; "OKX"]
  /\ Forall (fun r => FundingRate.symbol r = "BTC") rates.
Proof.
  intros annual rates.
  apply (proj2 (funding_rates_one_per_exchange Demo.P0
                  (step Demo.P0 (DemoFunding.W 1) (CallGetFundingRates "BTC")
                     (initial Demo.t0))
                  ltac:(apply reach_step; apply reach_initial))
           (DemoFunding.W 1) "BTC" rates).
  vm_compute. reflexivity.
Defined.

(** ** The upstream traffic of [getPrice] *)

Lemma emits_weaken {A : Type} (l l' : list Request) (m : M A) :
  sublist l l' -> emits l m -> emits l' m.
Proof.
  intros Hsub Hm s. destruct (Hm s) as (sent & Hreq & Hs).
  exists sent. split; [exact Hreq|]. etransitivity; eassumption.
Qed.

Lemma emits_quiet {A : Type} (m : M A) :
  (forall s, requests (snd (m s)) = requests s) -> emits [] m.
Proof.
  intros H s. exists []. rewrite H, app_nil_r. split; [reflexivity | constructor].
Qed.

Lemma emits_ret {A : Type} (a : A) : emits [] (mret a).
Proof. apply emits_quiet. reflexivity. Qed.

Lemma emits_throw {A : Type} (e : Error) : emits [] (@throw A e).
Proof. apply emits_quiet. reflexivity. Qed.

Lemma emits_gets {A : Type} (f : State -> A) : emits [] (gets f).
Proof. apply emits_quiet. reflexivity. Qed.

Lemma emits_elizaLogger l t sym c : emits [] (elizaLogger l t sym c).
Proof. apply emits_quiet. reflexivity. Qed.

Lemma emits_bind {A B : Type} (l1 l2 : list Request) (m : M A) (f : A -> M B) :
  emits l1 m -> (forall a, emits l2 (f a)) -> emits (l1 ++ l2) (m ≫= f).
Proof.
  intros Hm Hf s. unfold mbind, M_bind.
  destruct (Hm s) as (sent1 & Hreq1 & Hs1).
  destruct (m s) as [[a|e] s1]; simpl in *.
  - destruct (Hf a s1) as (sent2 & Hreq2 & Hs2).
    exists (sent1 ++ sent2)%list. split.
    + rewrite Hreq2, Hreq1, app_assoc. reflexivity.
    + rewrite map_app. apply sublist_app; assumption.
  - exists sent1. split; [exact Hreq1|].
    etransitivity; [exact Hs1|]. apply sublist_inserts_r. reflexivity.
Qed.

Lemma emits_try_catch {A : Type} (l1 l2 : list Request) (m : M A) (h : Error -> M A) :
  emits l1 m -> (forall e, emits l2 (h e)) -> emits (l1 ++ l2) (try_catch m h).
Proof.
  intros Hm Hh s. unfold try_catch.
  destruct (Hm s) as (sent1 & Hreq1 & Hs1).
  destruct (m s) as [[a|e] s1]; simpl in *.
  - exists sent1. split; [exact Hreq1|].
    etransitivity; [exact Hs1|]. apply sublist_inserts_r. reflexivity.
  - destruct (Hh e s1) as (sent2 & Hreq2 & Hs2).
    exists (sent1 ++ sent2)%list. split.
    + rewrite Hreq2, Hreq1, app_assoc. reflexivity.
    + rewrite map_app. apply sublist_app; assumption.
Qed.

(** A computation followed by one that sends nothing. *)
Lemma emits_then {A B : Type} (l : list Request) (m : M A) (f : A -> M B) :
  emits l m -> (forall a, emits [] (f a)) -> emits l (m ≫= f).
Proof.
  intros Hm Hf. rewrite <- (app_nil_r l). apply emits_bind; assumption.
Qed.

(** A computation preceded by one that sends nothing. *)
Lemma emits_after {A B : Type} (l : list Request) (m : M A) (f : A -> M B) :
  emits [] m -> (forall a, emits l (f a)) -> emits l (m ≫= f).
Proof. intros Hm Hf. apply (emits_bind [] l); assumption. Qed.

Lemma emits_ret_bind {A B : Type} (l : list Request) (a : A) (f : A -> M B) :
  emits l (f a) -> emits l (mret a ≫= f).
Proof. intros H s. exact (H s). Qed.

Lemma emits_throw_bind {A B : Type} (l : list Request) (e : Error) (f : A -> M B) :
  emits l (throw e ≫= f).
Proof.
  intros s. exists []. simpl. rewrite app_nil_r. split; [reflexivity | apply sublist_nil_l].
Qed.

Lemma emits_guarded {A : Type} (l : list Request) (m : M A) (h : Error -> M A) :
  emits l m -> (forall e, emits [] (h e)) -> emits l (try_catch m h).
Proof.
  intros Hm Hh. rewrite <- (app_nil_r l). apply emits_try_catch; assumption.
Qed.

Lemma emits_readContract W a f args :
  emits [ReadContract a f args] (readContract W a f args).
Proof.
  intros s. exists [(clock s, ReadContract a f args)]. unfold readContract.
  destruct (chain W a f args); (split; [reflexivity | simpl; reflexivity]).
Qed.

Lemma emits_fetch {B : Type} W (service : string -> option (Response B)) url :
  emits [Fetch url] (fetch W service url).
Proof.
  intros s. exists [(clock s, Fetch url)]. unfold fetch.
  destruct (service url); (split; [reflexivity | simpl; reflexivity]).
Qed.

Lemma emits_json {B : Type} (r : Response B) : emits [] (json r).
Proof. unfold json. destruct (body r); [apply emits_ret | apply emits_throw]. Qed.

Lemma emits_nil {A : Type} (l : list Request) (m : M A) : emits [] m -> emits l m.
Proof. apply emits_weaken. apply sublist_nil_l. Qed.

(** One step of a traffic proof for code that sends nothing. *)
Ltac quiet_step :=
  lazymatch goal with
  | |- emits [] (mbind _ _) => apply (emits_bind [] []); [ | intros ? ]
  | |- emits [] (try_catch _ _) => apply (emits_try_catch [] []); [ | intros ? ]
  | |- emits [] (mret _) => apply emits_ret
  | |- emits [] (throw _) => apply emits_throw
  | |- emits [] (gets _) => apply emits_gets
  | |- emits [] Date_now => apply emits_gets
  | |- emits [] (elizaLogger _ _ _ _) => apply emits_elizaLogger
  | |- emits [] (json _) => apply emits_json
  | |- emits [] (modify _) => apply emits_quiet; reflexivity
  | |- emits [] (match ?x with _ => _ end) => destruct x
  | |- emits [] _ => solve [auto]
  end.

Ltac quiet := repeat quiet_step.

Section Traffic.

Variable P : Provider.
Variable W : World.

Lemma getYeiMultiOraclePrice_emits symbol :
  emits (plan_multiOracle P symbol) (getYeiMultiOraclePrice P W symbol).
Proof.
  unfold getYeiMultiOraclePrice, plan_multiOracle.
  apply emits_guarded; [|intros e; quiet].
  destruct (truthy_string _) as [address|]; [|quiet].
  apply emits_then; [apply emits_readContract|]. intros result. quiet.
Qed.

Lemma getCoinGeckoPrice_emits symbol :
  emits (plan_coinGecko symbol) (getCoinGeckoPrice W symbol).
Proof.
  unfold getCoinGeckoPrice, plan_coinGecko.
  apply emits_guarded; [|intros e; quiet].
  destruct (Str.prop coinGeckoIds _) as [coinId|]; [|quiet].
  apply emits_then; [apply emits_fetch|]. intros response. quiet.
Qed.

Lemma getPythPrice_emits symbol :
  emits (plan_pyth P symbol) (getPythPrice P W symbol).
Proof.
  unfold getPythPrice, plan_pyth.
  apply emits_guarded; [|intros e; quiet].
  destruct (Str.prop _ symbol) as [feedId|]; [|quiet].
  apply emits_then; [apply emits_readContract|]. intros result. quiet.
Qed.

Lemma getCexPrice_emits symbol :
  emits (plan_cex P symbol) (getCexPrice P W symbol).
Proof.
  unfold getCexPrice, plan_cex.
  apply emits_guarded; [|intros e; quiet].
  destruct (Str.includes cexSupportedSymbols symbol); cbn [negb]; [|quiet].
  apply emits_then; [apply emits_fetch|]. intros response. quiet.
Qed.

Lemma getAPI3Price_emits symbol :
  emits (plan_api3 P symbol) (getAPI3Price P W symbol).
Proof.
  unfold getAPI3Price, getAPI3dApiId, plan_api3.
  destruct (Str.prop dApiIds _) as [dApiId|].
  - apply emits_ret_bind.
    apply emits_then; [apply emits_readContract|]. intros result. quiet.
  - apply emits_throw_bind.
Qed.

Lemma getRedstonePrice_emits symbol :
  emits (plan_redstone P symbol) (getRedstonePrice P W symbol).
Proof.
  unfold getRedstonePrice, plan_redstone.
  destruct (Str.includes _ symbol); cbn [negb]; [|quiet].
  apply emits_then; [apply emits_readContract|]. intros result. quiet.
Qed.

Lemma getYeiPrice_emits symbol :
  emits (plan_api3 P symbol ++ plan_pyth P symbol ++ plan_redstone P symbol)%list
    (getYeiPrice P W symbol).
Proof.
  unfold getYeiPrice.
  apply emits_bind.
  { apply emits_guarded; [|intros e; quiet].
    apply emits_then; [apply getAPI3Price_emits|]. intros p. quiet. }
  intros [p|]; [apply emits_nil; quiet|].
  apply emits_bind.
  { apply emits_guarded; [|intros e; quiet].
    apply emits_then; [apply getPythPrice_emits|]. intros q. quiet. }
  intros [p|]; [apply emits_nil; quiet|].
  apply emits_then.
  { apply emits_guarded; [|intros e; quiet].
    apply emits_then; [apply getRedstonePrice_emits|]. intros q. quiet. }
  intros [p|]; quiet.
Qed.

Lemma legacyPrice_emits symbol :
  emits (plan_legacy P symbol) (legacyPrice P W symbol).
Proof.
  unfold legacyPrice, plan_legacy.
  destruct (Str.includes _ _); [|quiet].
  apply emits_guarded; [|intros e; quiet].
  apply emits_then; [apply getYeiPrice_emits|]. intros p. quiet.
Qed.

Lemma log_using_emits name symbol price : emits [] (log_using name symbol price).
Proof. unfold log_using. quiet. Qed.

Lemma first_quote_emits (plans : list (list Request)) (l : list (M (option PriceFeed.t))) :
  Forall2 emits plans l -> emits (concat plans) (first_quote l).
Proof.
  induction 1 as [|plan a plans l Ha Hl IH]; simpl.
  - apply emits_ret.
  - apply emits_bind; [exact Ha|]. intros [q|]; [apply emits_nil, emits_ret | exact IH].
Qed.

Lemma resolvePrice_spec_emits symbol :
  emits (plan_getPrice P symbol) (resolvePrice_spec P W symbol).
Proof.
  pose proof log_using_emits as Hlog.
  unfold resolvePrice_spec. apply emits_then.
  - replace (plan_getPrice P symbol)
      with (concat [plan_multiOracle P symbol; plan_coinGecko symbol; plan_legacy P symbol;
                    plan_pyth P symbol; plan_cex P symbol])
      by (unfold plan_getPrice; simpl; rewrite app_nil_r; reflexivity).
    apply first_quote_emits. unfold priority, source1, source2, source3, source4, source5.
    repeat constructor.
    + apply emits_then; [apply getYeiMultiOraclePrice_emits|]. intros price. quiet.
    + apply emits_then; [apply getCoinGeckoPrice_emits|]. intros price. quiet.
    + apply legacyPrice_emits.
    + apply emits_then; [apply getPythPrice_emits|]. intros price. quiet.
    + apply emits_then; [apply getCexPrice_emits|]. intros price. quiet.
  - intros price. unfold store_valid. quiet.
Qed.

Lemma getPrice_emits symbol : emits (plan_getPrice P symbol) (getPrice P W symbol).
Proof.
  intros s.
  destruct (price_fresh P (of_Z (clock s)) (priceCache s !! symbol)) eqn:Hfresh.
  - destruct (price_fresh_cached _ _ _ Hfresh) as [c Hc]. rewrite Hc in Hfresh.
    rewrite (getPrice_hit P W symbol s c Hc Hfresh). exists []. simpl.
    rewrite app_nil_r. split; [reflexivity | apply sublist_nil_l].
  - rewrite getPrice_miss by exact Hfresh.
    revert s Hfresh.
    assert (emits (plan_getPrice P symbol)
              (try_catch (resolvePrice_spec P W symbol)
                 (fun error => elizaLogger LError "Failed to get price for" symbol (Some error);;
                               mret None))) as H; [|intros s _; apply H].
    apply emits_guarded; [apply resolvePrice_spec_emits|]. intros e. quiet.
Qed.

Lemma plan_getPrice_length symbol : (length (plan_getPrice P symbol) <= 7)%nat.
Proof.
  unfold plan_getPrice, plan_multiOracle, plan_coinGecko, plan_legacy, plan_api3, plan_pyth,
    plan_redstone, plan_cex.
  repeat match goal with
         | |- context [match ?x with _ => _ end] => destruct x
         end; simpl; lia.
Qed.

End Traffic.

(** X5. Any [getPrice] call sends at most seven requests, and the ones it
    sends come in the fixed order: the multi-oracle read, the CoinGecko
    fetch, the API3, Pyth and Redstone reads of the legacy cascade, the Pyth
    read, the Binance fetch; each at most once, each only if the symbol is
    configured for that adapter. *)
Theorem getPrice_traffic_follows_plan :
  forall P W symbol s,
    exists sent,
      requests (snd (getPrice P W symbol s)) = (requests s ++ sent)%list
      /\ sublist (map snd sent) (plan_getPrice P symbol)
      /\ (length sent <= 7)%nat.
Proof.
  intros P W symbol s. destruct (getPrice_emits P W symbol s) as (sent & Hreq & Hsub).
  exists sent. split; [exact Hreq|]. split; [exact Hsub|].
  apply sublist_length in Hsub. rewrite length_map in Hsub.
  pose proof (plan_getPrice_length P symbol). lia.
Qed.

(** ** Symbols not spelled in upper case *)

Lemma includes_spelled (l : list string) symbol :
  Forall (fun k => Str.toUpperCase k = k) l ->
  Str.toUpperCase symbol <> symbol ->
  Str.includes l symbol = false.
Proof.
  intros Hl Hne. unfold Str.includes. apply not_true_is_false. intros Hin.
  apply existsb_exists in Hin as (k & Hk & Heq).
  apply String.eqb_eq in Heq. subst k.
  rewrite Forall_forall in Hl. apply Hne, Hl, list_elem_of_In, Hk.
Qed.

Lemma prop_spelled {A : Type} (rec : list (string * A)) symbol :
  Forall (fun kv => Str.toUpperCase (fst kv) = fst kv) rec ->
  Str.toUpperCase symbol <> symbol ->
  Str.prop rec symbol = None.
Proof.
  intros Hrec Hne. induction Hrec as [|[k v] rec Hk _ IH]; [reflexivity|].
  unfold Str.prop. fold (@Str.prop A).
  destruct (String.eqb k symbol) eqn:Heq; [|exact IH].
  apply String.eqb_eq in Heq. subst k. exact (False_ind _ (Hne Hk)).
Qed.

Lemma pythPriceFeeds_spelled getSetting symbol :
  Str.toUpperCase symbol <> symbol ->
  Str.prop (OracleConfig.pythPriceFeeds (config (new_SeiOracleProvider getSetting))) symbol
  = None.
Proof. apply prop_spelled. repeat constructor. Qed.

(** X6. For an instance built by the constructor and a symbol that is not
    spelled in upper case ("btc", "Eth"): the multi-oracle, CoinGecko and
    API3 adapters upper-case the symbol, the Pyth, Redstone and Binance
    adapters do not. In any state the instance can reach, [getPrice] then
    sends at most three requests, none of them to Pyth, Redstone or
    Binance, and a quote it returns never comes from Pyth or Binance. *)
Theorem mixed_case_symbol_reaches_three_sources :
  forall getSetting W symbol s,
    let P := new_SeiOracleProvider getSetting in
    reachable P s ->
    Str.toUpperCase symbol <> symbol ->
    (exists sent,
        requests (snd (getPrice P W symbol s)) = (requests s ++ sent)%list
        /\ sublist (map snd sent)
             (plan_multiOracle P symbol ++ plan_coinGecko symbol ++ plan_api3 P symbol)%list
        /\ (length sent <= 3)%nat)
    /\ (forall q,
          fst (getPrice P W symbol s) = Return (Some q) ->
          In (PriceFeed.source q) ["YEI Multi-Oracle"; "CoinGecko"; "yei-legacy-oracle"]).
Proof.
  intros getSetting W symbol s P Hr Hne.
  assert (plan_pyth P symbol = []) as Hpyth.
  { unfold plan_pyth, P. rewrite pythPriceFeeds_spelled by exact Hne. reflexivity. }
  assert (Str.includes ["USDT"; "USDC"] symbol = false) as Hred
    by (apply includes_spelled; [repeat constructor | exact Hne]).
  assert (Str.includes cexSupportedSymbols symbol = false) as Hcex
    by (apply includes_spelled; [repeat constructor | exact Hne]).
  split.
  - destruct (getPrice_emits P W symbol s) as (sent & Hreq & Hsub).
    assert (sublist (plan_getPrice P symbol)
              (plan_multiOracle P symbol ++ plan_coinGecko symbol ++ plan_api3 P symbol)%list)
      as Hplan.
    { unfold plan_getPrice, plan_legacy, plan_redstone, plan_cex.
      rewrite Hpyth, Hred, Hcex, !app_nil_r.
      apply sublist_app; [reflexivity|]. apply sublist_app; [reflexivity|].
      destruct (Str.includes yeiSupportedSymbols _); [reflexivity | apply sublist_nil_l]. }
    exists sent. split; [exact Hreq|].
    assert (sublist (map snd sent)
              (plan_multiOracle P symbol ++ plan_coinGecko symbol ++ plan_api3 P symbol)%list)
      as Hall by (etransitivity; eassumption).
    split; [exact Hall|].
    apply sublist_length in Hall. rewrite length_map, !length_app in Hall.
    assert (length (plan_multiOracle P symbol) <= 1)%nat
      by (unfold plan_multiOracle; destruct (truthy_string _); simpl; lia).
    assert (length (plan_coinGecko symbol) <= 1)%nat
      by (unfold plan_coinGecko; destruct (Str.prop _ _); simpl; lia).
    assert (length (plan_api3 P symbol) <= 1)%nat
      by (unfold plan_api3; destruct (Str.prop _ _); simpl; lia).
    lia.
  - intros q Hret.
    destruct (getPrice_shape P W symbol s q (reachable_cache_keyed P s Hr) Hret)
      as (_ & Hlab & Hpy & Hbin).
    destruct Hlab as [Hlab|Hsrc].
    + simpl in Hlab.
      destruct Hlab as [H|[H|[H|[H|[]]]]]; injection H as Hsrc _; rewrite <- Hsrc; simpl; auto.
      exfalso. symmetry in Hsrc. specialize (Hbin Hsrc). congruence.
    + exfalso. apply (Hpy Hsrc). apply pythPriceFeeds_spelled. exact Hne.
Qed.

Lemma mixed_case_symbol_reaches_three_sources_witness :
  let s := step DemoBTC.P DemoBTC.W (Wait 5000)
             (step DemoBTC.P DemoBTC.W (CallGetPrice "BTC") DemoBTC.s0) in
  let q := PriceFeed.make "btc" (of_decimal false 650005 (-1)) (of_Z (Demo.t0 + 5400))
             "CoinGecko" (of_decimal false 95 (-2)) in
  (exists sent,
      requests (snd (getPrice DemoBTC.P DemoBTC.W "btc" s)) = (requests s ++ sent)%list
      /\ sublist (map snd sent)
           (plan_multiOracle DemoBTC.P "btc" ++ plan_coinGecko "btc"
              ++ plan_api3 DemoBTC.P "btc")%list
      /\ (length sent <= 3)%nat)
  /\ In (PriceFeed.source q) ["YEI Multi-Oracle"; "CoinGecko"; "yei-legacy-oracle"].
Proof.
  intros s q.
  destruct (mixed_case_symbol_reaches_three_sources
              (fun key => if String.eqb key "YEI_BTC_ORACLE" then Some DemoBTC.oracle else None)
              DemoBTC.W "btc" s
              ltac:(apply reach_step; apply reach_step; apply reach_initial)
              ltac:(vm_compute; discriminate)) as [Hsent Hsrc].
  split; [exact Hsent|]. apply Hsrc. vm_compute. reflexivity.
Defined.

(** ** The addresses the constructor configures *)

Lemma getYeiMultiOraclePrice_sends P W symbol s oracleAddress :
  truthy_string (Str.prop (yeiMultiOracleAddresses P) (Str.toUpperCase symbol))
    = Some oracleAddress ->
  requests (snd (getYeiMultiOraclePrice P W symbol s))
  = (requests s ++ [(clock s, ReadContract oracleAddress "getLatestPrice" [])])%list.
Proof.
  intros Haddr.
  unfold getYeiMultiOraclePrice, try_catch, mbind, M_bind, readContract. rewrite Haddr. cbn.
  destruct (chain W oracleAddress "getLatestPrice" []) as [[|p [|t [|d [|x l]]]]|]; cbn;
    try reflexivity.
  destruct (p =? 0); cbn; [reflexivity|].
  destruct (gtb _ _); reflexivity.
Qed.

Lemma getYeiMultiOraclePrice_unconfigured P W symbol s :
  truthy_string (Str.prop (yeiMultiOracleAddresses P) (Str.toUpperCase symbol)) = None ->
  getYeiMultiOraclePrice P W symbol s =
    (Return None,
     add_log {| level := LDebug; text := "No YEI Multi-Oracle address configured for";
                about := symbol; cause := None |} s).
Proof.
  intros Haddr.
  unfold getYeiMultiOraclePrice, try_catch, mbind, M_bind. rewrite Haddr. reflexivity.
Qed.

Lemma or_default_truthy a c r :
  truthy_string (Some (Some (or_default a (String c r))))
  = Some (match a with Some (String x y) => String x y | _ => String c r end).
Proof. destruct a as [[|x y]|]; reflexivity. Qed.

(** X7. For an instance built by the constructor, the primary adapter
    reads, for SEI, USDC, USDT and ETH in any letter case, the contract
    named by the symbol's setting, or the built-in default when that
    setting is unset or the empty string; for BTC it reads the contract of
    [YEI_BTC_ORACLE] and, when that is unset or empty, sends nothing; for
    every other symbol it sends nothing. Where it sends nothing it returns
    null and only logs a debug line. *)
Theorem constructor_oracle_addresses :
  forall getSetting W symbol s,
    let P := new_SeiOracleProvider getSetting in
    let read address :=
      requests (snd (getYeiMultiOraclePrice P W symbol s))
      = (requests s ++ [(clock s, ReadContract address "getLatestPrice" [])])%list in
    let skipped :=
      getYeiMultiOraclePrice P W symbol s =
        (Return None,
         add_log {| level := LDebug; text := "No YEI Multi-Oracle address configured for";
                    about := symbol; cause := None |} s) in
    (forall key setting fallback,
        In (key, setting, fallback)
          [ ("SEI", "YEI_SEI_ORACLE", "0xa2aCDc40e5ebCE7f8554E66eCe6734937A48B3f3");
            ("USDC", "YEI_USDC_ORACLE", "0xEAb459AD7611D5223A408A2e73b69173F61bb808");
            ("USDT", "YEI_USDT_ORACLE", "0x284db472a483e115e3422dd30288b24182E36DdB");
            ("ETH", "YEI_ETH_ORACLE", "0x3E45Fb956D2Ba2CB5Fa561c40E5912225E64F7B2") ] ->
        Str.toUpperCase symbol = key ->
        read (match getSetting setting with
              | Some (String c r) => String c r
              | _ => fallback
              end))
    /\ (Str.toUpperCase symbol = "BTC" ->
        match getSetting "YEI_BTC_ORACLE" with
        | Some (String c r) => read (String c r)
        | _ => skipped
        end)
    /\ (~ In (Str.toUpperCase symbol) ["SEI"; "USDC"; "USDT"; "ETH"; "BTC"] -> skipped).
Proof.
  intros getSetting W symbol s P read skipped. subst read skipped. split; [|split].
  - intros key setting fallback Hin Hup.
    apply getYeiMultiOraclePrice_sends. rewrite Hup.
    simpl in Hin.
    destruct Hin as [H|[H|[H|[H|[]]]]]; injection H as <- <- <-;
      exact (or_default_truthy _ _ _).
  - intros Hup.
    destruct (getSetting "YEI_BTC_ORACLE") as [[|c r]|] eqn:Hset.
    + apply getYeiMultiOraclePrice_unconfigured. rewrite Hup.
      unfold P. cbn. rewrite Hset. reflexivity.
    + apply getYeiMultiOraclePrice_sends. rewrite Hup.
      unfold P. cbn. rewrite Hset. reflexivity.
    + apply getYeiMultiOraclePrice_unconfigured. rewrite Hup.
      unfold P. cbn. rewrite Hset. reflexivity.
  - intros Hout. apply getYeiMultiOraclePrice_unconfigured.
    unfold P, new_SeiOracleProvider, yeiMultiOracleAddresses.
    generalize dependent (Str.toUpperCase symbol). intros u Hout.
    unfold Str.prop.
    repeat match goal with
           | |- context [String.eqb ?k u] =>
               destruct (String.eqb k u) eqn:?H;
               [ exfalso; apply Hout; apply String.eqb_eq in H; subst u; simpl; tauto | clear H ]
           end.
    reflexivity.
Qed.

Lemma constructor_oracle_addresses_witness :
  let getSetting key :=
    if String.eqb key "YEI_ETH_ORACLE" then Some ""
    else if String.eqb key "YEI_BTC_ORACLE" then Some DemoBTC.oracle
    else None in
  let P := new_SeiOracleProvider getSetting in
  let s := initial Demo.t0 in
  requests (snd (getYeiMultiOraclePrice P Demo.down "eth" s))
  = [(Demo.t0, ReadContract "0x3E45Fb956D2Ba2CB5Fa561c40E5912225E64F7B2" "getLatestPrice" [])]
  /\ requests (snd (getYeiMultiOraclePrice P Demo.down "Btc" s))
     = [(Demo.t0, ReadContract DemoBTC.oracle "getLatestPrice" [])]
  /\ requests (snd (getYeiMultiOraclePrice P Demo.down "SOL" s)) = [].
Proof.
  intros getSetting P s. subst P.
  split; [|split].
  - apply (proj1 (constructor_oracle_addresses getSetting Demo.down "eth" s)
             "ETH" "YEI_ETH_ORACLE" "0x3E45Fb956D2Ba2CB5Fa561c40E5912225E64F7B2").
    + vm_compute. tauto.
    + vm_compute. reflexivity.
  - apply (proj1 (proj2 (constructor_oracle_addresses getSetting Demo.down "Btc" s))).
    vm_compute. reflexivity.
  - rewrite (proj2 (proj2 (constructor_oracle_addresses getSetting Demo.down "SOL" s))).
    + reflexivity.
    + vm_compute. intros H. repeat destruct H as [H|H]; try discriminate H. exact H.
Defined.

(** ** Numbers as text, on concrete inputs *)

Example toFixed_ex :
  Fmt.toFixed 4 (of_decimal false 650005 (-1)) = "65000.5000"
  /\ Fmt.toFixed 4 (of_decimal false 3125 (-5)) = "0.0313"
  /\ Fmt.toFixed 4 (of_decimal true (-5) (-5)) = "-0.0001"
  /\ Fmt.toFixed 4 (of_decimal false 1 (-9)) = "0.0000"
  /\ Fmt.toFixed 4 (of_decimal false 1 21) = "1e+21"
  /\ Fmt.toFixed 4 Infinity = "Infinity"
  /\ Fmt.toFixed 4 NaN = "NaN".
Proof. vm_compute. repeat split. Qed.

Example toString_ex :
  Fmt.toString (of_decimal false 1 (-1)) = "0.1"
  /\ Fmt.toString (add (of_decimal false 1 (-1)) (of_decimal false 2 (-1)))
     = "0.30000000000000004"
  /\ Fmt.toString (of_decimal false 15 (-8)) = "1.5e-7"
  /\ Fmt.toString (of_decimal false 5 (-324)) = "5e-324"
  /\ Fmt.toString (of_Z 123456789012345678) = "123456789012345680"
  /\ Fmt.toString (of_decimal false 1 21) = "1e+21".
Proof. vm_compute. repeat split. Qed.

(** ** The text interface *)

Section QueryFacts.

Variable P : Provider.
Variable W : World.

Lemma collectPrices_stable R `{!Ambient R} symbols prices :
  (forall symbol, stable R (getPrice P W symbol)) ->
  stable R (collectPrices P W symbols prices).
Proof.
  intros Hp. revert prices. induction symbols as [|symbol rest IH]; intros prices; simpl.
  - apply stable_ret; exact _.
  - apply stable_bind; [exact _ | apply Hp |]. intros price. apply IH.
Qed.

Lemma collectFunding_stable R `{!Ambient R} symbols fundingData :
  (forall symbol, stable R (getFundingRates P W symbol)) ->
  stable R (collectFunding P W symbols fundingData).
Proof.
  intros Hf. revert fundingData.
  induction symbols as [|symbol rest IH]; intros fundingData; simpl.
  - apply stable_ret; exact _.
  - apply stable_bind; [exact _ | apply Hf |]. intros rates. apply IH.
Qed.

Lemma get_stable R `{!Ambient R} messageText :
  (forall symbol, stable R (getPrice P W symbol)) ->
  (forall symbol, stable R (getFundingRates P W symbol)) ->
  stable R (get P W messageText).
Proof.
  intros Hp Hf.
  pose proof (fun symbols prices => collectPrices_stable R symbols prices Hp).
  pose proof (fun symbols data => collectFunding_stable R symbols data Hf).
  unfold get, handlePriceQuery, handleFundingRateQuery. stable_auto.
Qed.

Lemma collectPrices_total symbols prices : total (collectPrices P W symbols prices).
Proof.
  revert prices. induction symbols as [|symbol rest IH]; intros prices; simpl.
  - apply total_ret.
  - apply total_bind; [apply getPrice_total|]. intros price. apply IH.
Qed.

Lemma collectFunding_total symbols fundingData :
  total (collectFunding P W symbols fundingData).
Proof.
  revert fundingData. induction symbols as [|symbol rest IH]; intros fundingData; simpl.
  - apply total_ret.
  - apply total_bind; [apply getFundingRates_total|]. intros rates. apply IH.
Qed.

Lemma handlePriceQuery_total text : total (handlePriceQuery P W text).
Proof.
  unfold handlePriceQuery. apply total_bind; [apply collectPrices_total|].
  intros prices. destruct (length prices =? 0)%nat; apply total_ret.
Qed.

Lemma handleFundingRateQuery_total text : total (handleFundingRateQuery P W text).
Proof.
  unfold handleFundingRateQuery. apply total_bind; [apply collectFunding_total|].
  intros data. destruct (0 <? length data)%nat; apply total_ret.
Qed.

End QueryFacts.

Section GetRuns.

Variable P : Provider.
Variable W : World.

Lemma get_price_query raw s :
  raw <> "" ->
  Text.includes (Text.toLowerCase raw) "price"
    || Text.includes (Text.toLowerCase raw) "quote" = true ->
  exists answer,
    handlePriceQuery P W (Text.toLowerCase raw) s
      = (Return answer, snd (handlePriceQuery P W (Text.toLowerCase raw) s))
    /\ get P W (Some raw) s
       = (Return (Some answer), snd (handlePriceQuery P W (Text.toLowerCase raw) s)).
Proof.
  intros Hraw Hq.
  destruct (handlePriceQuery_total P W (Text.toLowerCase raw) s) as [answer Ha].
  exists answer. destruct raw as [|c r]; [contradiction|].
  unfold get, try_catch, mbind, M_bind. rewrite Hq.
  destruct (handlePriceQuery P W _ s) as [res s1]. simpl in *. subst res.
  split; reflexivity.
Qed.

Lemma get_funding_query raw s :
  raw <> "" ->
  Text.includes (Text.toLowerCase raw) "price"
    || Text.includes (Text.toLowerCase raw) "quote" = false ->
  Text.includes (Text.toLowerCase raw) "funding"
    || Text.includes (Text.toLowerCase raw) "rate" = true ->
  exists answer,
    handleFundingRateQuery P W (Text.toLowerCase raw) s
      = (Return answer, snd (handleFundingRateQuery P W (Text.toLowerCase raw) s))
    /\ get P W (Some raw) s
       = (Return (Some answer), snd (handleFundingRateQuery P W (Text.toLowerCase raw) s)).
Proof.
  intros Hraw Hq Hf.
  destruct (handleFundingRateQuery_total P W (Text.toLowerCase raw) s) as [answer Ha].
  exists answer. destruct raw as [|c r]; [contradiction|].
  unfold get, try_catch, mbind, M_bind. rewrite Hq, Hf.
  destruct (handleFundingRateQuery P W _ s) as [res s1]. simpl in *. subst res.
  split; reflexivity.
Qed.

Lemma get_other raw s :
  raw <> "" ->
  Text.includes (Text.toLowerCase raw) "price"
    || Text.includes (Text.toLowerCase raw) "quote" = false ->
  Text.includes (Text.toLowerCase raw) "funding"
    || Text.includes (Text.toLowerCase raw) "rate" = false ->
  get P W (Some raw) s = (Return None, s).
Proof.
  intros Hraw Hq Hf. destruct raw as [|c r]; [contradiction|].
  unfold get, try_catch. rewrite Hq, Hf. reflexivity.
Qed.

Lemma get_total messageText : total (get P W messageText).
Proof.
  intros s. destruct messageText as [raw|]; [|eexists; reflexivity].
  destruct (string_dec raw "") as [->|Hraw]; [eexists; reflexivity|].
  destruct (Text.includes (Text.toLowerCase raw) "price"
            || Text.includes (Text.toLowerCase raw) "quote") eqn:Hq.
  - destruct (get_price_query raw s Hraw Hq) as (answer & _ & ->). eexists; reflexivity.
  - destruct (Text.includes (Text.toLowerCase raw) "funding"
              || Text.includes (Text.toLowerCase raw) "rate") eqn:Hf.
    + destruct (get_funding_query raw s Hraw Hq Hf) as (answer & _ & ->).
      eexists; reflexivity.
    + rewrite (get_other raw s Hraw Hq Hf). eexists; reflexivity.
Qed.

Lemma handlePriceQuery_keeps_funding text :
  stable (keeps fundingRateCache) (handlePriceQuery P W text).
Proof.
  unfold handlePriceQuery. apply stable_bind; [exact _| |].
  - apply collectPrices_stable; [exact _|]. intros symbol.
    apply getPrice_stable; [exact _|]. intros; reflexivity.
  - intros prices. destruct (length prices =? 0)%nat; apply stable_ret; exact _.
Qed.

Lemma handleFundingRateQuery_keeps_prices text :
  stable (keeps priceCache) (handleFundingRateQuery P W text).
Proof.
  unfold handleFundingRateQuery. apply stable_bind; [exact _| |].
  - apply collectFunding_stable; [exact _|]. intros symbol.
    apply getFundingRates_stable; [exact _|]. intros; reflexivity.
  - intros data. destruct (0 <? length data)%nat; apply stable_ret; exact _.
Qed.

End GetRuns.

(** X8. The provider's [get] never throws. Without a message text it
    answers its description, and for an (ASCII) text that, lower-cased,
    contains none of "price", "quote", "funding", "rate" it answers null; in
    both cases nothing is sent, logged or cached. A text containing "price"
    or "quote" is answered by [handlePriceQuery] even when it also mentions
    funding, and leaves the funding-rate cache as it was; any other text
    containing "funding" or "rate" is answered by [handleFundingRateQuery]
    and leaves the price cache as it was. The keywords count as substrings. *)
Theorem get_dispatches_on_keywords :
  forall P W messageText s,
    (exists answer, fst (get P W messageText s) = Return answer)
    /\ (messageText = None \/ messageText = Some "" ->
        get P W messageText s = (Return (Some description), s))
    /\ (forall raw,
          messageText = Some raw -> raw <> "" -> Text.is_ascii raw = true ->
          let text := Text.toLowerCase raw in
          let priceQuery := Text.includes text "price" || Text.includes text "quote" in
          let fundingQuery := Text.includes text "funding" || Text.includes text "rate" in
          (priceQuery = true ->
           (exists answer,
               handlePriceQuery P W text s
                 = (Return answer, snd (handlePriceQuery P W text s))
               /\ get P W messageText s
                  = (Return (Some answer), snd (handlePriceQuery P W text s)))
           /\ fundingRateCache (snd (get P W messageText s)) = fundingRateCache s)
          /\ (priceQuery = false -> fundingQuery = true ->
              (exists answer,
                  handleFundingRateQuery P W text s
                    = (Return answer, snd (handleFundingRateQuery P W text s))
                  /\ get P W messageText s
                     = (Return (Some answer), snd (handleFundingRateQuery P W text s)))
              /\ priceCache (snd (get P W messageText s)) = priceCache s)
          /\ (priceQuery = false -> fundingQuery = false ->
              get P W messageText s = (Return None, s))).
Proof.
  intros P W messageText s. split; [apply get_total|]. split.
  - intros [->| ->]; reflexivity.
  - intros raw -> Hraw _ text priceQuery fundingQuery. subst text priceQuery fundingQuery.
    split; [|split].
    + intros Hq. destruct (get_price_query P W raw s Hraw Hq) as (answer & Hrun & Hget).
      split; [exists answer; split; assumption|]. rewrite Hget. simpl.
      apply (handlePriceQuery_keeps_funding P W (Text.toLowerCase raw) s).
    + intros Hq Hf.
      destruct (get_funding_query P W raw s Hraw Hq Hf) as (answer & Hrun & Hget).
      split; [exists answer; split; assumption|]. rewrite Hget. simpl.
      apply (handleFundingRateQuery_keeps_prices P W (Text.toLowerCase raw) s).
    + intros Hq Hf. apply get_other; assumption.
Qed.

Lemma get_dispatches_on_keywords_witness :
  let s := initial Demo.t0 in
  get Demo.P0 Demo.down (Some "") s = (Return (Some description), s)
  /\ fundingRateCache
       (snd (get Demo.P0 (DemoFunding.W 1) (Some "BTC price and funding?") s))
     = fundingRateCache s
  /\ priceCache (snd (get DemoBTC.P DemoBTC.W (Some "BTC funding, please") s))
     = priceCache s
  /\ get DemoBTC.P DemoBTC.W (Some "How is BTC doing?") s = (Return None, s).
Proof.
  intros s. split; [|split; [|split]].
  - apply (proj1 (proj2 (get_dispatches_on_keywords Demo.P0 Demo.down (Some "") s))).
    right. reflexivity.
  - apply (proj2 (proj2 (get_dispatches_on_keywords Demo.P0 (DemoFunding.W 1)
                           (Some "BTC price and funding?") s))
             "BTC price and funding?" eq_refl ltac:(discriminate) eq_refl).
    vm_compute. reflexivity.
  - apply (proj1 (proj2 (proj2 (proj2 (get_dispatches_on_keywords DemoBTC.P DemoBTC.W
                                         (Some "BTC funding, please") s))
                          "BTC funding, please" eq_refl ltac:(discriminate) eq_refl))).
    + vm_compute. reflexivity.
    + vm_compute. reflexivity.
  - apply (proj2 (proj2 (proj2 (proj2 (get_dispatches_on_keywords DemoBTC.P DemoBTC.W
                                         (Some "How is BTC doing?") s))
                          "How is BTC doing?" eq_refl ltac:(discriminate) eq_refl))).
    + vm_compute. reflexivity.
    + vm_compute. reflexivity.
Defined.

(** ** What a price answer reports *)

Lemma querySymbols_NoDup : NoDup querySymbols.
Proof.
  unfold querySymbols.
  repeat (apply NoDup_cons_2;
          [ rewrite list_elem_of_In; simpl; intros H;
            repeat (destruct H as [H|H]; [discriminate H|]); exact H | ]).
  apply NoDup_nil_2.
Qed.

Lemma extractSymbols_NoDup text : NoDup (extractSymbols text).
Proof.
  eapply sublist_NoDup; [apply querySymbols_NoDup | apply filter_sublist].
Qed.

Section PriceAnswers.

Variable P : Provider.
Variable W : World.

(** A call for one symbol leaves the entries of the others. *)
Lemma getPrice_frame symbol s k :
  k <> symbol ->
  priceCache (snd (getPrice P W symbol s)) !! k = priceCache s !! k.
Proof.
  intros Hk.
  destruct (getPrice_effect P W symbol s)
    as [(c & -> & _)|[(_ & s' & -> & Hc)|(_ & q & s' & -> & _ & Hc)]]; simpl.
  - reflexivity.
  - rewrite Hc. reflexivity.
  - rewrite Hc. apply lookup_insert_ne. congruence.
Qed.

(** What a call for [symbol] returns is in the cache under [symbol] after
    it, carries [symbol] and passes the guard. *)
Lemma getPrice_returns_cached symbol s q :
  cache_keyed P s -> cache_guarded s ->
  fst (getPrice P W symbol s) = Return (Some q) ->
  priceCache (snd (getPrice P W symbol s)) !! symbol = Some q
  /\ PriceFeed.symbol q = symbol /\ valid_price q = true.
Proof.
  intros Hkey Hguard Hret.
  pose proof (getPrice_shape P W symbol s q Hkey Hret) as (Hsym & _).
  destruct (getPrice_effect P W symbol s)
    as [(c & Hrun & Hc & _)|[(_ & s' & Hrun & _)|(_ & q' & s' & Hrun & Hv & Hc)]];
    rewrite Hrun in *; simpl in *.
  - injection Hret as <-. split; [exact Hc|]. split; [exact Hsym|]. exact (Hguard symbol c Hc).
  - discriminate.
  - injection Hret as <-. split; [rewrite Hc; apply lookup_insert_eq|].
    split; [exact Hsym | exact Hv].
Qed.



End PriceAnswers.

Lemma turns_symbols {A : Type} (call : string -> M A) symbols :
  forall s, map fst (turns call symbols s) = symbols.
Proof.
  induction symbols as [|symbol rest IH]; intros s; simpl; [|rewrite IH]; reflexivity.
Qed.



Example price_answer_run :
  fst (get DemoBTC.P DemoBTC.W (Some "BTC price and ETH?") DemoBTC.s0)
    = Return (Some "BTC: $65000.5000 (CoinGecko)")
  /\ fst (get DemoBTC.P DemoOverflow.W (Some "quote sei") DemoBTC.s0)
     = Return (Some "SEI: $Infinity (CoinGecko)")
  /\ fst (get DemoBTC.P Demo.down (Some "price of sei") DemoBTC.s0)
     = Return (Some no_price_data).
Proof. vm_compute. repeat split. Qed.

(** ** What a funding answer reports *)

Section FundingAnswers.

Variable P : Provider.
Variable W : World.

Lemma getFundingRates_frame symbol s k :
  k <> symbol ->
  fundingRateCache (snd (getFundingRates P W symbol s)) !! k = fundingRateCache s !! k.
Proof.
  intros Hk.
  destruct (getFundingRates_effect P W symbol s) as (rates & s' & -> & _ & Hc & _). simpl.
  destruct Hc as [->|[_ ->]]; [reflexivity|]. apply lookup_insert_ne. congruence.
Qed.

(** A non-empty list that a call returns is in the cache after it. *)
Lemma getFundingRates_returns_cached symbol s rates :
  fst (getFundingRates P W symbol s) = Return rates ->
  rates <> [] ->
  fundingRateCache (snd (getFundingRates P W symbol s)) !! symbol = Some rates.
Proof.
  destruct (rates_fresh P (of_Z (clock s)) (fundingRateCache s !! symbol)) eqn:Hfresh.
  - destruct (getFundingRates_hit P W symbol s Hfresh) as (cached & Hc & ->). simpl.
    intros [= <-] _. exact Hc.
  - unfold getFundingRates, try_catch, mbind, M_bind, gets, Date_now. cbn.
    rewrite Hfresh.
    pose proof (stable_Promise_all3 (keeps fundingRateCache) _ _ _
                  (getBinanceFundingRate_stable (keeps fundingRateCache) P W symbol)
                  (getBybitFundingRate_stable (keeps fundingRateCache) P W symbol)
                  (getOkxFundingRate_stable (keeps fundingRateCache) P W symbol) s) as Hf.
    unfold keeps in Hf.
    destruct (Promise_all3 _ _ _ s) as [[all|e] s1]; cbn in *.
    + destruct (non_null all) as [|r rest] eqn:Hrates; cbn.
      * intros [= <-] Hne. contradiction.
      * intros [= <-] _. apply lookup_insert_eq.
    + intros [= <-] Hne. contradiction.
Qed.

Lemma collectFunding_turns symbols :
  forall fundingData s,
    fst (collectFunding P W symbols fundingData s)
    = Return (fundingData
                ++ omap (rates_line_of P W) (turns (getFundingRates P W) symbols s))%list.
Proof.
  induction symbols as [|symbol rest IH]; intros fundingData s.
  - simpl. rewrite app_nil_r. reflexivity.
  - destruct (getFundingRates_total P W symbol s) as [rates Hrates].
    assert (Hline : rates_line_of P W (symbol, s)
                    = if (0 <? length rates)%nat
                      then Some (rates_line symbol rates) else None).
    { unfold rates_line_of, rates_of. simpl. rewrite Hrates. reflexivity. }
    simpl. unfold mbind, M_bind. rewrite Hline.
    destruct (getFundingRates P W symbol s) as [res s1]. simpl in *. subst res.
    rewrite IH. destruct (0 <? length rates)%nat; simpl; [rewrite <- app_assoc|];
      reflexivity.
Qed.

(** Every call of the loop returns normally a list with at most one rate per
    exchange, each for the ticker of the call. *)
Lemma turns_getFundingRates symbols :
  forall s,
    reachable P s ->
    Forall (fun turn =>
              exists rates,
                fst (getFundingRates P W (fst turn) (snd turn)) = Return rates
                /\ rates_for (fst turn) rates)
      (turns (getFundingRates P W) symbols s).
Proof.
  induction symbols as [|symbol rest IH]; intros s Hr; simpl; constructor.
  - simpl. destruct (getFundingRates_total P W symbol s) as [rates Hrates].
    exists rates. split; [exact Hrates|].
    exact (getFundingRates_shape P W symbol s rates (reachable_rates_keyed P s Hr) Hrates).
  - apply IH. exact (reach_step P s W (CallGetFundingRates symbol) Hr).
Qed.

End FundingAnswers.

(** X10. In any state an instance can reach, [handleFundingRateQuery]
    calls [getFundingRates] once for each ticker extracted from the text, in
    the order BTC, ETH, SEI, USDC, SOL, AVAX, one call after the other (here
    each starts in the state that the call before it left), and every call
    returns normally a list
    with at most one rate per exchange, in the order Binance, Bybit, OKX,
    each rate for the ticker of the call. The answer has exactly one line for
    each call that returned a non-empty list, in the order of the calls, and
    the line shows the ticker and that list. When every call returned the
    empty list the answer is the fixed "No funding rate data" sentence. *)
Theorem funding_answer_lists_returned_rates :
  forall P W text s,
    reachable P s ->
    let calls := turns (getFundingRates P W) (extractSymbols text) s in
    let lines := omap (rates_line_of P W) calls in
    fst (handleFundingRateQuery P W text s)
      = Return (match lines with
                | [] => no_funding_data
                | _ => Text.join newline lines
                end)
    /\ map fst calls = extractSymbols text
    /\ sublist (map fst calls) querySymbols
    /\ Forall (fun turn =>
                 exists rates,
                   fst (getFundingRates P W (fst turn) (snd turn)) = Return rates
                   /\ rates_for (fst turn) rates) calls.
Proof.
  intros P W text s Hr calls lines. subst calls lines.
  split; [|split; [|split]].
  - unfold handleFundingRateQuery, mbind, M_bind.
    pose proof (collectFunding_turns P W (extractSymbols text) [] s) as Hret.
    destruct (collectFunding P W (extractSymbols text) [] s) as [res s1].
    simpl in Hret. subst res.
    destruct (omap (rates_line_of P W)
                (turns (getFundingRates P W) (extractSymbols text) s));
      reflexivity.
  - apply turns_symbols.
  - rewrite turns_symbols. apply filter_sublist.
  - apply turns_getFundingRates. exact Hr.
Qed.

Lemma funding_answer_lists_returned_rates_witness :
  let text := "funding for btc" in
  let s := initial Demo.t0 in
  let calls := turns (getFundingRates Demo.P0 (DemoFunding.W 1)) (extractSymbols text) s in
  let lines := omap (rates_line_of Demo.P0 (DemoFunding.W 1)) calls in
  fst (handleFundingRateQuery Demo.P0 (DemoFunding.W 1) text s)
    = Return (match lines with
              | [] => no_funding_data
              | _ => Text.join newline lines
              end)
  /\ map fst calls = extractSymbols text
  /\ sublist (map fst calls) querySymbols
  /\ Forall (fun turn =>
               exists rates,
                 fst (getFundingRates Demo.P0 (DemoFunding.W 1) (fst turn) (snd turn))
                   = Return rates
                 /\ rates_for (fst turn) rates) calls.
Proof.
  exact (funding_answer_lists_returned_rates Demo.P0 (DemoFunding.W 1) "funding for btc"
           (initial Demo.t0) (reach_initial Demo.P0 Demo.t0)).
Defined.

Example funding_answer_run :
  fst (get Demo.P0 (DemoFunding.W 1) (Some "Funding for BTC?") (initial Demo.t0))
    = Return (Some "BTC: Binance: 87.6000%, OKX: -219.0000%")
  /\ fst (get Demo.P0 DemoMissingField.W (Some "btc rate") (initial Demo.t0))
     = Return (Some "BTC: Binance: NaN%")
  /\ fst (get Demo.P0 Demo.down (Some "our strategy for eth") (initial Demo.t0))
     = Return (Some no_funding_data).
Proof. vm_compute. repeat split. Qed.

(** ** The module's single instance *)

Lemma get_keeps_schedule P W messageText : stable (keeps schedule) (get P W messageText).
Proof.
  apply get_stable; [exact _ | |].
  - intros symbol. apply getPrice_keeps_schedule.
  - intros symbol. apply getFundingRates_keeps_schedule.
Qed.

Lemma refreshing_schedule s s' : schedule s' = schedule s -> refreshing s -> refreshing s'.
Proof.
  unfold schedule, refreshing. intros [= Hu Ht Hn]. rewrite Hu, Ht. auto.
Qed.

Lemma elapse_refreshing P W dt s : refreshing s -> refreshing (elapse P W dt s).
Proof.
  intros (t & Hts & Hu & Hp).
  pose proof (fire_all_stable P (keeps schedule) W (clock s + dt) (timers s) s
                (getPrice_keeps_schedule P W) (getFundingRates_keeps_schedule P W)) as Hk.
  unfold keeps, schedule in Hk. injection Hk as Hu' Ht' Hn'.
  unfold elapse, refreshing. simpl. rewrite Hu', Ht', Hts, Hu. simpl.
  eexists. split; [reflexivity|]. split; [reflexivity | exact Hp].
Qed.

Lemma startPriceUpdates_starts P s :
  updateInterval s = None ->
  startPriceUpdates P s =
    (Return tt,
     set_timers (Some (nextHandle s))
       (timers s ++ [{| handle := nextHandle s;
                        period := OracleConfig.updateInterval (config P) * 1000;
                        due := clock s + OracleConfig.updateInterval (config P) * 1000 |}])
       (S (nextHandle s)) s).
Proof.
  intros Hu. unfold startPriceUpdates, mbind, M_bind, gets, setInterval, modify. simpl.
  rewrite Hu. reflexivity.
Qed.

Lemma first_ask_refreshing getSetting W messageText s :
  timers s = [] -> updateInterval s = None ->
  exists r s',
    (startPriceUpdates (new_SeiOracleProvider getSetting);;
     elizaLogger LInfo "SEI Oracle Provider initialized and price updates started" "" None;;
     get (new_SeiOracleProvider getSetting) W messageText)
      (snd (construct getSetting s)) = (r, s')
    /\ refreshing s'.
Proof.
  intros Hts Hu. eexists. eexists. split; [apply surjective_pairing|].
  unfold mbind at 1. unfold M_bind at 1.
  rewrite startPriceUpdates_starts by exact Hu.
  unfold mbind, M_bind, elizaLogger, modify.
  match goal with
  | |- refreshing (snd (get ?P ?W ?m ?s0)) =>
      apply (refreshing_schedule s0); [apply (get_keeps_schedule P W m s0)|]
  end.
  unfold refreshing, construct, mbind, M_bind, elizaLogger, modify. simpl. rewrite Hts. simpl.
  eexists. split; [reflexivity|]. split; reflexivity.
Qed.

Lemma construct_run getSetting s :
  exists entry,
    construct getSetting s = (Return (new_SeiOracleProvider getSetting), add_log entry s).
Proof. eexists. reflexivity. Qed.

Lemma oracleProvider_get_inv getSetting W messageText g :
  plugin_inv g -> plugin_inv (snd (oracleProvider_get getSetting W messageText g)).
Proof.
  unfold plugin_inv, oracleProvider_get.
  destruct (oracleInstance g) as [instance|].
  - intros [Hnew Href].
    pose proof (get_keeps_schedule instance W messageText (plugin_state g)) as Hk.
    destruct (get instance W messageText (plugin_state g)) as [r s]. simpl in *.
    split; [exact Hnew|]. exact (refreshing_schedule _ _ Hk Href).
  - intros (Hts & Hu & _).
    destruct (first_ask_refreshing getSetting W messageText (plugin_state g) Hts Hu)
      as (r & s' & Hrun & Href).
    unfold construct, mbind, M_bind, elizaLogger, modify in *. simpl in *.
    rewrite Hrun. simpl. split; [eexists; reflexivity | exact Href].
Qed.

Lemma plugin_reachable_inv g : plugin_reachable g -> plugin_inv g.
Proof.
  induction 1 as [now|g W c Hr IH].
  - unfold plugin_inv. simpl. repeat split.
  - destruct c as [getSetting messageText|dt]; simpl.
    + apply oracleProvider_get_inv. exact IH.
    + unfold plugin_inv in *. destruct (oracleInstance g) as [instance|]; simpl.
      * destruct IH as [Hnew Href]. split; [exact Hnew|].
        apply elapse_refreshing. exact Href.
      * exact IH.
Qed.

(** X11. The module keeps one provider instance. It is built on the first
    [oracleProvider.get] from the settings of the runtime passed to that
    call, and no later call or wait replaces it: the runtimes of later calls
    are never read. From the first call on exactly one refresh timer is
    live, with a period of 30 seconds, and nothing the module does stops it;
    before the first call the module has sent and logged nothing and has no
    timer. *)
Theorem module_keeps_first_instance :
  forall g, plugin_reachable g ->
    (oracleInstance g = None ->
     timers (plugin_state g) = [] /\ requests (plugin_state g) = []
     /\ logs (plugin_state g) = []
     /\ forall getSetting W messageText,
          oracleInstance (snd (oracleProvider_get getSetting W messageText g))
          = Some (new_SeiOracleProvider getSetting))
    /\ (forall instance,
          oracleInstance g = Some instance ->
          (exists t, timers (plugin_state g) = [t]
                     /\ updateInterval (plugin_state g) = Some (handle t)
                     /\ period t = 30000)
          /\ forall W c, oracleInstance (plugin_step W c g) = Some instance).
Proof.
  intros g Hr. pose proof (plugin_reachable_inv g Hr) as Hinv.
  unfold plugin_inv in Hinv. split.
  - intros Hnone. rewrite Hnone in Hinv. destruct Hinv as (Hts & Hu & Hreq & Hlog).
    split; [exact Hts|]. split; [exact Hreq|]. split; [exact Hlog|].
    intros getSetting W messageText. unfold oracleProvider_get. rewrite Hnone.
    destruct (construct_run getSetting (plugin_state g)) as [entry ->].
    match goal with |- context [let '(_, _) := ?run in _] => destruct run end.
    reflexivity.
  - intros instance Hsome. rewrite Hsome in Hinv. destruct Hinv as [_ Href].
    split; [exact Href|].
    intros W [getSetting messageText|dt]; simpl.
    + unfold oracleProvider_get. rewrite Hsome.
      destruct (get instance W messageText (plugin_state g)). reflexivity.
    + rewrite Hsome. reflexivity.
Qed.

Lemma module_keeps_first_instance_witness :
  let first key := if String.eqb key "YEI_BTC_ORACLE" then Some DemoBTC.oracle else None in
  let other key := if String.eqb key "YEI_SEI_ORACLE" then Some DemoBTC.oracle else None in
  let g := plugin_step DemoBTC.W (Idle 30000)
             (plugin_step DemoBTC.W (AskProvider first (Some "btc price"))
                (loaded Demo.t0)) in
  oracleInstance (snd (oracleProvider_get first DemoBTC.W None (loaded Demo.t0)))
    = Some (new_SeiOracleProvider first)
  /\ (exists t, timers (plugin_state g) = [t]
                /\ updateInterval (plugin_state g) = Some (handle t)
                /\ period t = 30000)
  /\ oracleInstance (plugin_step Demo.down (AskProvider other (Some "sei price")) g)
     = Some (new_SeiOracleProvider first).
Proof.
  intros first other g. split; [|split].
  - apply (proj1 (module_keeps_first_instance (loaded Demo.t0) (plugin_loaded Demo.t0))).
    reflexivity.
  - apply (proj2 (module_keeps_first_instance g
                    ltac:(apply plugin_next; apply plugin_next; apply plugin_loaded))
             (new_SeiOracleProvider first)).
    vm_compute. reflexivity.
  - apply (proj2 (module_keeps_first_instance g
                    ltac:(apply plugin_next; apply plugin_next; apply plugin_loaded))
             (new_SeiOracleProvider first)).
    vm_compute. reflexivity.
Defined.

(** ** The pace of [getPrice] *)

Lemma chained_app W t sent1 t1 sent2 t2 :
  chained W t sent1 t1 -> chained W t1 sent2 t2 -> chained W t (sent1 ++ sent2) t2.
Proof.
  revert t. induction sent1 as [|[at_ r] sent1 IH]; intros t; simpl.
  - intros ->. auto.
  - intros [-> H1] H2. split; [reflexivity|]. apply IH; assumption.
Qed.

Lemma chained_round_trips W t sent t' :
  chained W t sent t' -> t' = t + round_trips W sent.
Proof.
  revert t. induction sent as [|[at_ r] sent IH]; intros t; simpl.
  - intros ->. lia.
  - intros [_ H]. apply IH in H. lia.
Qed.

Section Paced.

Variable W : World.

Lemma paced_still {A : Type} (m : M A) :
  (forall s, requests (snd (m s)) = requests s /\ clock (snd (m s)) = clock s) ->
  paced W m.
Proof.
  intros H s. exists []. destruct (H s) as [Hr Hc].
  rewrite Hr, app_nil_r. split; [reflexivity | exact Hc].
Qed.

Lemma paced_ret {A : Type} (a : A) : paced W (mret a).
Proof. apply paced_still. intros s. split; reflexivity. Qed.

Lemma paced_throw {A : Type} (e : Error) : paced W (@throw A e).
Proof. apply paced_still. intros s. split; reflexivity. Qed.

Lemma paced_gets {A : Type} (f : State -> A) : paced W (gets f).
Proof. apply paced_still. intros s. split; reflexivity. Qed.

Lemma paced_elizaLogger l t sym c : paced W (elizaLogger l t sym c).
Proof. apply paced_still. intros s. split; reflexivity. Qed.

Lemma paced_bind {A B : Type} (m : M A) (f : A -> M B) :
  paced W m -> (forall a, paced W (f a)) -> paced W (m ≫= f).
Proof.
  intros Hm Hf s. unfold mbind, M_bind.
  destruct (Hm s) as (sent1 & Hreq1 & Hc1).
  destruct (m s) as [[a|e] s1]; simpl in *.
  - destruct (Hf a s1) as (sent2 & Hreq2 & Hc2).
    exists (sent1 ++ sent2)%list. split.
    + rewrite Hreq2, Hreq1, app_assoc. reflexivity.
    + eapply chained_app; eassumption.
  - exists sent1. split; assumption.
Qed.

Lemma paced_try_catch {A : Type} (m : M A) (h : Error -> M A) :
  paced W m -> (forall e, paced W (h e)) -> paced W (try_catch m h).
Proof.
  intros Hm Hh s. unfold try_catch.
  destruct (Hm s) as (sent1 & Hreq1 & Hc1).
  destruct (m s) as [[a|e] s1]; simpl in *.
  - exists sent1. split; assumption.
  - destruct (Hh e s1) as (sent2 & Hreq2 & Hc2).
    exists (sent1 ++ sent2)%list. split.
    + rewrite Hreq2, Hreq1, app_assoc. reflexivity.
    + eapply chained_app; eassumption.
Qed.

Lemma paced_readContract a f args : paced W (readContract W a f args).
Proof.
  intros s. exists [(clock s, ReadContract a f args)]. unfold readContract.
  destruct (chain W a f args); simpl; auto.
Qed.

Lemma paced_fetch {B : Type} (service : string -> option (Response B)) url :
  paced W (fetch W service url).
Proof.
  intros s. exists [(clock s, Fetch url)]. unfold fetch.
  destruct (service url); simpl; auto.
Qed.

Lemma paced_json {B : Type} (r : Response B) : paced W (json r).
Proof. unfold json. destruct (body r); [apply paced_ret | apply paced_throw]. Qed.

End Paced.

Ltac paced_step :=
  lazymatch goal with
  | |- paced _ (mbind _ _) => apply paced_bind; [ try assumption | intros ? ]
  | |- paced _ (try_catch _ _) => apply paced_try_catch; [ try assumption | intros ? ]
  | |- paced _ (mret _) => apply paced_ret
  | |- paced _ (throw _) => apply paced_throw
  | |- paced _ (gets _) => apply paced_gets
  | |- paced _ Date_now => apply paced_gets
  | |- paced _ (elizaLogger _ _ _ _) => apply paced_elizaLogger
  | |- paced _ (readContract _ _ _ _) => apply paced_readContract
  | |- paced _ (fetch _ _ _) => apply paced_fetch
  | |- paced _ (json _) => apply paced_json
  | |- paced _ (modify (set_priceCache _ _)) =>
      apply paced_still; intros ?; split; reflexivity
  | |- paced _ (match ?x with _ => _ end) => destruct x
  | |- paced _ _ => solve [auto]
  end.

Ltac paced_auto := repeat paced_step.

Section PacedAdapters.

Variable P : Provider.
Variable W : World.

Lemma getPythPrice_paced symbol : paced W (getPythPrice P W symbol).
Proof. unfold getPythPrice. paced_auto. Qed.

Lemma getCoinGeckoPrice_paced symbol : paced W (getCoinGeckoPrice W symbol).
Proof. unfold getCoinGeckoPrice. paced_auto. Qed.

Lemma getCexPrice_paced symbol : paced W (getCexPrice P W symbol).
Proof. unfold getCexPrice. paced_auto. Qed.

Lemma getYeiMultiOraclePrice_paced symbol : paced W (getYeiMultiOraclePrice P W symbol).
Proof. unfold getYeiMultiOraclePrice. paced_auto. Qed.

Lemma getAPI3Price_paced symbol : paced W (getAPI3Price P W symbol).
Proof. unfold getAPI3Price, getAPI3dApiId. paced_auto. Qed.

Lemma getRedstonePrice_paced symbol : paced W (getRedstonePrice P W symbol).
Proof. unfold getRedstonePrice. paced_auto. Qed.

Lemma getYeiPrice_paced symbol : paced W (getYeiPrice P W symbol).
Proof.
  pose proof (getAPI3Price_paced symbol).
  pose proof (getPythPrice_paced symbol).
  pose proof (getRedstonePrice_paced symbol).
  unfold getYeiPrice. paced_auto.
Qed.

Lemma legacyPrice_paced symbol : paced W (legacyPrice P W symbol).
Proof.
  pose proof (getYeiPrice_paced symbol).
  unfold legacyPrice. paced_auto.
Qed.

Lemma priority_paced symbol a : In a (priority P W symbol) -> paced W a.
Proof.
  pose proof (getYeiMultiOraclePrice_paced symbol).
  pose proof (getCoinGeckoPrice_paced symbol).
  pose proof (getPythPrice_paced symbol).
  pose proof (getCexPrice_paced symbol).
  pose proof (legacyPrice_paced symbol).
  unfold priority. simpl.
  intros [<-|[<-|[<-|[<-|[<-|[]]]]]];
    unfold source1, source2, source3, source4, source5, log_using; paced_auto.
Qed.

Lemma first_quote_paced l : (forall a, In a l -> paced W a) -> paced W (first_quote l).
Proof.
  induction l as [|a l IH]; intros H; simpl.
  - apply paced_ret.
  - apply paced_bind; [apply H; left; reflexivity|].
    intros [q|]; [apply paced_ret|].
    apply IH. intros b Hb. apply H. right. exact Hb.
Qed.

Lemma getPrice_paced symbol : paced W (getPrice P W symbol).
Proof.
  intros s.
  destruct (price_fresh P (of_Z (clock s)) (priceCache s !! symbol)) eqn:Hfresh.
  - destruct (price_fresh_cached _ _ _ Hfresh) as [c Hc]. rewrite Hc in Hfresh.
    rewrite (getPrice_hit P W symbol s c Hc Hfresh). exists []. simpl.
    rewrite app_nil_r. split; reflexivity.
  - rewrite getPrice_miss by exact Hfresh.
    revert s Hfresh.
    assert (paced W
              (try_catch (resolvePrice_spec P W symbol)
                 (fun error => elizaLogger LError "Failed to get price for" symbol (Some error);;
                               mret None))) as H; [|intros s _; apply H].
    pose proof (first_quote_paced (priority P W symbol) (priority_paced symbol)).
    unfold resolvePrice_spec, store_valid. paced_auto.
Qed.

End PacedAdapters.

(** X12. The requests of a [getPrice] call go out one at a time: the first
    at the time of the call, each further one at the moment the reply to the
    one before arrives, and the call returns when the last reply has
    arrived. A call therefore lasts the sum of the round trips of the
    requests it sends (up to seven), and no time at all on a cache hit or
    for a symbol no adapter is configured for. *)
Theorem getPrice_requests_are_sequential :
  forall P W symbol s,
    exists sent,
      requests (snd (getPrice P W symbol s)) = (requests s ++ sent)%list
      /\ chained W (clock s) sent (clock (snd (getPrice P W symbol s)))
      /\ clock (snd (getPrice P W symbol s)) = clock s + round_trips W sent.
Proof.
  intros P W symbol s. destruct (getPrice_paced P W symbol s) as (sent & Hreq & Hch).
  exists sent. split; [exact Hreq|]. split; [exact Hch|].
  apply chained_round_trips. exact Hch.
Qed.

Example getPrice_pace_run :
  let s := snd (getPrice Demo.P0 Demo.down "SEI" (initial Demo.t0)) in
  map fst (requests s)
    = [Demo.t0; Demo.t0 + 100; Demo.t0 + 200; Demo.t0 + 300; Demo.t0 + 400; Demo.t0 + 500]
  /\ clock s = Demo.t0 + 600.
Proof. vm_compute. split; reflexivity. Qed.

(** ** What the refresh writes *)

#[global] Instance keeps_entries_at k : Ambient (keeps (entries_at k)).
Proof. split; unfold keeps, entries_at; intros; simpl; congruence. Qed.

Section RefreshWrites.

Variable P : Provider.
Variable W : World.

Lemma getPrice_keeps_others symbol k :
  k <> symbol -> stable (keeps (entries_at k)) (getPrice P W symbol).
Proof.
  intros Hk s. unfold keeps, entries_at. f_equal.
  - apply getPrice_frame. exact Hk.
  - pose proof (getPrice_stable P W (keeps fundingRateCache) symbol
                  ltac:(intros; reflexivity) s) as H.
    unfold keeps in H. rewrite H. reflexivity.
Qed.

Lemma getFundingRates_keeps_others symbol k :
  k <> symbol -> stable (keeps (entries_at k)) (getFundingRates P W symbol).
Proof.
  intros Hk s. unfold keeps, entries_at. f_equal.
  - destruct (getFundingRates_effect P W symbol s) as (rates & s' & -> & Hp & _). simpl.
    rewrite Hp. reflexivity.
  - apply getFundingRates_frame. exact Hk.
Qed.

Lemma fire_by_refresh R `{!Ambient R} n every at_ s :
  stable R (refresh P W) -> R s (fire P W n every at_ s).
Proof.
  intros Hrefresh. revert at_ s. induction n as [|n IH]; intros at_ s; simpl.
  - apply amb_refl.
  - eapply amb_trans; [apply amb_clock|].
    eapply amb_trans; [apply Hrefresh|]. apply IH.
Qed.

Lemma elapse_by_refresh R `{!Ambient R} dt s :
  stable R (refresh P W) ->
  (forall h ts n s, R s (set_timers h ts n s)) ->
  R s (elapse P W dt s).
Proof.
  intros Hrefresh Ht. unfold elapse.
  assert (forall ts s0,
             R s0 (fold_left
                     (fun acc t => fire P W (firings t (clock s + dt)) (Z.max 1 (period t))
                                     (due t) acc) ts s0)) as Hfold.
  { induction ts as [|t ts IH]; intros s0; simpl; [apply amb_refl|].
    eapply amb_trans;
      [exact (fire_by_refresh R (firings t (clock s + dt)) (Z.max 1 (period t)) (due t) s0
                Hrefresh)
      | apply IH]. }
  eapply amb_trans; [apply Hfold|].
  eapply amb_trans; [apply amb_clock|]. apply Ht.
Qed.

Lemma refresh_keeps_others k :
  ~ In k ["BTC"; "ETH"; "SEI"] -> stable (keeps (entries_at k)) (refresh P W).
Proof.
  intros Hk.
  assert (forall symbol, In symbol ["BTC"; "ETH"; "SEI"] -> k <> symbol) as Hne
    by (intros symbol Hin ->; exact (Hk Hin)).
  pose proof (getPrice_keeps_others "BTC" k (Hne "BTC" (or_introl eq_refl))).
  pose proof (getPrice_keeps_others "ETH" k (Hne "ETH" (or_intror (or_introl eq_refl)))).
  pose proof (getPrice_keeps_others "SEI" k
                (Hne "SEI" (or_intror (or_intror (or_introl eq_refl))))).
  pose proof (getFundingRates_keeps_others "BTC" k (Hne "BTC" (or_introl eq_refl))).
  pose proof (getFundingRates_keeps_others "ETH" k (Hne "ETH" (or_intror (or_introl eq_refl)))).
  pose proof (getFundingRates_keeps_others "SEI" k
                (Hne "SEI" (or_intror (or_intror (or_introl eq_refl))))).
  unfold refresh. stable_auto.
Qed.

End RefreshWrites.

(** X13. The periodic refresh only ever writes the entries of BTC, ETH and
    SEI: however long one waits and whatever the services answer, the
    entries of both caches under any other key, spelled differently or
    another ticker, are exactly what they were, so a quote for another
    symbol is never renewed by the timer. *)
Theorem refresh_writes_only_the_majors :
  forall P W dt s k,
    ~ In k ["BTC"; "ETH"; "SEI"] ->
    priceCache (elapse P W dt s) !! k = priceCache s !! k
    /\ fundingRateCache (elapse P W dt s) !! k = fundingRateCache s !! k.
Proof.
  intros P W dt s k Hk.
  pose proof (elapse_by_refresh P W (keeps (entries_at k)) dt s
                (refresh_keeps_others P W k Hk) ltac:(intros; reflexivity)) as H.
  unfold keeps, entries_at in H. injection H as Hp Hf. split; assumption.
Qed.

Lemma refresh_writes_only_the_majors_witness :
  let s := step DemoBTC.P DemoBTC.W (CallGetPrice "btc")
             (step DemoBTC.P DemoBTC.W CallStartPriceUpdates DemoBTC.s0) in
  priceCache (elapse DemoBTC.P Demo.down 90000 s) !! "btc" = priceCache s !! "btc"
  /\ fundingRateCache (elapse DemoBTC.P Demo.down 90000 s) !! "btc"
     = fundingRateCache s !! "btc".
Proof.
  intros s.
  apply (refresh_writes_only_the_majors DemoBTC.P Demo.down 90000 s "btc").
  simpl. intros H. repeat (destruct H as [H|H]; [discriminate H|]). exact H.
Defined.

(** ** The price-query action: which tickers it extracts *)

Lemma toUpperCase_fixed_cons c s :
  Str.toUpperCase (String c s) = String c s ->
  Str.upper_ascii c = c /\ Str.toUpperCase s = s.
Proof. rewrite toUpperCase_cons. intros [= Hc Hs]. split; assumption. Qed.

Lemma literal_spec symbol :
  Str.toUpperCase symbol = symbol ->
  forall s rest,
    Str.toUpperCase s = s ->
    PriceQuery.literal symbol s = Some rest <-> s = symbol ++ rest.
Proof.
  induction symbol as [|a symbol IH]; intros Hsym s rest Hs.
  - change ("" ++ rest) with rest. destruct s; simpl; split; congruence.
  - apply toUpperCase_fixed_cons in Hsym as [Ha Hsym].
    destruct s as [|b s].
    + simpl. split; [discriminate|]. intros H.
      change (String a symbol ++ rest) with (String a (symbol ++ rest)) in H. discriminate.
    + apply toUpperCase_fixed_cons in Hs as [Hb Hs].
      change (String a symbol ++ rest) with (String a (symbol ++ rest)).
      simpl. rewrite Ha, Hb.
      destruct (Ascii.eqb a b) eqn:Hab.
      * apply Ascii.eqb_eq in Hab. subst b. rewrite (IH Hsym s rest Hs).
        split; congruence.
      * apply Ascii.eqb_neq in Hab. split; [discriminate | congruence].
Qed.

Lemma test_spec symbol :
  Str.toUpperCase symbol = symbol ->
  forall s before,
    Str.toUpperCase s = s ->
    PriceQuery.test symbol before s = true <->
    exists a b, s = a ++ symbol ++ b /\ PriceQuery.delimited symbol before a b = true.
Proof.
  intros Hsym.
  assert (forall s before, Str.toUpperCase s = s ->
            PriceQuery.matches_here symbol before s = true <->
            exists b, s = symbol ++ b /\ PriceQuery.delimited symbol before "" b = true) as Hhere.
  { intros s before Hs. unfold PriceQuery.matches_here, PriceQuery.delimited. simpl PriceQuery.last.
    destruct (PriceQuery.literal symbol s) as [rest|] eqn:Hlit.
    - apply (literal_spec symbol Hsym s rest Hs) in Hlit. subst s. split.
      + intros H. exists rest. split; [reflexivity | exact H].
      + intros (b & Hb & H). apply string_app_inv_head in Hb. subst b. exact H.
    - split; [discriminate|]. intros (b & Hb & _).
      apply (literal_spec symbol Hsym s b Hs) in Hb. congruence. }
  induction s as [|c s IH]; intros before Hs.
  - simpl PriceQuery.test. rewrite orb_false_r, (Hhere "" before Hs). split.
    + intros (b & Hb & H). exists "", b. split; assumption.
    + intros (a & b & Hab & H). destruct a; [|discriminate]. exists b. split; assumption.
  - pose proof (toUpperCase_fixed_cons c s Hs) as [_ Hs'].
    simpl PriceQuery.test. rewrite orb_true_iff, (Hhere _ before Hs), (IH (Some c) Hs').
    split.
    + intros [(b & Hb & H)|(a & b & Hab & H)].
      * exists "", b. split; assumption.
      * exists (String c a), b. split; [rewrite Hab; reflexivity | exact H].
    + intros (a & b & Hab & H). destruct a as [|d a].
      * left. exists b. split; assumption.
      * right. change (String d a ++ symbol ++ b) with (String d (a ++ symbol ++ b)) in Hab.
        injection Hab as <- Hab. exists a, b. split; [exact Hab | exact H].
Qed.

Lemma unique_NoDup (l : list string) : NoDup l -> PriceQuery.unique l = l.
Proof.
  induction 1 as [|x l Hx Hl IH]; [reflexivity|]. simpl. rewrite IH. f_equal.
  clear IH Hl. induction l as [|y l IH]; [reflexivity|]. simpl.
  apply not_elem_of_cons in Hx as [Hxy Hx].
  destruct (String.eqb x y) eqn:Heq; [apply String.eqb_eq in Heq; contradiction|].
  simpl. rewrite (IH Hx). reflexivity.
Qed.

Lemma knownSymbols_NoDup : NoDup PriceQuery.knownSymbols.
Proof.
  unfold PriceQuery.knownSymbols.
  repeat (apply NoDup_cons_2;
          [ rewrite list_elem_of_In; simpl; intros H;
            repeat (destruct H as [H|H]; [discriminate H|]); exact H | ]).
  apply NoDup_nil_2.
Qed.

Lemma action_extractSymbols_filter text :
  PriceQuery.extractSymbols text
  = List.filter (fun symbol => PriceQuery.test symbol None (Str.toUpperCase text))
      PriceQuery.knownSymbols.
Proof.
  unfold PriceQuery.extractSymbols. apply unique_NoDup.
  eapply sublist_NoDup; [apply knownSymbols_NoDup | apply filter_sublist].
Qed.

(** X14. On ASCII text the action's [extractSymbols] finds a ticker
    exactly when it is one of the nine known ones and occurs in the
    upper-cased text either as a whole word (no letter, digit or underscore
    directly before or after it) or directly followed by [/], white space,
    a comma or a full stop, whatever precedes it; the result keeps the order
    of the known list without repetition. Every ticker it finds among BTC,
    ETH, SEI, USDC, SOL, AVAX is also found by the provider's
    [extractSymbols], which looks for plain substrings. *)
Theorem action_extractSymbols_whole_words :
  forall text,
    Text.is_ascii text = true ->
    (forall symbol,
        In symbol (PriceQuery.extractSymbols text) <->
        In symbol PriceQuery.knownSymbols
        /\ exists a b,
             Str.toUpperCase text = a ++ symbol ++ b
             /\ ((PriceQuery.word_at (PriceQuery.last None a) = false
                  /\ PriceQuery.word_at (PriceQuery.head b) = false)
                 \/ exists c, PriceQuery.head b = Some c /\ PriceQuery.is_separator c = true))
    /\ sublist (PriceQuery.extractSymbols text) PriceQuery.knownSymbols
    /\ (forall symbol,
          In symbol (PriceQuery.extractSymbols text) ->
          In symbol querySymbols ->
          In symbol (extractSymbols text)).
Proof.
  intros text _.
  assert (forall symbol,
             In symbol (PriceQuery.extractSymbols text) <->
             In symbol PriceQuery.knownSymbols
             /\ exists a b,
                  Str.toUpperCase text = a ++ symbol ++ b
                  /\ ((PriceQuery.word_at (PriceQuery.last None a) = false
                       /\ PriceQuery.word_at (PriceQuery.head b) = false)
                      \/ exists c, PriceQuery.head b = Some c
                                   /\ PriceQuery.is_separator c = true)) as Hchar.
  { intros symbol. rewrite action_extractSymbols_filter, filter_In.
    split; intros [Hin H]; (split; [exact Hin|]); revert H;
      simpl in Hin;
      repeat (destruct Hin as [Hin|Hin]; [subst symbol|]); try contradiction;
      rewrite test_spec by (reflexivity || apply toUpperCase_idem);
      unfold PriceQuery.delimited, PriceQuery.boundary;
      intros (a & b & Hab & H); exists a, b; (split; [exact Hab|]);
      simpl in *;
      destruct (PriceQuery.word_at (PriceQuery.last None a)),
               (PriceQuery.head b) as [c|]; simpl in *;
      try destruct (PriceQuery.is_word c); simpl in *;
      try destruct (PriceQuery.is_separator c) eqn:Hsep; simpl in *;
      try discriminate; try reflexivity; eauto;
      try (destruct H as [[H1 H2]|(c' & Hc' & Hs')]; try discriminate;
           try (injection Hc' as <-); congruence). }
  split; [exact Hchar|]. split.
  - rewrite action_extractSymbols_filter. apply filter_sublist.
  - intros symbol Hfound Hsix. apply Hchar in Hfound as (_ & a & b & Hab & _).
    unfold extractSymbols. apply filter_In. split; [exact Hsix|].
    apply includes_iff. exists a, b. exact Hab.
Qed.

Lemma action_extractSymbols_whole_words_witness :
  In "BTC" (PriceQuery.extractSymbols "is xbtc. up?")
  /\ In "ETH" (extractSymbols "What about eth?").
Proof.
  pose proof (action_extractSymbols_whole_words "is xbtc. up?" eq_refl) as (Hchar & _).
  pose proof (action_extractSymbols_whole_words "What about eth?" eq_refl) as (_ & _ & Hsub).
  split.
  - apply (proj2 (Hchar "BTC")). split; [vm_compute; tauto|].
    exists "IS X", ". UP?". split; [vm_compute; reflexivity|].
    right. exists "."%char. split; vm_compute; reflexivity.
  - apply Hsub; vm_compute; tauto.
Defined.

Example action_extractSymbols_run :
  PriceQuery.extractSymbols "What's the price of BTC and eth/usdc, sol?"
    = ["BTC"; "ETH"; "USDC"; "SOL"]
  /\ PriceQuery.extractSymbols "ethereum price" = []
  /\ extractSymbols "ethereum price" = ["ETH"].
Proof. vm_compute. repeat split. Qed.

(** ** The price-query action: which messages it accepts *)

Lemma lower_upper_ascii c : Text.lower_ascii (Str.upper_ascii c) = Text.lower_ascii c.
Proof. destruct c as [[] [] [] [] [] [] [] []]; reflexivity. Qed.

Lemma toLowerCase_upper s : Text.toLowerCase (Str.toUpperCase s) = Text.toLowerCase s.
Proof.
  induction s as [|c s IH]; [reflexivity|].
  rewrite toUpperCase_cons, !toLowerCase_cons, lower_upper_ascii, IH. reflexivity.
Qed.

Lemma toLowerCase_app a b :
  Text.toLowerCase (a ++ b) = Text.toLowerCase a ++ Text.toLowerCase b.
Proof.
  induction a as [|c a IH]; [reflexivity|].
  change (String c a ++ b) with (String c (a ++ b)).
  rewrite !toLowerCase_cons, IH. reflexivity.
Qed.

Lemma mentions_iff content words :
  PriceQuery.mentions content words = true <->
  exists w, In w words /\ Text.includes content w = true.
Proof. unfold PriceQuery.mentions. apply existsb_exists. Qed.

Lemma mentions_embedded before content after words :
  PriceQuery.mentions content words = true ->
  PriceQuery.mentions (before ++ content ++ after) words = true.
Proof.
  rewrite !mentions_iff. intros (w & Hw & Hin). exists w. split; [exact Hw|].
  apply includes_embedded. exact Hin.
Qed.

(** A part of a part is a part. *)
Lemma includes_trans s mid sub :
  Text.includes s mid = true -> Text.includes mid sub = true -> Text.includes s sub = true.
Proof.
  rewrite !includes_iff. intros (a & b & ->) (c & d & ->).
  exists (a ++ c), (d ++ b). rewrite !string_app_assoc. reflexivity.
Qed.

(** The fifteen keywords without the four of the form "<ticker> price". *)
Lemma validate_without_ticker_keywords messageText :
  PriceQuery.validate messageText =
    let content :=
      match messageText with Some text => Text.toLowerCase text | None => "" end in
    PriceQuery.mentions content
      [ "price of"; "price for"; "current price"; "how much is"; "what is the price";
        "what's the price"; "whats the price"; "trading at"; "worth"; "value of"; "quote" ]
    || (PriceQuery.mentions content PriceQuery.cryptoSymbols
        && PriceQuery.mentions content PriceQuery.contextWords).
Proof.
  unfold PriceQuery.validate. cbv zeta.
  generalize (match messageText with Some text => Text.toLowerCase text | None => "" end).
  intros content.
  assert (forall pair ticker,
             In (pair, ticker) [("sei price", "sei"); ("btc price", "btc");
                                ("eth price", "eth"); ("usdc price", "usdc")] ->
             Text.includes content pair = true ->
             PriceQuery.mentions content PriceQuery.cryptoSymbols
             && PriceQuery.mentions content PriceQuery.contextWords = true) as Hpair.
  { intros pair ticker Hin Hocc. apply andb_true_iff. split; apply mentions_iff.
    - exists ticker. split.
      + simpl in Hin. repeat (destruct Hin as [Hin|Hin]; [injection Hin as <- <-|]);
          try contradiction; simpl; tauto.
      + apply (includes_trans content pair ticker Hocc).
        simpl in Hin. repeat (destruct Hin as [Hin|Hin]; [injection Hin as <- <-|]);
          try contradiction; vm_compute; reflexivity.
    - exists "price". split; [simpl; tauto|].
      apply (includes_trans content pair "price" Hocc).
      simpl in Hin. repeat (destruct Hin as [Hin|Hin]; [injection Hin as <- <-|]);
        try contradiction; vm_compute; reflexivity. }
  unfold PriceQuery.mentions at 1 3. unfold PriceQuery.priceKeywords. simpl existsb.
  destruct (Text.includes content "sei price") eqn:H1;
    [rewrite (Hpair "sei price" "sei" ltac:(simpl; tauto) H1), !orb_true_r; reflexivity|].
  destruct (Text.includes content "btc price") eqn:H2;
    [rewrite (Hpair "btc price" "btc" ltac:(simpl; tauto) H2), !orb_true_r; reflexivity|].
  destruct (Text.includes content "eth price") eqn:H3;
    [rewrite (Hpair "eth price" "eth" ltac:(simpl; tauto) H3), !orb_true_r; reflexivity|].
  destruct (Text.includes content "usdc price") eqn:H4;
    [rewrite (Hpair "usdc price" "usdc" ltac:(simpl; tauto) H4), !orb_true_r; reflexivity|].
  reflexivity.
Qed.

Lemma validate_symbol_context text ticker :
  In ticker PriceQuery.cryptoSymbols ->
  Text.includes (Text.toLowerCase text) ticker = true ->
  PriceQuery.mentions (Text.toLowerCase text) PriceQuery.contextWords = true ->
  PriceQuery.validate (Some text) = true.
Proof.
  intros Hin Hocc Hctx. unfold PriceQuery.validate. cbv zeta.
  apply orb_true_iff. right. apply andb_true_iff. split; [|exact Hctx].
  apply mentions_iff. exists ticker. split; assumption.
Qed.

(** An occurrence of a ticker in the upper-cased text is an occurrence of
    its lower-case form in the lower-cased text. *)
Lemma occurs_lower text a symbol b :
  Str.toUpperCase text = a ++ symbol ++ b ->
  Text.includes (Text.toLowerCase text) (Text.toLowerCase symbol) = true.
Proof.
  intros Hocc. apply includes_iff.
  exists (Text.toLowerCase a), (Text.toLowerCase b).
  rewrite <- !toLowerCase_app, <- Hocc, toLowerCase_upper. reflexivity.
Qed.

(** X15. On ASCII text, [validate] does not depend on letter case and
    never turns from accepting to rejecting when text is added around the
    message. It accepts every message from which the handler's
    [extractSymbols] gets a ticker other than DAI and that contains one of
    the context words, and every message that the provider's [get] treats as
    a price query ("price" or "quote") and finds a ticker in. Four of its
    fifteen keywords ("sei price", "btc price", "eth price", "usdc price")
    never decide, as they imply a ticker with a context word. Without a text
    it rejects. *)
Theorem validate_accepts_ticker_with_context :
  forall text,
    Text.is_ascii text = true ->
    PriceQuery.validate (Some (Str.toUpperCase text)) = PriceQuery.validate (Some text)
    /\ (forall before after,
          Text.is_ascii before = true -> Text.is_ascii after = true ->
          PriceQuery.validate (Some text) = true ->
          PriceQuery.validate (Some (before ++ text ++ after)) = true)
    /\ (forall symbol,
          In symbol (PriceQuery.extractSymbols text) -> symbol <> "DAI" ->
          PriceQuery.mentions (Text.toLowerCase text) PriceQuery.contextWords = true ->
          PriceQuery.validate (Some text) = true)
    /\ (Text.includes (Text.toLowerCase text) "price"
          || Text.includes (Text.toLowerCase text) "quote" = true ->
        extractSymbols (Text.toLowerCase text) <> [] ->
        PriceQuery.validate (Some text) = true)
    /\ PriceQuery.validate (Some text)
       = PriceQuery.mentions (Text.toLowerCase text)
           [ "price of"; "price for"; "current price"; "how much is"; "what is the price";
             "what's the price"; "whats the price"; "trading at"; "worth"; "value of";
             "quote" ]
         || (PriceQuery.mentions (Text.toLowerCase text) PriceQuery.cryptoSymbols
             && PriceQuery.mentions (Text.toLowerCase text) PriceQuery.contextWords)
    /\ PriceQuery.validate None = false.
Proof.
  intros text _. split; [|split; [|split; [|split; [|split]]]].
  - unfold PriceQuery.validate. rewrite toLowerCase_upper. reflexivity.
  - intros before after _ _. unfold PriceQuery.validate. cbv zeta.
    rewrite !toLowerCase_app, !orb_true_iff, !andb_true_iff.
    intros [H|[H1 H2]]; [left|right; split]; apply mentions_embedded; assumption.
  - intros symbol Hfound Hdai Hctx.
    rewrite action_extractSymbols_filter, filter_In in Hfound. destruct Hfound as [Hin Htest].
    rewrite test_spec in Htest
      by (first [ apply toUpperCase_idem
                | simpl in Hin; repeat (destruct Hin as [Hin|Hin]; [subst symbol; reflexivity|]);
                  contradiction ]).
    destruct Htest as (a & b & Hocc & _). apply occurs_lower in Hocc.
    apply (validate_symbol_context text (Text.toLowerCase symbol)); [|exact Hocc|exact Hctx].
    simpl in Hin. repeat (destruct Hin as [Hin|Hin]; [subst symbol|]);
      try contradiction; try (vm_compute; tauto).
  - intros Hq Hsym.
    destruct (extractSymbols (Text.toLowerCase text)) as [|symbol rest] eqn:Hext;
      [contradiction|].
    assert (In symbol (extractSymbols (Text.toLowerCase text))) as Hin
      by (rewrite Hext; left; reflexivity).
    unfold extractSymbols in Hin. rewrite filter_In, toUpperCase_lower in Hin.
    destruct Hin as [Hsix Hocc]. apply includes_iff in Hocc as (a & b & Hocc).
    apply occurs_lower in Hocc.
    apply (validate_symbol_context text (Text.toLowerCase symbol)); [|exact Hocc|].
    + simpl in Hsix. repeat (destruct Hsix as [Hsix|Hsix]; [subst symbol|]);
        try contradiction; vm_compute; tauto.
    + apply mentions_iff. apply orb_true_iff in Hq as [Hq|Hq];
        [exists "price" | exists "quote"]; (split; [simpl; tauto | exact Hq]).
  - apply (validate_without_ticker_keywords (Some text)).
  - reflexivity.
Qed.

Lemma validate_accepts_ticker_with_context_witness :
  PriceQuery.validate (Some "Hi! what is SOL worth?") = true
  /\ PriceQuery.validate (Some "Avax, cost?") = true
  /\ PriceQuery.validate (Some "a quote for sei") = true.
Proof.
  split; [|split].
  - apply (proj1 (proj2 (validate_accepts_ticker_with_context "what is SOL worth" eq_refl))
             "Hi! " "?" eq_refl eq_refl).
    vm_compute. reflexivity.
  - apply (proj1 (proj2 (proj2 (validate_accepts_ticker_with_context "Avax, cost?" eq_refl)))
             "AVAX").
    + vm_compute. tauto.
    + discriminate.
    + vm_compute. reflexivity.
  - apply (proj1 (proj2 (proj2 (proj2
             (validate_accepts_ticker_with_context "a quote for sei" eq_refl))))).
    + vm_compute. reflexivity.
    + vm_compute. discriminate.
Defined.

Example validate_run :
  PriceQuery.validate (Some "quote") = true
  /\ PriceQuery.extractSymbols "quote" = []
  /\ PriceQuery.validate (Some "DAI cost") = false
  /\ PriceQuery.extractSymbols "DAI cost" = ["DAI"].
Proof. vm_compute. repeat split. Qed.

(** ** Binary64 on safe integers *)

Lemma iter_pos_iter {A : Type} (f : A -> A) (p : positive) (x : A) :
  SpecFloat.iter_pos f p x = Pos.iter f x p.
Proof.
  revert x. induction p as [p IH|p IH|]; intros x; simpl.
  - rewrite !IH. rewrite <- !Pos.iter_swap. reflexivity.
  - rewrite !IH. reflexivity.
  - reflexivity.
Qed.

Lemma size_iter_xO (p : positive) (k : positive) :
  Zpos (digits2_pos (Pos.iter xO p k)) = Zpos (digits2_pos p) + Zpos k.
Proof.
  induction k as [|k IH] using Pos.peano_ind.
  - simpl. lia.
  - rewrite Pos.iter_succ. simpl digits2_pos. rewrite Pos2Z.inj_succ, IH. lia.
Qed.

Lemma Zpos_iter_xO (p k : positive) : Zpos (Pos.iter xO p k) = Zpos p * 2 ^ Zpos k.
Proof.
  induction k as [|k IH] using Pos.peano_ind.
  - simpl. lia.
  - rewrite Pos.iter_succ, Pos2Z.inj_xO, IH, Pos2Z.inj_succ, Z.pow_succ_r by lia. lia.
Qed.

Lemma shr_iter_xO (p k : positive) :
  Pos.iter shr_1 {| shr_m := Zpos (Pos.iter xO p k); shr_r := false; shr_s := false |} k
  = {| shr_m := Zpos p; shr_r := false; shr_s := false |}.
Proof.
  induction k as [|k IH] using Pos.peano_ind.
  - reflexivity.
  - rewrite Pos.iter_succ_r, Pos.iter_succ. simpl shr_1. exact IH.
Qed.

Lemma size_shl p k : 0 <= k -> Zpos (digits2_pos (shl p k)) = Zpos (digits2_pos p) + k.
Proof.
  destruct k as [|d|d]; simpl; intros H; [lia | apply size_iter_xO | lia].
Qed.

Lemma Zpos_shl p k : 0 <= k -> Zpos (shl p k) = Zpos p * 2 ^ k.
Proof.
  destruct k as [|d|d]; simpl shl; intros H; [simpl; lia | apply Zpos_iter_xO | lia].
Qed.

Lemma shl_shl p j k : 0 <= j -> 0 <= k -> shl (shl p j) k = shl p (j + k).
Proof.
  intros Hj Hk. apply Pos2Z.inj. rewrite !Zpos_shl by lia. rewrite Z.pow_add_r by lia. lia.
Qed.

(** A mantissa of full width is left as it is. *)
Lemma binary_round_aux_full sx (m : positive) (e : Z) :
  Zpos (digits2_pos m) = 53 -> -1074 <= e <= 971 ->
  binary_round_aux prec emax sx (Zpos m) e loc_Exact = S754_finite sx m e.
Proof.
  intros Hd He. unfold binary_round_aux, shr_fexp, Zdigits2. rewrite Hd.
  replace (fexp prec emax (53 + e) - e) with 0
    by (unfold fexp, emin, prec, emax; lia).
  simpl shr. cbv beta iota. simpl shr_m. simpl round_nearest_even.
  unfold Zdigits2. rewrite Hd.
  replace (fexp prec emax (53 + e) - e) with 0
    by (unfold fexp, emin, prec, emax; lia).
  simpl. destruct (e <=? emax - prec) eqn:Hle; [reflexivity|].
  apply Z.leb_gt in Hle. unfold emax, prec in Hle. lia.
Qed.

(** A mantissa that is a full-width one followed by zero bits is rounded
    without loss. *)
Lemma binary_round_aux_wide sx (v : positive) (n : positive) (e : Z) :
  Zpos (digits2_pos v) = 53 -> -1074 <= e + Zpos n <= 971 ->
  binary_round_aux prec emax sx (Zpos (Pos.iter xO v n)) e loc_Exact
  = S754_finite sx v (e + Zpos n).
Proof.
  intros Hd He. unfold binary_round_aux, shr_fexp. unfold Zdigits2 at 1.
  rewrite size_iter_xO, Hd.
  replace (fexp prec emax (53 + Zpos n + e) - e) with (Zpos n)
    by (unfold fexp, emin, prec, emax; lia).
  unfold shr at 1. simpl shr_record_of_loc. rewrite iter_pos_iter, shr_iter_xO.
  simpl shr_m. simpl loc_of_shr_record. simpl round_nearest_even.
  unfold Zdigits2. rewrite Hd.
  replace (fexp prec emax (53 + (e + Zpos n)) - (e + Zpos n)) with 0
    by (unfold fexp, emin, prec, emax; lia).
  simpl. destruct (e + Zpos n <=? emax - prec) eqn:Hle; [reflexivity|].
  apply Z.leb_gt in Hle. unfold emax, prec in Hle. lia.
Qed.

(** Rounding [p * 2^K * 2^(-K)] gives the representation of [p]. *)
Lemma binary_round_scaled sx (p : positive) (K : Z) :
  Zpos (digits2_pos p) <= 53 -> 0 <= K <= 1000 ->
  binary_round prec emax sx (shl p K) (- K) = canon sx p.
Proof.
  intros Hd HK. unfold binary_round, canon.
  set (d := Zpos (digits2_pos p)) in *.
  assert (0 < d) as Hd0 by (unfold d; lia).
  rewrite size_shl by lia. fold d.
  replace (fexp prec emax (d + K + - K)) with (d - 53)
    by (unfold fexp, emin, prec, emax; lia).
  unfold shl_align.
  destruct (d - 53 - - K) as [|n|n] eqn:Hn.
  - (* K = 53 - d *)
    replace (53 - d) with K by lia. replace (d - 53) with (- K) by lia.
    apply binary_round_aux_full; [rewrite size_shl by lia; fold d; lia | lia].
  - (* K > 53 - d: zero bits are dropped *)
    assert (shl p K = Pos.iter xO (shl p (53 - d)) n) as ->.
    { change (Pos.iter xO (shl p (53 - d)) n) with (shl (shl p (53 - d)) (Zpos n)).
      rewrite shl_shl by lia. f_equal. lia. }
    rewrite binary_round_aux_wide.
    + f_equal. lia.
    + rewrite size_shl by lia. fold d. lia.
    + lia.
  - (* K < 53 - d: the mantissa is widened *)
    change (Pos.iter xO (shl p K) n) with (shl (shl p K) (Zpos n)).
    rewrite shl_shl by lia. replace (K + Zpos n) with (53 - d) by lia.
    apply binary_round_aux_full; [rewrite size_shl by lia; fold d; lia | lia].
Qed.

Lemma size_bound (p : positive) : Zpos p < 2 ^ 53 -> Zpos (digits2_pos p) <= 53.
Proof.
  intros Hp.
  assert (forall q, digits2_pos q = Pos.size q) as Hsize
    by (induction q as [q IH|q IH|]; simpl; rewrite ?IH; reflexivity).
  rewrite Hsize.
  destruct (Z.le_gt_cases (Zpos (Pos.size p)) 53) as [H|H]; [exact H|exfalso].
  pose proof (Pos.size_le p) as Hle. apply Pos2Z.pos_le_pos in Hle.
  rewrite Pos2Z.inj_pow in Hle. change (Zpos 2) with 2 in Hle.
  rewrite (Pos2Z.inj_xO p) in Hle.
  assert (2 ^ 54 <= 2 ^ Zpos (Pos.size p)) as Hpow by (apply Z.pow_le_mono_r; lia).
  change (2 ^ 54) with 18014398509481984 in Hpow.
  change (2 ^ 53) with 9007199254740992 in Hp. lia.
Qed.

Lemma of_Z_pos (p : positive) : Zpos p < 2 ^ 53 -> of_Z (Zpos p) = canon false p.
Proof.
  intros Hp. unfold of_Z, binary_normalize.
  apply (binary_round_scaled false p 0); [apply size_bound; exact Hp | lia].
Qed.

Lemma of_Z_neg (p : positive) : Zpos p < 2 ^ 53 -> of_Z (Zneg p) = canon true p.
Proof.
  intros Hp. unfold of_Z, binary_normalize.
  apply (binary_round_scaled true p 0); [apply size_bound; exact Hp | lia].
Qed.

Lemma shl_align_fst (m : positive) (e e' : Z) :
  e' <= e -> fst (shl_align m e e') = shl m (e - e').
Proof.
  intros He. unfold shl_align.
  destruct (e' - e) as [|d|d] eqn:Hd; simpl.
  - replace (e - e') with 0 by lia. reflexivity.
  - lia.
  - replace (e - e') with (Zpos d) by lia. reflexivity.
Qed.

Lemma of_Z_scaled (c K : Z) :
  - 2 ^ 53 < c < 2 ^ 53 -> 0 <= K <= 1000 ->
  binary_normalize prec emax (c * 2 ^ K) (- K) false = of_Z c.
Proof.
  intros Hc HK. assert (0 < 2 ^ K) as Hpow by (apply Z.pow_pos_nonneg; lia).
  destruct c as [|p|p].
  - reflexivity.
  - rewrite <- Zpos_shl by lia. rewrite of_Z_pos by lia.
    apply binary_round_scaled; [apply size_bound; lia | lia].
  - assert (Zneg p * 2 ^ K = Zneg (shl p K)) as ->
      by (rewrite <- !Pos2Z.opp_pos, Zpos_shl by lia; lia).
    rewrite of_Z_neg by lia.
    apply binary_round_scaled; [apply size_bound; lia | lia].
Qed.

Lemma of_Z_zero : of_Z 0 = S754_zero false.
Proof. reflexivity. Qed.

(** The difference of two safe natural numbers is exact. *)
Lemma sub_of_Z (a b : Z) :
  0 <= a < 2 ^ 53 -> 0 <= b < 2 ^ 53 -> sub (of_Z a) (of_Z b) = of_Z (a - b).
Proof.
  intros Ha Hb. destruct a as [|pa|pa]; [| |lia]; (destruct b as [|pb|pb]; [| |lia]).
  - reflexivity.
  - rewrite of_Z_zero, of_Z_pos by lia. change (0 - Zpos pb) with (Zneg pb).
    rewrite of_Z_neg by lia. reflexivity.
  - rewrite of_Z_zero, Z.sub_0_r, of_Z_pos by lia. reflexivity.
  - rewrite (of_Z_pos pa), (of_Z_pos pb) by lia. unfold canon, sub, SFsub.
    pose proof (size_bound pa ltac:(lia)) as Hda.
    pose proof (size_bound pb ltac:(lia)) as Hdb.
    set (da := Zpos (digits2_pos pa)) in *. set (db := Zpos (digits2_pos pb)) in *.
    assert (0 < da) by (unfold da; lia). assert (0 < db) by (unfold db; lia).
    cbv zeta. unfold cond_Zopp.
    set (ez := Z.min (da - 53) (db - 53)).
    rewrite !shl_align_fst by (unfold ez; lia).
    rewrite !shl_shl by (unfold ez; lia).
    replace (53 - da + (da - 53 - ez)) with (- ez) by lia.
    replace (53 - db + (db - 53 - ez)) with (- ez) by lia.
    rewrite !Zpos_shl by (unfold ez; lia).
    replace (Zpos pa * 2 ^ (- ez) - Zpos pb * 2 ^ (- ez))
      with ((Zpos pa - Zpos pb) * 2 ^ (- ez)) by ring.
    replace ez with (- - ez) at 2 by lia.
    apply of_Z_scaled; [lia | unfold ez; lia].
Qed.

Lemma size_lt_lt (p q : positive) :
  Zpos (digits2_pos p) < Zpos (digits2_pos q) -> (p < q)%positive.
Proof.
  assert (forall r, digits2_pos r = Pos.size r) as Hsize
    by (induction r as [r IH|r IH|]; simpl; rewrite ?IH; reflexivity).
  rewrite (Hsize p), (Hsize q). intros Hlt.
  pose proof (Pos.size_gt p) as Hp. pose proof (Pos.size_le q) as Hq.
  apply Pos2Z.pos_lt_pos in Hp. apply Pos2Z.pos_le_pos in Hq.
  rewrite Pos2Z.inj_pow in Hp, Hq. change (Zpos 2) with 2 in Hp, Hq.
  rewrite (Pos2Z.inj_xO q) in Hq.
  assert (2 * 2 ^ Zpos (Pos.size p) <= 2 ^ Zpos (Pos.size q)) as Hpow.
  { rewrite <- Z.pow_succ_r by lia. apply Z.pow_le_mono_r; lia. }
  lia.
Qed.

Lemma compare_shl (p q : positive) (k : Z) :
  0 <= k -> Pos.compare_cont Eq (shl p k) (shl q k) = (p ?= q)%positive.
Proof.
  intros Hk. change (Pos.compare_cont Eq (shl p k) (shl q k)) with (shl p k ?= shl q k)%positive.
  rewrite !Pos2Z.inj_compare, !Zpos_shl by lia.
  assert (0 < 2 ^ k) as Hpow by (apply Z.pow_pos_nonneg; lia).
  symmetry. apply Zmult_compare_compat_r. lia.
Qed.

Lemma compare_canon (p q : positive) :
  Zpos p < 2 ^ 53 -> Zpos q < 2 ^ 53 ->
  SFcompare (canon false p) (canon false q) = Some (p ?= q)%positive.
Proof.
  intros Hp Hq. unfold canon, SFcompare. f_equal.
  pose proof (size_bound p Hp). pose proof (size_bound q Hq).
  destruct (Z.compare_spec (Zpos (digits2_pos p) - 53) (Zpos (digits2_pos q) - 53))
    as [Heq|Hlt|Hgt].
  - replace (Zpos (digits2_pos q)) with (Zpos (digits2_pos p)) by lia.
    apply compare_shl. lia.
  - symmetry. apply Pos.compare_lt_iff. apply size_lt_lt. lia.
  - symmetry. apply Pos.compare_gt_iff. apply size_lt_lt. lia.
Qed.

(** Comparing a safe integer with a positive one. *)
Lemma ltb_of_Z (c d : Z) :
  - 2 ^ 53 < c < 2 ^ 53 -> 0 < d < 2 ^ 53 -> ltb (of_Z c) (of_Z d) = (c <? d).
Proof.
  intros Hc Hd. destruct d as [|q|q]; [lia| |lia]. rewrite (of_Z_pos q) by lia.
  unfold ltb, SFltb. destruct c as [|p|p].
  - reflexivity.
  - rewrite (of_Z_pos p) by lia. rewrite compare_canon by lia.
    unfold Z.ltb. simpl Z.compare. destruct (p ?= q)%positive; reflexivity.
  - rewrite (of_Z_neg p) by lia. reflexivity.
Qed.

Lemma gtb_of_Z (c d : Z) :
  - 2 ^ 53 < c < 2 ^ 53 -> 0 < d < 2 ^ 53 -> gtb (of_Z c) (of_Z d) = (d <? c).
Proof.
  intros Hc Hd. destruct d as [|q|q]; [lia| |lia]. rewrite (of_Z_pos q) by lia.
  unfold gtb, SFltb. destruct c as [|p|p].
  - reflexivity.
  - rewrite (of_Z_pos p) by lia. rewrite compare_canon by lia.
    unfold Z.ltb. simpl Z.compare. destruct (q ?= p)%positive; reflexivity.
  - rewrite (of_Z_neg p) by lia. reflexivity.
Qed.

Lemma binary_round_aux_scaled sx (p : positive) (K : Z) :
  Zpos (digits2_pos p) <= 53 -> 53 - Zpos (digits2_pos p) <= K <= 1000 ->
  binary_round_aux prec emax sx (Zpos (shl p K)) (- K) loc_Exact = canon sx p.
Proof.
  intros Hd HK. unfold canon.
  set (d := Zpos (digits2_pos p)) in *.
  assert (0 < d) as Hd0 by (unfold d; lia).
  destruct (K - (53 - d)) as [|n|n] eqn:Hn; [| |lia].
  - replace (53 - d) with K by lia. replace (d - 53) with (- K) by lia.
    apply binary_round_aux_full; [rewrite size_shl by lia; fold d; lia | lia].
  - assert (shl p K = Pos.iter xO (shl p (53 - d)) n) as ->.
    { change (Pos.iter xO (shl p (53 - d)) n) with (shl (shl p (53 - d)) (Zpos n)).
      rewrite shl_shl by lia. f_equal. lia. }
    rewrite binary_round_aux_wide.
    + f_equal. lia.
    + rewrite size_shl by lia. fold d. lia.
    + lia.
Qed.

Lemma size_pos (p : positive) : 0 < Zpos (digits2_pos p).
Proof. lia. Qed.

(** The product of two safe natural numbers is exact when it is safe. *)
Lemma mul_of_Z (a b : Z) :
  0 <= a < 2 ^ 53 -> 0 <= b < 2 ^ 53 -> a * b < 2 ^ 53 ->
  mul (of_Z a) (of_Z b) = of_Z (a * b).
Proof.
  intros Ha Hb Hab. change (2 ^ 53) with 9007199254740992 in Hab.
  destruct a as [|pa|pa]; [| |lia]; (destruct b as [|pb|pb]; [| |lia]).
  - reflexivity.
  - rewrite of_Z_zero, of_Z_pos by lia. reflexivity.
  - rewrite of_Z_zero, of_Z_pos by lia. rewrite Z.mul_0_r. reflexivity.
  - assert (Zpos pa < 2 ^ 53) as Hpa by (change (2 ^ 53) with 9007199254740992; nia).
    assert (Zpos pb < 2 ^ 53) as Hpb by (change (2 ^ 53) with 9007199254740992; nia).
    rewrite (of_Z_pos pa), (of_Z_pos pb) by assumption.
    change (Zpos pa * Zpos pb) with (Zpos (pa * pb)).
    rewrite (of_Z_pos (pa * pb)) by (change (2 ^ 53) with 9007199254740992; lia).
    unfold canon at 1 2, mul, SFmul. simpl xorb.
    pose proof (size_bound pa Hpa) as Hda. pose proof (size_bound pb Hpb) as Hdb.
    pose proof (size_bound (pa * pb) ltac:(change (2 ^ 53) with 9007199254740992; lia)) as Hdc.
    pose proof (size_pos pa). pose proof (size_pos pb). pose proof (size_pos (pa * pb)).
    set (da := Zpos (digits2_pos pa)) in *. set (db := Zpos (digits2_pos pb)) in *.
    assert ((shl pa (53 - da) * shl pb (53 - db))%positive
            = shl (pa * pb) (53 - da + (53 - db))) as ->.
    { apply Pos2Z.inj. rewrite Pos2Z.inj_mul, !Zpos_shl by lia.
      rewrite Pos2Z.inj_mul, Z.pow_add_r by lia. ring. }
    replace (da - 53 + (db - 53)) with (- (53 - da + (53 - db))) by lia.
    apply binary_round_aux_scaled; [exact Hdc|].
    split; [|lia].
    (* the product has at least [da + db - 1] bits *)
    assert (forall r, digits2_pos r = Pos.size r) as Hsize
      by (induction r as [r IH|r IH|]; simpl; rewrite ?IH; reflexivity).
    pose proof (Pos.size_le pa) as Hla. pose proof (Pos.size_le pb) as Hlb.
    pose proof (Pos.size_gt (pa * pb)) as Hgc.
    apply Pos2Z.pos_le_pos in Hla, Hlb. apply Pos2Z.pos_lt_pos in Hgc.
    rewrite Pos2Z.inj_pow in Hla, Hlb, Hgc. change (Zpos 2) with 2 in Hla, Hlb, Hgc.
    rewrite (Pos2Z.inj_xO pa) in Hla. rewrite (Pos2Z.inj_xO pb) in Hlb.
    rewrite Pos2Z.inj_mul in Hgc.
    rewrite <- (Hsize pa) in Hla. rewrite <- (Hsize pb) in Hlb.
    rewrite <- (Hsize (pa * pb)%positive) in Hgc.
    fold da in Hla. fold db in Hlb.
    set (dc := Zpos (digits2_pos (pa * pb))) in *.
    destruct (Z.le_gt_cases (da + db - 1) dc) as [Hok|Hbad]; [lia|exfalso].
    assert (2 ^ dc * 4 <= 2 ^ da * 2 ^ db) as Hpow.
    { rewrite <- Z.pow_add_r by lia. change 4 with (2 ^ 2).
      rewrite <- Z.pow_add_r by lia. apply Z.pow_le_mono_r; lia. }
    assert (0 < 2 ^ da) by (apply Z.pow_pos_nonneg; lia).
    assert (0 < 2 ^ db) by (apply Z.pow_pos_nonneg; lia).
    nia.
Qed.

(** ** The cache window in whole milliseconds *)

Lemma price_fresh_int getSetting now t q :
  PriceFeed.timestamp q = of_Z t ->
  0 <= now < 2 ^ 53 -> 0 <= t < 2 ^ 53 ->
  price_fresh (new_SeiOracleProvider getSetting) (of_Z now) (Some q) = (now - t <? 30000).
Proof.
  intros Hq Hnow Ht. unfold price_fresh. rewrite Hq.
  change (OracleConfig.updateInterval (config (new_SeiOracleProvider getSetting)) * 1000)
    with 30000.
  rewrite sub_of_Z by assumption. apply ltb_of_Z.
  - change (2 ^ 53) with 9007199254740992 in *. lia.
  - change (2 ^ 53) with 9007199254740992. lia.
Qed.

Lemma rates_fresh_int getSetting now t first rest :
  FundingRate.timestamp first = of_Z t ->
  0 <= now < 2 ^ 53 -> 0 <= t < 2 ^ 53 ->
  rates_fresh (new_SeiOracleProvider getSetting) (of_Z now) (Some (first :: rest))
  = (now - t <? 30000).
Proof.
  intros Hq Hnow Ht. unfold rates_fresh. rewrite Hq.
  change (OracleConfig.updateInterval (config (new_SeiOracleProvider getSetting)) * 1000)
    with 30000.
  rewrite sub_of_Z by assumption. apply ltb_of_Z.
  - change (2 ^ 53) with 9007199254740992 in *. lia.
  - change (2 ^ 53) with 9007199254740992. lia.
Qed.

Lemma round_trips_nonneg W sent : 0 <= round_trips W sent.
Proof. induction sent as [|[t r] sent IH]; simpl; lia. Qed.

Lemma getPrice_clock P W symbol s : clock s <= clock (snd (getPrice P W symbol s)).
Proof.
  destruct (getPrice_paced P W symbol s) as (sent & _ & Hch).
  apply chained_round_trips in Hch. pose proof (round_trips_nonneg W sent). lia.
Qed.

(** X16. For an instance built by the constructor, with the clock in the
    range of safe integers: a quote stamped on arrival (CoinGecko, legacy
    cascade, Binance) that a [getPrice] call has just fetched is served from
    the cache, unchanged and without any request, by every call made less
    than 30000 ms after the first call returned, and by none made 30000 ms
    or more after it: such a call runs the cascade again. *)
Theorem on_arrival_quote_is_served_for_30_seconds :
  forall getSetting W W' symbol s q s1 dt,
    let P := new_SeiOracleProvider getSetting in
    0 <= clock s ->
    price_fresh P (of_Z (clock s)) (priceCache s !! symbol) = false ->
    getPrice P W symbol s = (Return (Some q), s1) ->
    stamped_on_arrival q = true ->
    0 <= dt -> clock s1 + dt < 2 ^ 53 ->
    let later := set_clock (clock s1 + dt) s1 in
    (dt < 30000 -> getPrice P W' symbol later = (Return (Some q), later))
    /\ (30000 <= dt ->
        getPrice P W' symbol later =
          try_catch (resolvePrice_spec P W' symbol)
            (fun error =>
               elizaLogger LError "Failed to get price for" symbol (Some error);; mret None)
            later).
Proof.
  intros getSetting W W' symbol s q s1 dt P Hclock Hmiss Hrun Harr Hdt Hsafe later.
  pose proof (getPrice_stamps P W symbol s q s1 Hmiss Hrun Harr) as Hstamp.
  pose proof (getPrice_clock P W symbol s) as Hmono. rewrite Hrun in Hmono. simpl in Hmono.
  assert (priceCache later !! symbol = Some q) as Hcached.
  { destruct (getPrice_effect P W symbol s)
      as [(c & _ & Hcs & Hf)|[(_ & s' & Hr & _)|(_ & q' & s' & Hr & _ & Hc)]].
    - rewrite Hcs in Hmiss. congruence.
    - rewrite Hrun in Hr. discriminate.
    - rewrite Hrun in Hr. injection Hr as <- <-. simpl. rewrite Hc. apply lookup_insert_eq. }
  assert (price_fresh P (of_Z (clock later)) (Some q) = (dt <? 30000)) as Hfresh.
  { unfold P. change (clock later) with (clock s1 + dt).
    rewrite (price_fresh_int getSetting (clock s1 + dt) (clock s1) q Hstamp)
      by (change (2 ^ 53) with 9007199254740992 in *; lia).
    f_equal. lia. }
  split.
  - intros Hlt. apply getPrice_hit; [exact Hcached|].
    rewrite Hfresh. apply Z.ltb_lt. exact Hlt.
  - intros Hge. apply getPrice_miss. rewrite Hcached, Hfresh. apply Z.ltb_ge. exact Hge.
Qed.

Lemma on_arrival_quote_is_served_for_30_seconds_witness :
  let q := PriceFeed.make "BTC" (of_decimal false 650005 (-1)) (of_Z (Demo.t0 + 200))
             "CoinGecko" (of_decimal false 95 (-2)) in
  let s1 := snd (getPrice DemoBTC.P DemoBTC.W "BTC" DemoBTC.s0) in
  getPrice DemoBTC.P Demo.down "BTC" (set_clock (clock s1 + 29999) s1)
    = (Return (Some q), set_clock (clock s1 + 29999) s1)
  /\ getPrice DemoBTC.P Demo.down "BTC" (set_clock (clock s1 + 30000) s1)
     = try_catch (resolvePrice_spec DemoBTC.P Demo.down "BTC")
         (fun error =>
            elizaLogger LError "Failed to get price for" "BTC" (Some error);; mret None)
         (set_clock (clock s1 + 30000) s1).
Proof.
  intros q s1. split.
  - apply (proj1 (on_arrival_quote_is_served_for_30_seconds
                    (fun key => if String.eqb key "YEI_BTC_ORACLE"
                                then Some DemoBTC.oracle else None)
                    DemoBTC.W Demo.down "BTC" DemoBTC.s0 q s1 29999
                    ltac:(vm_compute; discriminate) ltac:(vm_compute; reflexivity)
                    ltac:(vm_compute; reflexivity) ltac:(vm_compute; reflexivity)
                    ltac:(lia) ltac:(vm_compute; reflexivity))).
    lia.
  - apply (proj2 (on_arrival_quote_is_served_for_30_seconds
                    (fun key => if String.eqb key "YEI_BTC_ORACLE"
                                then Some DemoBTC.oracle else None)
                    DemoBTC.W Demo.down "BTC" DemoBTC.s0 q s1 30000
                    ltac:(vm_compute; discriminate) ltac:(vm_compute; reflexivity)
                    ltac:(vm_compute; reflexivity) ltac:(vm_compute; reflexivity)
                    ltac:(lia) ltac:(vm_compute; reflexivity))).
    lia.
Defined.

(** ** Ticks that find young entries *)

Lemma set_clock_same s : set_clock (clock s) s = s.
Proof. destruct s. reflexivity. Qed.

(** Three calls that each answer at once and change nothing. *)
Lemma Promise_all3_still {A : Type} (a b c : M A) s ra rb rc :
  a s = (Return ra, s) -> b s = (Return rb, s) -> c s = (Return rc, s) ->
  Promise_all3 a b c s = (Return [ra; rb; rc], s).
Proof.
  intros Ha Hb Hc. unfold Promise_all3.
  rewrite Ha, set_clock_same, Hb, set_clock_same, Hc, !Z.max_id, set_clock_same.
  reflexivity.
Qed.

(** X17. For an instance built by the constructor, with the clock and the
    timestamps whole numbers of milliseconds in the range of safe integers: a
    refresh tick that finds, for each of BTC, ETH and SEI, a cached quote
    whose timestamp, and a cached funding list whose first entry's timestamp,
    is less than 30000 ms before the tick does nothing at all: it sends no
    request, logs nothing and leaves both caches. *)
Theorem refresh_skips_young_entries :
  forall getSetting W s,
    let P := new_SeiOracleProvider getSetting in
    0 <= clock s < 2 ^ 53 ->
    (forall symbol, In symbol majors ->
       exists q t,
         priceCache s !! symbol = Some q /\ PriceFeed.timestamp q = of_Z t
         /\ 0 <= t < 2 ^ 53 /\ clock s - t < 30000) ->
    (forall symbol, In symbol majors ->
       exists first rest t,
         fundingRateCache s !! symbol = Some (first :: rest)
         /\ FundingRate.timestamp first = of_Z t
         /\ 0 <= t < 2 ^ 53 /\ clock s - t < 30000) ->
    refresh P W s = (Return tt, s).
Proof.
  intros getSetting W s P Hclock Hprices Hrates.
  assert (forall symbol, In symbol majors ->
            exists q, getPrice P W symbol s = (Return (Some q), s)) as Hp.
  { intros symbol Hin. destruct (Hprices symbol Hin) as (q & t & Hc & Hq & Ht & Hage).
    exists q. apply getPrice_hit; [exact Hc|].
    unfold P. rewrite (price_fresh_int getSetting (clock s) t q Hq Hclock Ht).
    apply Z.ltb_lt. exact Hage. }
  assert (forall symbol, In symbol majors ->
            exists rates, getFundingRates P W symbol s = (Return rates, s)) as Hf.
  { intros symbol Hin.
    destruct (Hrates symbol Hin) as (first & rest & t & Hc & Hq & Ht & Hage).
    destruct (getFundingRates_hit P W symbol s) as (rates & _ & Hrun); [|eauto].
    rewrite Hc. unfold P. rewrite (rates_fresh_int getSetting (clock s) t first rest Hq Hclock Ht).
    apply Z.ltb_lt. exact Hage. }
  destruct (Hp "BTC" ltac:(unfold majors; simpl; tauto)) as [q1 H1].
  destruct (Hp "ETH" ltac:(unfold majors; simpl; tauto)) as [q2 H2].
  destruct (Hp "SEI" ltac:(unfold majors; simpl; tauto)) as [q3 H3].
  destruct (Hf "BTC" ltac:(unfold majors; simpl; tauto)) as [r1 G1].
  destruct (Hf "ETH" ltac:(unfold majors; simpl; tauto)) as [r2 G2].
  destruct (Hf "SEI" ltac:(unfold majors; simpl; tauto)) as [r3 G3].
  unfold refresh, try_catch, mbind, M_bind.
  rewrite (Promise_all3_still _ _ _ s _ _ _ H1 H2 H3).
  rewrite (Promise_all3_still _ _ _ s _ _ _ G1 G2 G3).
  reflexivity.
Qed.

Lemma refresh_skips_young_entries_witness :
  let s := set_clock (Demo.t0 + 60000) DemoAll.ticked in
  refresh Demo.P0 Demo.down s = (Return tt, s).
Proof.
  intros s.
  apply (refresh_skips_young_entries (fun _ => None) Demo.down s).
  - vm_compute. split; [discriminate | reflexivity].
  - intros symbol Hin. unfold majors in Hin. simpl in Hin.
    destruct Hin as [<-|[<-|[<-|[]]]].
    + eexists. exists (Demo.t0 + 30100). vm_compute.
      split; [reflexivity|]. split; [reflexivity|]. split; [split|]; congruence.
    + eexists. exists (Demo.t0 + 30200). vm_compute.
      split; [reflexivity|]. split; [reflexivity|]. split; [split|]; congruence.
    + eexists. exists (Demo.t0 + 30200). vm_compute.
      split; [reflexivity|]. split; [reflexivity|]. split; [split|]; congruence.
  - intros symbol Hin. unfold majors in Hin. simpl in Hin.
    destruct Hin as [<-|[<-|[<-|[]]]].
    + eexists. eexists. exists (Demo.t0 + 30300). vm_compute.
      split; [reflexivity|]. split; [reflexivity|]. split; [split|]; congruence.
    + eexists. eexists. exists (Demo.t0 + 30300). vm_compute.
      split; [reflexivity|]. split; [reflexivity|]. split; [split|]; congruence.
    + eexists. eexists. exists (Demo.t0 + 30300). vm_compute.
      split; [reflexivity|]. split; [reflexivity|]. split; [split|]; congruence.
Defined.

(** The ticks of a started instance when CoinGecko and the exchanges answer
    and the chain does not: every entry is stamped on arrival, and here each
    second tick sends nothing. *)
Example ticks_on_arrival_stamps_run :
  map (fun dt => length (requests (step Demo.P0 DemoAll.W (Wait dt) DemoAll.ticked)))
    [29999; 59999; 89999; 119999]
  = [14; 28; 28; 42]%nat.
Proof. vm_compute. reflexivity. Qed.

(** With the multi-oracle contracts answering as well, the quotes for ETH
    and SEI carry the time of the observation, which the tick after the one
    that fetched them finds 35 seconds old: that tick reads both contracts
    again. *)
Example ticks_on_observation_stamps_run :
  length (requests DemoPrimary.ticked) = 12%nat
  /\ map (fun dt =>
            length (requests (step Demo.P0 DemoPrimary.W (Wait dt) DemoPrimary.ticked)))
       [29999; 59999; 89999; 119999]
     = [14; 26; 28; 40]%nat.
Proof. vm_compute. split; reflexivity. Qed.

(** ** Primary-oracle quotes and the cache *)

Section PrimaryRuns.

Variable P : Provider.
Variable W : World.

(** A cache miss on which the primary oracle answers with a usable price:
    the quote is returned and stored, after one request. *)
Lemma getPrice_primary symbol s oracleAddress price timestamp decimals :
  truthy_string (Str.prop (yeiMultiOracleAddresses P) (Str.toUpperCase symbol))
    = Some oracleAddress ->
  chain W oracleAddress "getLatestPrice" [] = Some [price; timestamp; decimals] ->
  price <> 0 ->
  let q := PriceFeed.make symbol (div (of_Z price) (pow10 decimals))
             (mul (of_Z timestamp) (of_Z 1000)) "YEI Multi-Oracle"
             (of_decimal false 98 (-2)) in
  valid_price q = true ->
  price_fresh P (of_Z (clock s)) (priceCache s !! symbol) = false ->
  fst (getPrice P W symbol s) = Return (Some q)
  /\ priceCache (snd (getPrice P W symbol s)) = <[symbol := q]> (priceCache s)
  /\ clock (snd (getPrice P W symbol s))
     = clock s + Z.of_N (latency W (ReadContract oracleAddress "getLatestPrice" []))
  /\ map snd (requests (snd (getPrice P W symbol s)))
     = (map snd (requests s) ++ [ReadContract oracleAddress "getLatestPrice" []])%list.
Proof.
  intros Haddr Hread Hnz q Hvalid Hmiss.
  rewrite getPrice_miss by exact Hmiss.
  unfold try_catch, resolvePrice_spec, priority, first_quote, source1, mbind, M_bind.
  rewrite (getYeiMultiOraclePrice_read P W symbol s _ _ _ _ Haddr Hread).
  apply Z.eqb_neq in Hnz. rewrite Hnz. cbv zeta. fold q.
  unfold log_using, elizaLogger, modify, store_valid, mret, M_ret, mbind, M_bind.
  cbn [fst snd]. rewrite Hvalid.
  destruct (gtb _ _); cbn; rewrite map_app; repeat split; reflexivity.
Qed.

End PrimaryRuns.

(** X18. For an instance built by the constructor: a quote of the primary
    (multi-oracle) adapter is stamped with the time of the on-chain
    observation, 1000 times the seconds the contract reports, not with the
    time it was fetched. Once cached, it is served exactly to the calls made
    less than 30000 ms after that observation; if the observation is already
    30 seconds old when the reply arrives, the quote is stored but no later
    call is ever answered from it: each one runs the cascade again. *)
Theorem primary_quote_is_cached_by_observation_time :
  forall getSetting W W' symbol s oracleAddress price timestamp decimals,
    let P := new_SeiOracleProvider getSetting in
    truthy_string (Str.prop (yeiMultiOracleAddresses P) (Str.toUpperCase symbol))
      = Some oracleAddress ->
    chain W oracleAddress "getLatestPrice" [] = Some [price; timestamp; decimals] ->
    price <> 0 ->
    let q := PriceFeed.make symbol (div (of_Z price) (pow10 decimals))
               (of_Z (timestamp * 1000)) "YEI Multi-Oracle" (of_decimal false 98 (-2)) in
    valid_price q = true ->
    price_fresh P (of_Z (clock s)) (priceCache s !! symbol) = false ->
    0 <= timestamp -> timestamp * 1000 < 2 ^ 53 -> 0 <= clock s ->
    let s1 := snd (getPrice P W symbol s) in
    let arrival :=
      clock s + Z.of_N (latency W (ReadContract oracleAddress "getLatestPrice" [])) in
    fst (getPrice P W symbol s) = Return (Some q)
    /\ clock s1 = arrival
    /\ forall now,
         arrival <= now < 2 ^ 53 ->
         let later := set_clock now s1 in
         (now - timestamp * 1000 < 30000 ->
          getPrice P W' symbol later = (Return (Some q), later))
         /\ (30000 <= now - timestamp * 1000 ->
             getPrice P W' symbol later =
               try_catch (resolvePrice_spec P W' symbol)
                 (fun error =>
                    elizaLogger LError "Failed to get price for" symbol (Some error);;
                    mret None)
                 later).
Proof.
  intros getSetting W W' symbol s oracleAddress price timestamp decimals P Haddr Hread Hnz
    q Hvalid Hmiss Hts Hsafe Hclock s1 arrival.
  assert (mul (of_Z timestamp) (of_Z 1000) = of_Z (timestamp * 1000)) as Hmul.
  { apply mul_of_Z; change (2 ^ 53) with 9007199254740992 in *; lia. }
  destruct (getPrice_primary P W symbol s oracleAddress price timestamp decimals
              Haddr Hread Hnz) as (Hret & Hcache & Hclk & _).
  { rewrite Hmul. exact Hvalid. }
  { exact Hmiss. }
  rewrite Hmul in Hret, Hcache. fold q in Hret, Hcache. fold s1 in Hcache, Hclk.
  split; [exact Hret|]. split; [exact Hclk|].
  intros now Hnow later.
  assert (priceCache later !! symbol = Some q) as Hcached
    by (simpl; rewrite Hcache; apply lookup_insert_eq).
  assert (price_fresh P (of_Z (clock later)) (Some q) = (now - timestamp * 1000 <? 30000))
    as Hfresh.
  { unfold P. change (clock later) with now.
    apply price_fresh_int; [reflexivity | | ];
      change (2 ^ 53) with 9007199254740992 in *; unfold arrival in Hnow; lia. }
  split.
  - intros Hlt. apply getPrice_hit; [exact Hcached|].
    rewrite Hfresh. apply Z.ltb_lt. exact Hlt.
  - intros Hge. apply getPrice_miss. rewrite Hcached, Hfresh. apply Z.ltb_ge. exact Hge.
Qed.

Lemma primary_quote_is_cached_by_observation_time_witness :
  let s := initial Demo.t0 in
  let q := PriceFeed.make "SEI" (div (of_Z 1234567) (pow10 6))
             (of_Z ((Demo.t0 / 1000 - 7200) * 1000)) "YEI Multi-Oracle"
             (of_decimal false 98 (-2)) in
  let later := set_clock (Demo.t0 + 1100) (snd (getPrice Demo.P0 DemoStale.W "SEI" s)) in
  fst (getPrice Demo.P0 DemoStale.W "SEI" s) = Return (Some q)
  /\ getPrice Demo.P0 Demo.down "SEI" later =
       try_catch (resolvePrice_spec Demo.P0 Demo.down "SEI")
         (fun error =>
            elizaLogger LError "Failed to get price for" "SEI" (Some error);; mret None)
         later.
Proof.
  intros s q later.
  destruct (primary_quote_is_cached_by_observation_time (fun _ => None) DemoStale.W Demo.down
              "SEI" s DemoStale.seiOracle 1234567 (Demo.t0 / 1000 - 7200) 6
              ltac:(vm_compute; reflexivity) ltac:(vm_compute; reflexivity)
              ltac:(discriminate) ltac:(vm_compute; reflexivity)
              ltac:(vm_compute; reflexivity) ltac:(vm_compute; discriminate)
              ltac:(vm_compute; reflexivity) ltac:(vm_compute; discriminate))
    as (Hret & _ & Hlater).
  split; [exact Hret|].
  apply (proj2 (Hlater (Demo.t0 + 1100) ltac:(vm_compute; split; [discriminate|reflexivity]))).
  vm_compute. discriminate.
Defined.

(** ** The price-query action's handler *)












Section Handler.

Variable describe : Error -> string.
Variable getSetting : string -> option string.
Variable W : World.

(** The per-symbol [catch] of the handler is never taken. *)
Lemma fetchOne_run oracle symbol s :
  exists price,
    fst (getPrice oracle W symbol s) = Return price
    /\ fetchOne describe W oracle symbol s
       = (Return {| pr_symbol := symbol; pr_price := price; pr_error := None |},
          snd (getPrice oracle W symbol s)).
Proof.
  unfold fetchOne, try_catch, mbind, M_bind.
  destruct (getPrice_total oracle W symbol s) as [price H].
  destruct (getPrice oracle W symbol s) as [r s1]. simpl in H. subst r.
  exists price. split; reflexivity.
Qed.

(** One call: its result, its requests and the time they take. *)
Lemma fetchOne_spec oracle symbol t0 s :
  cache_keyed oracle s -> cache_guarded s ->
  exists result chain,
    fetchOne describe W oracle symbol (set_clock t0 s)
      = (Return result, snd (fetchOne describe W oracle symbol (set_clock t0 s)))
    /\ pr_symbol result = symbol /\ answered result
    /\ requests (snd (fetchOne describe W oracle symbol (set_clock t0 s)))
       = (requests s ++ chain)%list
    /\ sublist (map snd chain) (plan_getPrice oracle symbol)
    /\ chained W t0 chain (t0 + round_trips W chain)
    /\ clock (snd (fetchOne describe W oracle symbol (set_clock t0 s)))
       = t0 + round_trips W chain
    /\ cache_keyed oracle (snd (fetchOne describe W oracle symbol (set_clock t0 s)))
    /\ cache_guarded (snd (fetchOne describe W oracle symbol (set_clock t0 s))).
Proof.
  intros Hkey Hguard.
  assert (Hkey0 : cache_keyed oracle (set_clock t0 s)) by exact Hkey.
  assert (Hguard0 : cache_guarded (set_clock t0 s)) by exact Hguard.
  destruct (fetchOne_run oracle symbol (set_clock t0 s)) as (price & Hret & Hrun).
  rewrite Hrun. simpl.
  destruct (getPrice_emits oracle W symbol (set_clock t0 s)) as (chain & Hreq & Hsub).
  destruct (getPrice_paced oracle W symbol (set_clock t0 s)) as (chain' & Hreq' & Hch).
  assert (chain' = chain) as ->.
  { rewrite Hreq in Hreq'. apply app_inv_head in Hreq'. congruence. }
  simpl in Hch. pose proof (chained_round_trips _ _ _ _ Hch) as Hclock.
  exists {| pr_symbol := symbol; pr_price := price; pr_error := None |}, chain.
  split; [reflexivity|]. split; [reflexivity|]. split.
  { split; [reflexivity|]. simpl. destruct price as [q|]; [|exact I].
    destruct (getPrice_returns_cached oracle W symbol _ q Hkey0 Hguard0 Hret) as (_ & Hs & Hv).
    split; assumption. }
  split; [exact Hreq|]. split; [exact Hsub|].
  split; [rewrite <- Hclock; exact Hch|]. split; [exact Hclock|].
  split.
  - exact (getPrice_keyed_kept oracle W symbol (set_clock t0 s) Hkey0).
  - exact (getPrice_guard_kept oracle W symbol (set_clock t0 s) Hguard0).
Qed.

(** The join over the symbols. *)
Lemma fetch_all oracle t0 symbols : forall s,
  cache_keyed oracle s -> cache_guarded s ->
  exists results chains s',
    Promise_all_run t0 (map (fetchOne describe W oracle) symbols) s
      = (map Return results, t0 + slowest W chains, s')
    /\ map pr_symbol results = symbols
    /\ Forall answered results
    /\ requests s' = (requests s ++ concat chains)%list
    /\ Forall2 (fun symbol chain =>
                  sublist (map snd chain) (plan_getPrice oracle symbol)
                  /\ chained W t0 chain (t0 + round_trips W chain)) symbols chains.
Proof.
  induction symbols as [|symbol symbols IH]; intros s Hkey Hguard.
  - exists [], [], s. simpl. rewrite Z.add_0_r, app_nil_r.
    repeat split; constructor.
  - destruct (fetchOne_spec oracle symbol t0 s Hkey Hguard)
      as (result & chain & Hrun & Hsym & Hans & Hreq & Hsub & Hch & Hclock & Hkey1 & Hguard1).
    simpl. rewrite Hrun.
    set (s1 := snd (fetchOne describe W oracle symbol (set_clock t0 s))) in *.
    destruct (IH s1 Hkey1 Hguard1) as (results & chains & s' & Hall & Hsyms & Hanss & Hreqs & Hchs).
    rewrite Hall.
    exists (result :: results), (chain :: chains), s'. simpl.
    split; [f_equal; f_equal; rewrite Hclock; lia|].
    split; [congruence|]. split; [constructor; assumption|].
    split; [rewrite Hreqs, Hreq, app_assoc; reflexivity|].
    constructor; [split; assumption | exact Hchs].
Qed.

Lemma settle_map_Return {A : Type} (l : list A) : settle (map Return l) = Return l.
Proof. induction l as [|a l IH]; [reflexivity|]. simpl. rewrite IH. reflexivity. Qed.

Lemma fresh_keyed oracle s : cache_keyed oracle (fresh_instance s).
Proof. intros k q. simpl. rewrite lookup_empty. discriminate. Qed.

Lemma fresh_guarded s : cache_guarded (fresh_instance s).
Proof. intros k q. simpl. rewrite lookup_empty. discriminate. Qed.

Lemma formatResponse_run priceResults s :
  exists response, formatResponse priceResults s = (Return response, s).
Proof.
  unfold formatResponse.
  destruct priceResults as [|result [|second rest]].
  - eexists; reflexivity.
  - destruct (pr_price result); [|eexists; reflexivity].
    unfold formatTimestamp, mbind, M_bind, Date_now, gets. cbv zeta.
    repeat match goal with |- context [if ?b then _ else _] => destruct b end;
      eexists; reflexivity.
  - match goal with |- context [if ?b then _ else _] => destruct b end; eexists; reflexivity.
Qed.

Lemma formatResponse_clock priceResults s s' :
  clock s = clock s' -> fst (formatResponse priceResults s) = fst (formatResponse priceResults s').
Proof.
  intros Hc. unfold formatResponse.
  destruct priceResults as [|result [|second rest]]; [reflexivity| |].
  - destruct (pr_price result); [|reflexivity].
    unfold formatTimestamp, mbind, M_bind, Date_now, gets. simpl. rewrite Hc.
    repeat match goal with |- context [if ?b then _ else _] => destruct b end; reflexivity.
  - match goal with |- context [if ?b then _ else _] => destruct b end; reflexivity.
Qed.

(** With no symbol in the text the handler sends nothing. *)
Lemma handler_no_symbol messageText callback s :
  PriceQuery.extractSymbols (content_text messageText) = [] ->
  exists s',
    priceQuery_handler describe getSetting W messageText callback s
      = (Return (if callback then [no_symbol_reply] else []), s')
    /\ requests s' = requests s /\ clock s' = clock s.
Proof.
  intros Hnone. unfold priceQuery_handler, try_catch, mbind, M_bind.
  unfold elizaLogger at 1. unfold modify.
  destruct (construct_run getSetting
              (add_log {| level := LInfo; text := "Price Query Action triggered";
                          about := ""; cause := None |} s)) as [entry ->].
  cbv zeta. rewrite Hnone. simpl. eexists. repeat split.
Qed.

(** With symbols in the text: the run of the handler. *)
Lemma handler_symbols messageText callback s :
  PriceQuery.extractSymbols (content_text messageText) <> [] ->
  exists results chains response s',
    priceQuery_handler describe getSetting W messageText callback s
      = (Return (if callback
                 then [{| reply_text := response;
                          reply_content :=
                            PricesContent response "PRICE_QUERY" (price_entries results) |}]
                 else []), s')
    /\ map pr_symbol results = PriceQuery.extractSymbols (content_text messageText)
    /\ Forall answered results
    /\ fst (formatResponse results s') = Return response
    /\ requests s' = (requests s ++ concat chains)%list
    /\ Forall2 (fun symbol chain =>
                  sublist (map snd chain)
                    (plan_getPrice (new_SeiOracleProvider getSetting) symbol)
                  /\ chained W (clock s) chain (clock s + round_trips W chain))
         (PriceQuery.extractSymbols (content_text messageText)) chains
    /\ clock s' = clock s + slowest W chains.
Proof.
  intros Hsome. unfold priceQuery_handler, try_catch, mbind, M_bind.
  unfold elizaLogger at 1. unfold modify.
  destruct (construct_run getSetting
              (add_log {| level := LInfo; text := "Price Query Action triggered";
                          about := ""; cause := None |} s)) as [entry ->].
  cbv zeta.
  destruct (PriceQuery.extractSymbols (content_text messageText)) as [|symbol symbols] eqn:Hsyms;
    [congruence|].
  rewrite <- Hsyms in *.
  replace (length (PriceQuery.extractSymbols (content_text messageText)) =? 0)%nat with false
    by (rewrite Hsyms; reflexivity).
  unfold elizaLogger at 1. unfold modify.
  unfold on_new_instance, Promise_all.
  match goal with
  | |- context [Promise_all_run ?t0 _ ?s0] =>
      destruct (fetch_all (new_SeiOracleProvider getSetting) t0
                  (PriceQuery.extractSymbols (content_text messageText)) s0
                  (fresh_keyed (new_SeiOracleProvider getSetting) _) (fresh_guarded _))
        as (results & chains & s1 & Hall & Hmap & Hans & Hreq & Hch)
  end.
  rewrite Hall. rewrite settle_map_Return.
  match goal with
  | |- context [formatResponse results ?s0] =>
      destruct (formatResponse_run results s0) as [response Hresp]; rewrite Hresp
  end.
  unfold elizaLogger, modify.
  exists results, chains, response. eexists. split; [reflexivity|].
  split; [exact Hmap|]. split; [exact Hans|].
  split.
  { match type of Hresp with
    | formatResponse results ?s0 = _ =>
        rewrite <- (formatResponse_clock results s0) by reflexivity
    end.
    rewrite Hresp. reflexivity. }
  split; [simpl; simpl in Hreq; exact Hreq|].
  split; [exact Hch|]. reflexivity.
Qed.

End Handler.








(** The module's provider answers from its cache where the action fetches. *)
Example action_refetches_what_the_module_cached :
  let s := DemoAll.ticked in
  requests (snd (getPrice Demo.P0 DemoAll.W "BTC" s)) = requests s
  /\ length (requests (snd (priceQuery_handler (fun _ => "Unknown error") (fun _ => None)
                              DemoAll.W (Some "btc price?") true s)))
     = S (length (requests s)).
Proof. vm_compute. split; reflexivity. Qed.

(** X20. The handler looks the symbols of the text up side by side: the
    requests it sends fall into one chain per symbol found, in the order of
    the symbols; each chain is drawn in order from the plan of [getPrice] for
    its symbol on a provider built from the settings, its first request goes
    out at the time the handler is called and each next one when the reply to
    the one before has arrived; the handler takes as long as the slowest
    chain. With no symbol in the text it sends nothing and takes no time. *)
Theorem price_action_fans_out :
  forall describe getSetting W messageText callback s,
    let symbols := PriceQuery.extractSymbols (content_text messageText) in
    let after := snd (priceQuery_handler describe getSetting W messageText callback s) in
    exists chains,
      requests after = (requests s ++ concat chains)%list
      /\ Forall2 (fun symbol chain =>
                    sublist (map snd chain)
                      (plan_getPrice (new_SeiOracleProvider getSetting) symbol)
                    /\ chained W (clock s) chain (clock s + round_trips W chain))
           symbols chains
      /\ clock after = clock s + slowest W chains.
Proof.
  intros describe getSetting W messageText callback s symbols after. subst symbols after.
  destruct (PriceQuery.extractSymbols (content_text messageText)) as [|symbol symbols] eqn:Hsyms.
  - destruct (handler_no_symbol describe getSetting W messageText callback s Hsyms)
      as (s' & -> & Hreq & Hclock).
    exists []. simpl. rewrite app_nil_r, Z.add_0_r. repeat split; [assumption|constructor|assumption].
  - assert (Hne : PriceQuery.extractSymbols (content_text messageText) <> [])
      by (rewrite Hsyms; discriminate).
    destruct (handler_symbols describe getSetting W messageText callback s Hne)
      as (results & chains & response & s' & -> & _ & _ & _ & Hreq & Hch & Hclock).
    rewrite Hsyms in Hch. exists chains. simpl. repeat split; assumption.
Qed.

Example price_action_fans_out_run :
  let after := snd (priceQuery_handler (fun _ => "Unknown error") (fun _ => None) DemoAll.W
                      (Some "BTC, eth and usdt prices") true (initial Demo.t0)) in
  map fst (requests after)
  = [Demo.t0; Demo.t0; Demo.t0 + 100; Demo.t0; Demo.t0 + 100; Demo.t0 + 200]
  /\ clock after = Demo.t0 + 300.
Proof. vm_compute. split; reflexivity. Qed.


Example price_action_reply_run :
  fst (priceQuery_handler (fun _ => "Unknown error") (fun _ => None) DemoAll.W
         (Some "What is the price of BTC?") true (initial Demo.t0))
  = Return [{| reply_text :=
                 "The current price of BTC is $65000.5000 (Source: CoinGecko, updated just now)";
               reply_content :=
                 PricesContent
                   "The current price of BTC is $65000.5000 (Source: CoinGecko, updated just now)"
                   "PRICE_QUERY"
                   [{| pe_symbol := "BTC"; pe_price := of_decimal false 650005 (-1);
                       pe_source := "CoinGecko"; pe_timestamp := of_Z (Demo.t0 + 100) |}] |}]
  /\ fst (priceQuery_handler (fun _ => "Unknown error") (fun _ => None) Demo.down
            (Some "sei price?") true (initial Demo.t0))
     = Return [{| reply_text :=
                    "I'm unable to fetch the current price for SEI at the moment. Please try again later.";
                  reply_content :=
                    PricesContent
                      "I'm unable to fetch the current price for SEI at the moment. Please try again later."
                      "PRICE_QUERY" [] |}].
Proof. vm_compute. split; reflexivity. Qed.

Lemma string_app_longer (a b c : string) :
  (String.length c < String.length b)%nat -> a ++ b <> c.
Proof.
  intros Hlen Heq. apply (f_equal String.length) in Heq.
  rewrite string_length_app in Heq. lia.
Qed.

(** X22. With the clock and the timestamp whole numbers of milliseconds in
    the range of safe integers, [formatTimestamp] answers "just now" exactly
    when the timestamp is less than 60000 ms behind the clock; a timestamp
    ahead of the clock reads "just now" as well. *)
Theorem formatTimestamp_just_now :
  forall (timestamp : Z) (s : State),
    0 <= clock s < 2 ^ 53 -> 0 <= timestamp < 2 ^ 53 ->
    (fst (formatTimestamp (of_Z timestamp) s) = Return "just now"
     <-> clock s - timestamp < 60000).
Proof.
  intros timestamp s Hc Ht.
  unfold formatTimestamp, mbind, M_bind, Date_now, gets. cbv zeta. cbn [fst snd].
  rewrite (sub_of_Z (clock s) timestamp Hc Ht).
  rewrite (ltb_of_Z (clock s - timestamp) 60000) by (change (2 ^ 53) with 9007199254740992 in *; lia).
  destruct (Z.ltb_spec (clock s - timestamp) 60000) as [Hlt|Hge].
  - split; [intros _; exact Hlt | intros _; reflexivity].
  - split; [|lia]. intros Hret. exfalso.
    repeat match type of Hret with
           | context [if ?b then _ else _] => destruct b
           end; cbn [fst mret] in Hret; injection Hret as Hret;
      revert Hret; apply string_app_longer; simpl; lia.
Qed.

Lemma formatTimestamp_just_now_witness :
  0 <= clock (initial Demo.t0) < 2 ^ 53 /\ 0 <= Demo.t0 + 5000 < 2 ^ 53
  /\ (fst (formatTimestamp (of_Z (Demo.t0 + 5000)) (initial Demo.t0)) = Return "just now"
      <-> clock (initial Demo.t0) - (Demo.t0 + 5000) < 60000).
Proof.
  assert (Hc : 0 <= clock (initial Demo.t0) < 2 ^ 53) by (vm_compute; split; [discriminate | reflexivity]).
  assert (Ht : 0 <= Demo.t0 + 5000 < 2 ^ 53) by (vm_compute; split; [discriminate | reflexivity]).
  split; [exact Hc|]. split; [exact Ht|].
  exact (formatTimestamp_just_now (Demo.t0 + 5000) (initial Demo.t0) Hc Ht).
Defined.
